(** * GitPaid: bounty lifecycle, escrow custody and wallet store

    A shallow embedding of the backend of GitPaid:
    - [backend/models/bountyModel.js]       (module [BountyModel]),
    - the Radius escrow service required as [../config/radius]
                                             (module [Radius]),
    - [backend/controllers/bountyController.js] (module [BountyController]),
    - the wallet controller required as [../controllers/walletController]
                                             (modules [WalletController]
                                              and [WalletStore]),
    - the listings of the bounty model and controller
                                             (module [BountyQueries]),
    - the local updates of the ClaimBounty and wallets pages
                                             (module [Pages]),
    - [backend/controllers/webhookController.js] and the webhook service
      required as [../services/webhookService] (module [Webhooks]).

    The database is a record of tables, every table a list of rows in
    insertion order.  Prisma calls are functions on the tables and do not
    fail for reasons of their own, with two exceptions, where the source
    goes on after the failure or has moved money before it: the count in
    [createWallet] ([wallet_count_rejects]) and the insert in
    [createBounty] ([bounty_create_rejects]); a query that names no order ([findFirst] in
    [deleteWallet]) returns the row the database chooses, which the call
    takes as an argument.  The outside world (GitHub, the Radius SDK, the
    key generator) answers through an oracle record passed to every call.
    A handler gives up control at every [await]; [step], [run], [serve]
    and [serve_all] serve each handler to its end before the next one
    starts, and the handlers that are also taken apart at an [await]
    ([claim_read], [complete_read], [update_clear]) show what two handlers
    in flight can do.  Timestamps and console output are left out. *)

From Stdlib Require Import ZArith List Bool String Lia.
From Stdlib Require Import SpecFloat DecimalString Permutation.
Import ListNotations.
Local Open Scope Z_scope.

(** ** JavaScript values *)

(** A promise that settles: fulfilled with a value or rejected with an
    [Error] whose [message] is kept. *)
Inductive result (A : Type) : Type :=
| Ok (a : A)
| Throw (message : string).
Arguments Ok {A} a.
Arguments Throw {A} message.

(** Template literals print numbers in decimal. *)
Definition show (z : Z) : string := NilZero.string_of_int (Z.to_int z).

Definition show_id (x : option Z) : string :=
  match x with
  | Some z => show z
  | None => "null"
  end.

Definition cat (a b : string) : string := String.append a b.
Infix "+++" := cat (right associativity, at level 60).

(** [!x] on a nullable number: [null], [undefined] and [0] are falsy. *)
Definition truthy (x : option Z) : bool :=
  match x with
  | Some z => negb (z =? 0)
  | None => false
  end.

(** [a === b] on nullable numbers. *)
Definition same (a b : option Z) : bool :=
  match a, b with
  | Some x, Some y => x =? y
  | None, None => true
  | _, _ => false
  end.

(** *** Numbers

    A JavaScript number is an IEEE 754 binary64 value. *)
Definition double : Type := spec_float.
Definition prec : Z := 53.
Definition emax : Z := 1024.

Definition of_int (z : Z) : double := binary_normalize prec emax z 0 false.
Definition mul (x y : double) : double := SFmul prec emax x y.

(** [10**18] *)
Definition ten18 : double := of_int (10 ^ 18).

Definition isNaN (x : double) : bool :=
  match x with
  | S754_nan => true
  | _ => false
  end.

(** [parseFloat] applied to a number prints and reads it back: the
    identity, but for the sign of zero. *)
Definition parseFloat (x : double) : double :=
  match x with
  | S754_zero _ => S754_zero false
  | _ => x
  end.

(** [Math.floor]: the largest integral double not above [x]. *)
Definition Math_floor (x : double) : double :=
  match x with
  | S754_finite s m e =>
      if 0 <=? e then x
      else binary_normalize prec emax
             (Z.shiftr (cond_Zopp s (Zpos m)) (- e)) 0 s
  | _ => x
  end.

(** [BigInt(x)]: the integer [x] is, a [RangeError] when [x] is not an
    integer (its message also quotes the number, which is left out
    here). *)
Definition BigInt (x : double) : result Z :=
  match x with
  | S754_zero _ => Ok 0
  | S754_finite s m e =>
      if 0 <=? e then Ok (cond_Zopp s (Zpos m * 2 ^ e))
      else if Zpos m mod 2 ^ (- e) =? 0
           then Ok (cond_Zopp s (Zpos m / 2 ^ (- e)))
           else Throw "The number cannot be converted to a BigInt because it is not an integer"
  | _ => Throw "The number cannot be converted to a BigInt because it is not an integer"
  end.

(** ** Data model (the Prisma rows the code reads and writes) *)

Inductive Status : Type := OPEN | CLAIMED | COMPLETED | CANCELLED.

Definition Status_eqb (a b : Status) : bool :=
  match a, b with
  | OPEN, OPEN | CLAIMED, CLAIMED
  | COMPLETED, COMPLETED | CANCELLED, CANCELLED => true
  | _, _ => false
  end.

Definition status_name (s : Status) : string :=
  match s with
  | OPEN => "OPEN"
  | CLAIMED => "CLAIMED"
  | COMPLETED => "COMPLETED"
  | CANCELLED => "CANCELLED"
  end.

Record Bounty : Type := mkBounty {
  id : Z;
  repoOwner : string;
  repoName : string;
  issueNumber : Z;
  amount : double;
  currency : string;
  status : Status;
  escrowId : string;
  createdBy : Z;
  claimedBy : option Z;
  ownerWalletId : option Z;
  hunterWalletId : option Z
}.

Record Wallet : Type := mkWallet {
  wallet_id : Z;
  userId : Z;
  walletName : string;
  publicKey : string;
  encryptedPrivateKey : string;
  iv : string;
  isDefault : bool
}.

(** What the Radius service did, in order: every entry of the three
    exported transfer functions, and every [account.send] that returned
    a receipt. *)
Inductive Event : Type :=
| CreateEscrowCall (user : Z) (amt : double) (walletId : Z)
| ReleaseEscrowCall (escrow : string) (toId : option Z) (amt : double)
    (hunterWallet : option Z)
| RefundEscrowCall (escrow : string) (toId : Z) (amt : double)
    (ownerWallet : option Z)
| Sent (toAddress : string) (amountInWei : Z) (txHash : string).

Record World : Type := mkWorld {
  bounties : list Bounty;
  wallets : list Wallet;
  users : list Z;
  walletClients : list Z;
  events : list Event
}.

Definition set_bounties (bs : list Bounty) (w : World) : World :=
  mkWorld bs (wallets w) (users w) (walletClients w) (events w).
Definition set_wallets (ws : list Wallet) (w : World) : World :=
  mkWorld (bounties w) ws (users w) (walletClients w) (events w).
Definition set_walletClients (c : list Z) (w : World) : World :=
  mkWorld (bounties w) (wallets w) (users w) c (events w).
Definition set_events (es : list Event) (w : World) : World :=
  mkWorld (bounties w) (wallets w) (users w) (walletClients w) es.

(** ** Asynchronous code: state passing with rejection *)

Definition M (A : Type) : Type := World -> result A * World.

Definition ret {A} (a : A) : M A := fun w => (Ok a, w).
Definition throw {A} (message : string) : M A := fun w => (Throw message, w).
Definition lift {A} (r : result A) : M A := fun w => (r, w).

Definition bind {A B} (c : M A) (k : A -> M B) : M B :=
  fun w =>
    match c w with
    | (Ok a, w') => k a w'
    | (Throw m, w') => (Throw m, w')
    end.

(** [try { c } catch (error) { h error.message }] *)
Definition catch {A} (c : M A) (h : string -> M A) : M A :=
  fun w =>
    match c w with
    | (Ok a, w') => (Ok a, w')
    | (Throw m, w') => h m w'
    end.

Notation "x <- c ;; k" := (bind c (fun x => k))
  (at level 61, c at next level, right associativity).
Notation "c ;;; k" := (bind c (fun _ => k))
  (at level 61, right associativity).

Definition emit (e : Event) : M unit :=
  fun w => (Ok tt, set_events (events w ++ [e]) w).

(** ** Tables *)

(** The next value of an autoincrement key, taken from the keys present:
    one more than the largest.  (The database also remembers the keys of
    deleted rows and does not hand them out again; what is used of a new
    key here is that no row present has it.) *)
Definition next_id (ids : list Z) : Z := 1 + fold_right Z.max 0 ids.

(** [findUnique({ where: { id } })] *)
Fixpoint find_bounty (i : Z) (rows : list Bounty) : option Bounty :=
  match rows with
  | [] => None
  | b :: rest => if id b =? i then Some b else find_bounty i rest
  end.

Fixpoint find_wallet (i : Z) (rows : list Wallet) : option Wallet :=
  match rows with
  | [] => None
  | x :: rest => if wallet_id x =? i then Some x else find_wallet i rest
  end.

(** [update({ where: { id }, data })]: the row with that key, and only
    it, gets the new columns. *)
Fixpoint update_bounty (i : Z) (f : Bounty -> Bounty) (rows : list Bounty)
  : list Bounty :=
  match rows with
  | [] => []
  | b :: rest =>
      if id b =? i then f b :: rest else b :: update_bounty i f rest
  end.

Fixpoint update_wallet (i : Z) (f : Wallet -> Wallet) (rows : list Wallet)
  : list Wallet :=
  match rows with
  | [] => []
  | x :: rest =>
      if wallet_id x =? i then f x :: rest else x :: update_wallet i f rest
  end.

Definition prisma_bounty_update (i : Z) (f : Bounty -> Bounty) : M Bounty :=
  fun w =>
    match find_bounty i (bounties w) with
    | Some b => (Ok (f b), set_bounties (update_bounty i f (bounties w)) w)
    | None => (Throw "Record to update not found.", w)
    end.

(** [prisma.wallet.findUnique({ where: { id } })]; a [null] key is
    refused by the client. *)
Definition prisma_wallet_findUnique (i : option Z) : M (option Wallet) :=
  fun w =>
    match i with
    | Some k => (Ok (find_wallet k (wallets w)), w)
    | None => (Throw "Argument `where` needs at least one argument.", w)
    end.

(** ** [backend/models/bountyModel.js] *)
Module BountyModel.

Definition with_id (i : Z) (b : Bounty) : Bounty :=
  mkBounty i (repoOwner b) (repoName b) (issueNumber b) (amount b)
    (currency b) (status b) (escrowId b) (createdBy b) (claimedBy b)
    (ownerWalletId b) (hunterWalletId b).

(** [prisma.bounty.create({ data })]; [refused] is the message of the
    database when it refuses the row, as it may for reasons that are not
    in this code (a constraint of the schema, a lost connection). *)
Definition createBounty (refused : option string) (data : Bounty) : M Bounty :=
  fun w =>
    match refused with
    | Some m => (Throw m, w)
    | None =>
        let b := with_id (next_id (map id (bounties w))) data in
        (Ok b, set_bounties (bounties w ++ [b]) w)
    end.

Definition getBountyById (i : Z) : M (option Bounty) :=
  fun w => (Ok (find_bounty i (bounties w)), w).

(** [data: { claimedBy: devId, hunterWalletId, status: 'CLAIMED' }] *)
Definition claimed_data (devId : Z) (hunterWallet : option Z) (b : Bounty)
  : Bounty :=
  mkBounty (id b) (repoOwner b) (repoName b) (issueNumber b) (amount b)
    (currency b) CLAIMED (escrowId b) (createdBy b) (Some devId)
    (ownerWalletId b) hunterWallet.

Definition markBountyClaimed (i devId : Z) (hunterWallet : option Z)
  : M Bounty :=
  prisma_bounty_update i (claimed_data devId hunterWallet).

(** [data: { status: 'COMPLETED', escrowId: transactionId }]; the
    transaction id is already a string here. *)
Definition completed_data (transactionId : string) (b : Bounty) : Bounty :=
  mkBounty (id b) (repoOwner b) (repoName b) (issueNumber b) (amount b)
    (currency b) COMPLETED transactionId (createdBy b) (claimedBy b)
    (ownerWalletId b) (hunterWalletId b).

Definition markBountyCompleted (i : Z) (transactionId : string) : M Bounty :=
  prisma_bounty_update i (completed_data transactionId).

(** [data: { status: 'CANCELLED' }] *)
Definition cancelled_data (b : Bounty) : Bounty :=
  mkBounty (id b) (repoOwner b) (repoName b) (issueNumber b) (amount b)
    (currency b) CANCELLED (escrowId b) (createdBy b) (claimedBy b)
    (ownerWalletId b) (hunterWalletId b).

Definition cancelBounty (i : Z) : M Bounty :=
  prisma_bounty_update i cancelled_data.

End BountyModel.

(** ** The outside world

    The answers of the process environment, the Radius SDK, the cipher
    and GitHub during one request. *)
Record Outside : Type := mkOutside {
  RADIUS_API_URL : bool;
  RADIUS_ESCROW_API_KEY : bool;
  RADIUS_ESCROW_ADDRESS : option string;
  (** [NewClient] followed by [NewAccount(withPrivateKey(...))] *)
  NewAccount : result unit;
  AddressFromHex : string -> result unit;
  (** [account.send(client, to, amount)], giving [receipt.txHash] *)
  account_send : string -> Z -> result string;
  decryptPrivateKey : string -> string -> result string;
  (** [axios.get(issueUrl)], giving [issue.state] *)
  github_issue_state : result (option string);
  (** [generateKeyPair()], giving [(privateKey, publicKey)] *)
  generateKeyPair : result (string * string);
  (** [ec.keyFromPrivate(hex, 'hex').getPublic(true, 'hex')] *)
  keyFromPrivate : string -> result string;
  (** [encryptPrivateKey(privateKey)], giving [(encryptedPrivateKey, iv)] *)
  encryptPrivateKey : string -> result (string * string);
  (** whether the [findMany] that counts a user's wallets in
      [createWallet] rejects; the source catches that locally *)
  wallet_count_rejects : bool;
  (** the message with which [prisma.bounty.create] rejects in
      [createBounty], if it does; the source catches that locally too *)
  bounty_create_rejects : option string
}.

(** ** The Radius escrow service ([../config/radius]) *)
Module Radius.
Section WithOutside.
Variable out : Outside.

(** [walletController.getWalletWithPrivateKey] *)
Definition getWalletWithPrivateKey (walletId user : Z) : M Wallet :=
  wallet <- prisma_wallet_findUnique (Some walletId) ;;
  match wallet with
  | None => throw "Wallet not found"
  | Some x =>
      if negb (userId x =? user) then throw "Unauthorized access to wallet"
      else
        lift (decryptPrivateKey out (encryptedPrivateKey x) (iv x)) ;;;
        ret x
  end.

Definition initializeWalletRadius (walletId user : Z) : M unit :=
  fun w =>
    if existsb (Z.eqb walletId) (walletClients w) then (Ok tt, w)
    else if negb (RADIUS_API_URL out)
    then (Throw "Radius API URL is missing. Please check environment variables.", w)
    else
      catch
        (getWalletWithPrivateKey walletId user ;;;
         lift (NewAccount out) ;;;
         fun w' => (Ok tt, set_walletClients (walletId :: walletClients w') w'))
        (fun m => throw ("Failed to initialize wallet Radius client: " +++ m))
        w.

Definition initializeEscrowRadius : M unit :=
  if negb (RADIUS_API_URL out) || negb (RADIUS_ESCROW_API_KEY out)
  then throw "Radius API URL or Escrow API Key is missing. Please check environment variables."
  else
    lift (NewAccount out) ;;;
    match RADIUS_ESCROW_ADDRESS out with
    | None => throw "Cannot read properties of undefined (reading 'toLowerCase')"
    | Some _ => ret tt
    end.

(** [const receipt = await account.send(client, to, amount);
     const txHash = receipt.txHash.toString();] *)
Definition send (to : string) (amountInWei : Z) : M string :=
  txHash <- lift (account_send out to amountInWei) ;;
  emit (Sent to amountInWei txHash) ;;;
  ret txHash.

(** Lock funds in escrow by transferring to the escrow address.  (The
    message for an amount that is not a number also quotes the amount as
    it was posted, which is left out here.) *)
Definition createEscrow (user : Z) (amt : double) (walletId : Z) : M string :=
  catch
    (emit (CreateEscrowCall user amt walletId) ;;;
     initializeWalletRadius walletId user ;;;
     let numericAmount := parseFloat amt in
     if isNaN numericAmount
     then throw "Invalid amount. Must be a valid number."
     else
       amountInWei <- lift (BigInt (Math_floor (mul numericAmount ten18))) ;;
       match RADIUS_ESCROW_ADDRESS out with
       | None => throw "RADIUS_ESCROW_ADDRESS is missing from environment variables"
       | Some escrowAddressHex =>
           if String.eqb escrowAddressHex ""
           then throw "RADIUS_ESCROW_ADDRESS is missing from environment variables"
           else
             lift (AddressFromHex out escrowAddressHex) ;;;
             send escrowAddressHex amountInWei
       end)
    (fun m => throw ("Failed to create escrow: " +++ m)).

(** Release funds from escrow to the developer. *)
Definition releaseEscrow (escrow : string) (toId : option Z) (amt : double)
    (hunterWallet : option Z) : M string :=
  catch
    (emit (ReleaseEscrowCall escrow toId amt hunterWallet) ;;;
     initializeEscrowRadius ;;;
     hunter <- prisma_wallet_findUnique hunterWallet ;;
     match hunter with
     | None =>
         throw ("Hunter wallet with ID " +++ show_id hunterWallet +++ " not found")
     | Some x =>
         let hunterAddressHex := publicKey x in
         lift (AddressFromHex out hunterAddressHex) ;;;
         let numericAmount := parseFloat amt in
         if isNaN numericAmount
         then throw "Invalid amount. Must be a valid number."
         else
           amountInWei <- lift (BigInt (Math_floor (mul numericAmount ten18))) ;;
           send hunterAddressHex amountInWei
     end)
    (fun m => throw ("Failed to release escrow: " +++ m)).

(** Refund funds from escrow back to the owner. *)
Definition refundEscrow (escrow : string) (toId : Z) (amt : double)
    (ownerWallet : option Z) : M string :=
  catch
    (emit (RefundEscrowCall escrow toId amt ownerWallet) ;;;
     initializeEscrowRadius ;;;
     owner <- prisma_wallet_findUnique ownerWallet ;;
     match owner with
     | None =>
         throw ("Owner wallet with ID " +++ show_id ownerWallet +++ " not found")
     | Some x =>
         let listerAddressHex := publicKey x in
         lift (AddressFromHex out listerAddressHex) ;;;
         amountToRefund <- lift (BigInt (mul amt ten18)) ;;
         send listerAddressHex amountToRefund
     end)
    (fun m => throw ("Failed to refund escrow: " +++ m)).

End WithOutside.
End Radius.

(** ** HTTP responses: [res.status(code).json(body)] *)

Inductive Body : Type :=
| error_body (error : string) (message : option string)
| conflict_body (error : string) (bountyCount : nat) (message : string)
| bounty_body (bounty : Bounty)
| bounty_transaction_body (bounty : Bounty) (transaction : string)
| wallet_body (w_id : Z) (w_name w_publicKey : string) (w_isDefault : bool)
| message_body (message : string).

Record Response : Type := mkResponse { code : Z; body : Body }.

(** A handler: its body returns a response or throws into the outer
    [catch], which answers 500. *)
Definition respond (c : M Response) (failed : string) : World -> Response * World :=
  fun w =>
    match c w with
    | (Ok r, w') => (r, w')
    | (Throw m, w') => (mkResponse 500 (error_body failed (Some m)), w')
    end.

(** The outer [catch] of the wallet handlers answers 500 with the
    error alone. *)
Definition respond_plain (c : M Response) (failed : string)
  : World -> Response * World :=
  fun w =>
    match c w with
    | (Ok r, w') => (r, w')
    | (Throw _, w') => (mkResponse 500 (error_body failed None), w')
    end.

(** ** [backend/controllers/bountyController.js] *)
Module BountyController.

Record CreateBody : Type := mkCreateBody {
  repo_owner : string;
  repo_name : string;
  issue_number : Z;
  (** [parseFloat(amount)] of the posted amount *)
  posted_amount : double;
  walletId : option Z
}.

(** Create a new bounty (by repository owner). *)
Definition createBounty (out : Outside) (user : Z) (req : CreateBody)
  : World -> Response * World :=
  respond
    (fun w =>
       if negb (existsb (Z.eqb user) (users w))
       then (Ok (mkResponse 401 (error_body "User not found" None)), w)
       else
         match walletId req with
         | Some wid =>
           if wid =? 0
           then (Ok (mkResponse 400 (error_body "Wallet ID is required" None)), w)
           else
             catch
               (state <- lift (github_issue_state out) ;;
                if match state with
                   | Some s => negb (String.eqb s "open")
                   | None => true
                   end
                then ret (mkResponse 400
                            (error_body "Issue is not open or not found" None))
                else
                  escrow <- Radius.createEscrow out user (posted_amount req) wid ;;
                  bounty <- BountyModel.createBounty (bounty_create_rejects out)
                              (mkBounty 0 (repo_owner req) (repo_name req)
                                 (issue_number req) (posted_amount req) "USD"
                                 OPEN escrow user None (Some wid) None) ;;
                  ret (mkResponse 201 (bounty_body bounty)))
               (fun m => ret (mkResponse 400
                                (error_body "GitHub API error" (Some m))))
               w
         | None =>
           (Ok (mkResponse 400 (error_body "Wallet ID is required" None)), w)
         end)
    "Failed to create bounty".

(** The first half of [claimBounty]: validation and the read of the
    bounty.  [Some r] is an early [return r]. *)
Definition claim_check (bountyId : Z) (wid : option Z) : M (option Response) :=
  if negb (truthy wid)
  then ret (Some (mkResponse 400 (error_body "Wallet ID is required" None)))
  else
    bounty <- BountyModel.getBountyById bountyId ;;
    match bounty with
    | None => ret (Some (mkResponse 404 (error_body "Bounty not found" None)))
    | Some b =>
        if negb (Status_eqb (status b) OPEN)
        then ret (Some (mkResponse 400
               (error_body ("Bounty is not open (status: "
                              +++ status_name (status b) +++ ")") None)))
        else ret None
    end.

(** The second half: the write. *)
Definition claim_write (user bountyId : Z) (wid : option Z) : M Response :=
  updatedBounty <- BountyModel.markBountyClaimed bountyId user wid ;;
  ret (mkResponse 200 (bounty_body updatedBounty)).

(** Claim an open bounty (by a developer). *)
Definition claimBounty (user bountyId : Z) (wid : option Z)
  : World -> Response * World :=
  respond
    (early <- claim_check bountyId wid ;;
     match early with
     | Some r => ret r
     | None => claim_write user bountyId wid
     end)
    "Failed to claim bounty".

(** Complete a bounty (approve fix and release payment by repo owner). *)
Definition completeBounty (out : Outside) (user bountyId : Z)
  : World -> Response * World :=
  respond
    (bounty <- BountyModel.getBountyById bountyId ;;
     match bounty with
     | None => ret (mkResponse 404 (error_body "Bounty not found" None))
     | Some b =>
         if negb (createdBy b =? user)
         then ret (mkResponse 403
                (error_body "Only the bounty owner can mark it as completed" None))
         else if negb (Status_eqb (status b) CLAIMED)
         then ret (mkResponse 400
                (error_body ("Bounty cannot be completed (status: "
                               +++ status_name (status b) +++ ")") None))
         else
           transaction <- Radius.releaseEscrow out (escrowId b) (claimedBy b)
                            (amount b) (hunterWalletId b) ;;
           updatedBounty <- BountyModel.markBountyCompleted bountyId transaction ;;
           ret (mkResponse 200 (bounty_transaction_body updatedBounty transaction))
     end)
    "Failed to complete bounty".

(** Cancel a bounty (refund to owner). *)
Definition cancelBounty (out : Outside) (user bountyId : Z)
    (refundWalletId : option Z) : World -> Response * World :=
  respond
    (bounty <- BountyModel.getBountyById bountyId ;;
     match bounty with
     | None => ret (mkResponse 404 (error_body "Bounty not found" None))
     | Some b =>
         if negb (createdBy b =? user)
         then ret (mkResponse 403
                (error_body "Only the bounty owner can cancel it" None))
         else if negb (Status_eqb (status b) OPEN)
                 && negb (Status_eqb (status b) CLAIMED)
         then ret (mkResponse 400
                (error_body ("Bounty cannot be cancelled (status: "
                               +++ status_name (status b) +++ ")") None))
         else
           let walletIdToUse :=
             if truthy refundWalletId then refundWalletId else ownerWalletId b in
           transaction <- Radius.refundEscrow out (escrowId b) user (amount b)
                            walletIdToUse ;;
           updatedBounty <- BountyModel.cancelBounty bountyId ;;
           ret (mkResponse 200 (bounty_transaction_body updatedBounty transaction))
     end)
    "Failed to cancel bounty".

End BountyController.

(** ** The wallet controller ([../controllers/walletController]) *)
Module WalletController.

Record CreateBody : Type := mkCreateBody {
  body_walletName : option string;
  body_privateKey : option string;
  body_publicKey : option string;
  body_generateNewKey : bool;
  (** sent by the wallet form; [createWallet] does not read it *)
  body_isDefault : option bool
}.

(** [!s] on a nullable string *)
Definition given (s : option string) : bool :=
  match s with
  | Some x => negb (String.eqb x "")
  | None => false
  end.

Definition text (s : option string) : string :=
  match s with
  | Some x => x
  | None => ""
  end.

Definition with0x (s : string) : string :=
  if String.prefix "0x" s then s else "0x" +++ s.

Definition without0x (s : string) : string :=
  if String.prefix "0x" s then String.substring 2 (String.length s - 2) s else s.

Definition wallets_of (user : Z) (rows : list Wallet) : list Wallet :=
  filter (fun x => userId x =? user) rows.

(** The keys to store: [Ok (privateKey, finalPublicKey)], or the
    response of the branch that gave up. *)
Definition choose_keys (out : Outside) (req : CreateBody)
  : Response + (string * string) :=
  if body_generateNewKey req || negb (given (body_privateKey req))
  then
    match generateKeyPair out with
    | Ok keyPair => inr keyPair
    | Throw _ =>
        inl (mkResponse 500 (error_body "Failed to generate wallet keys" None))
    end
  else
    let privateKey := text (body_privateKey req) in
    let finalPublicKey := with0x (text (body_publicKey req)) in
    match keyFromPrivate out (without0x privateKey) with
    | Ok _ => inr (privateKey, finalPublicKey)
    | Throw _ =>
        inl (mkResponse 400
               (error_body "Invalid private key format. Must be a valid secp256k1 private key" None))
    end.

(** Create a new wallet for a user. *)
Definition createWallet (out : Outside) (user : option Z) (req : CreateBody)
  : World -> Response * World :=
  fun w =>
    match user with
    | None => (mkResponse 401 (error_body "Authentication required" None), w)
    | Some u =>
      if u =? 0
      then (mkResponse 401 (error_body "Authentication required" None), w)
      else if negb (given (body_walletName req))
      then (mkResponse 400 (error_body "Wallet name is required" None), w)
      else if negb (body_generateNewKey req) && negb (given (body_publicKey req))
      then (mkResponse 400
              (error_body "Public address is required when importing an existing wallet" None), w)
      else
        match choose_keys out req with
        | inl r => (r, w)
        | inr (privateKey, finalPublicKey) =>
          match encryptPrivateKey out privateKey with
          | Throw _ =>
              (mkResponse 500 (error_body "Failed to secure wallet private key" None), w)
          | Ok (encrypted, vector) =>
              let existingWallets :=
                if wallet_count_rejects out then 0%nat
                else List.length (wallets_of u (wallets w)) in
              let wallet :=
                mkWallet (next_id (map wallet_id (wallets w))) u
                  (text (body_walletName req)) finalPublicKey encrypted vector
                  (Nat.eqb existingWallets 0) in
              (mkResponse 201
                 (wallet_body (wallet_id wallet) (walletName wallet)
                    (publicKey wallet) (isDefault wallet)),
               set_wallets (wallets w ++ [wallet]) w)
          end
        end
    end.

(** The [force] query parameter. *)
Inductive Query : Type :=
| absent
| word (s : string)
| flag (b : bool).

(** [force === 'true' || force === true], with [force = false] when
    absent *)
Definition forced (force : Query) : bool :=
  match force with
  | absent => false
  | word s => String.eqb s "true"
  | flag b => b
  end.

(** [where: { OR: [{ ownerWalletId: id }, { hunterWalletId: id }] }] *)
Definition references (i : Z) (b : Bounty) : bool :=
  same (ownerWalletId b) (Some i) || same (hunterWalletId b) (Some i).

(** [updateData], computed from the row as it was found. *)
Definition detach_data (i : Z) (found : Bounty) (b : Bounty) : Bounty :=
  mkBounty (id b) (repoOwner b) (repoName b) (issueNumber b) (amount b)
    (currency b) (status b) (escrowId b) (createdBy b) (claimedBy b)
    (if same (ownerWalletId found) (Some i) then None else ownerWalletId b)
    (if same (hunterWalletId found) (Some i) then None else hunterWalletId b).

Fixpoint for_each {A} (l : list A) (body : A -> M unit) : M unit :=
  match l with
  | [] => ret tt
  | a :: rest => body a ;;; for_each rest body
  end.

Fixpoint delete_wallet (i : Z) (rows : list Wallet) : list Wallet :=
  match rows with
  | [] => []
  | x :: rest => if wallet_id x =? i then rest else x :: delete_wallet i rest
  end.

Definition make_default (x : Wallet) : Wallet :=
  mkWallet (wallet_id x) (userId x) (walletName x) (publicKey x)
    (encryptedPrivateKey x) (iv x) true.

(** [prisma.wallet.findFirst({ where: { userId } })]: the query names no
    order, so which of the matching rows it returns is the choice of the
    database; here it is the row at position [choice], counted round the
    list of the matching rows. *)
Definition findFirst (choice : nat) (rows : list Wallet) : option Wallet :=
  nth_error rows (choice mod List.length rows).

(** Delete a wallet. *)
Definition deleteWallet (choice : nat) (user i : Z) (force : Query)
  : World -> Response * World :=
  respond_plain
    (existingWallet <- prisma_wallet_findUnique (Some i) ;;
     match existingWallet with
     | None => ret (mkResponse 404 (error_body "Wallet not found" None))
     | Some existing =>
       if negb (userId existing =? user)
       then ret (mkResponse 403 (error_body "Unauthorized access to wallet" None))
       else
         fun w =>
         let associatedBounties := filter (references i) (bounties w) in
         if (0 <? List.length associatedBounties)%nat && negb (forced force)
         then
           (Ok (mkResponse 400
                  (conflict_body "Cannot delete wallet that is associated with bounties"
                     (List.length associatedBounties)
                     "This wallet is associated with bounties. Use force=true to remove the wallet association from these bounties before deletion.")),
            w)
         else
           ((if (0 <? List.length associatedBounties)%nat && forced force
             then for_each associatedBounties
                    (fun bounty =>
                       prisma_bounty_update (id bounty) (detach_data i bounty) ;;;
                       ret tt)
             else ret tt) ;;;
            (fun w1 => (Ok tt, set_wallets (delete_wallet i (wallets w1)) w1)) ;;;
            (if isDefault existing
             then fun w2 =>
                    match findFirst choice (wallets_of user (wallets w2)) with
                    | Some another =>
                        (Ok tt, set_wallets
                                  (update_wallet (wallet_id another) make_default
                                     (wallets w2)) w2)
                    | None => (Ok tt, w2)
                    end
             else ret tt) ;;;
            ret (mkResponse 200 (message_body "Wallet deleted successfully")))
           w
     end)
    "Failed to delete wallet".

End WalletController.

(** ** The bounty state machine as a whole *)

(** One call of one of the four operations, with the outside world as
    it answers during that call. *)
Inductive Op : Type :=
| fund (out : Outside) (user : Z) (req : BountyController.CreateBody)
| claim (user bountyId : Z) (walletId : option Z)
| complete (out : Outside) (user bountyId : Z)
| cancel (out : Outside) (user bountyId : Z) (refundWalletId : option Z).

Definition step (o : Op) (w : World) : Response * World :=
  match o with
  | fund out user req => BountyController.createBounty out user req w
  | claim user i wid => BountyController.claimBounty user i wid w
  | complete out user i => BountyController.completeBounty out user i w
  | cancel out user i refund => BountyController.cancelBounty out user i refund w
  end.

(** Calls served one after the other. *)
Definition run (ops : list Op) (w : World) : World :=
  fold_left (fun w' o => snd (step o w')) ops w.

Definition status_of (i : Z) (w : World) : option Status :=
  option_map status (find_bounty i (bounties w)).

Definition escrow_of (i : Z) (w : World) : option string :=
  option_map escrowId (find_bounty i (bounties w)).

Definition claimer_of (i : Z) (w : World) : option (option Z) :=
  option_map claimedBy (find_bounty i (bounties w)).

(** The moves of the transition table. *)
Inductive move : Status -> Status -> Prop :=
| move_claim : move OPEN CLAIMED
| move_complete : move CLAIMED COMPLETED
| move_cancel_open : move OPEN CANCELLED
| move_cancel_claimed : move CLAIMED CANCELLED.

(** *** Two [claimBounty] handlers in flight

    A handler gives up control at each [await]: between its read
    ([getBountyById]) and its write ([markBountyClaimed]) another
    handler may run. *)
Record ClaimCall : Type := mkClaimCall {
  caller : Z;
  target : Z;
  hunter : option Z
}.

Definition claim_read (c : ClaimCall) (w : World) : option Response * World :=
  match BountyController.claim_check (target c) (hunter c) w with
  | (Ok early, w') => (early, w')
  | (Throw m, w') =>
      (Some (mkResponse 500 (error_body "Failed to claim bounty" (Some m))), w')
  end.

Definition claim_finish (c : ClaimCall) (early : option Response) (w : World)
  : Response * World :=
  match early with
  | Some r => (r, w)
  | None =>
      respond (BountyController.claim_write (caller c) (target c) (hunter c))
        "Failed to claim bounty" w
  end.

(** Handler [a] and handler [b] one after the other. *)
Definition one_by_one (a b : ClaimCall) (w : World)
  : Response * Response * World :=
  let '(ra, w1) := BountyController.claimBounty (caller a) (target a) (hunter a) w in
  let '(rb, w2) := BountyController.claimBounty (caller b) (target b) (hunter b) w1 in
  (ra, rb, w2).

(** Both handlers read before either writes. *)
Definition interleaved (a b : ClaimCall) (w : World)
  : Response * Response * World :=
  let '(ea, w1) := claim_read a w in
  let '(eb, w2) := claim_read b w1 in
  let '(ra, w3) := claim_finish a ea w2 in
  let '(rb, w4) := claim_finish b eb w3 in
  (ra, rb, w4).

(** *** Two [completeBounty] handlers in flight

    [completeBounty] awaits the read of the bounty, then the release and
    then the write.  [inr b] is the bounty that passed the guards. *)
Definition complete_read (user bountyId : Z) (w : World)
  : (Response + Bounty) * World :=
  match BountyModel.getBountyById bountyId w with
  | (Ok None, w') =>
      (inl (mkResponse 404 (error_body "Bounty not found" None)), w')
  | (Ok (Some b), w') =>
      if negb (createdBy b =? user)
      then (inl (mkResponse 403
              (error_body "Only the bounty owner can mark it as completed" None)),
            w')
      else if negb (Status_eqb (status b) CLAIMED)
      then (inl (mkResponse 400
              (error_body ("Bounty cannot be completed (status: "
                             +++ status_name (status b) +++ ")") None)),
            w')
      else (inr b, w')
  | (Throw m, w') =>
      (inl (mkResponse 500 (error_body "Failed to complete bounty" (Some m))), w')
  end.

Definition complete_finish (out : Outside) (bountyId : Z)
    (read : Response + Bounty) (w : World) : Response * World :=
  match read with
  | inl r => (r, w)
  | inr b =>
      respond
        (transaction <- Radius.releaseEscrow out (escrowId b) (claimedBy b)
                          (amount b) (hunterWalletId b) ;;
         updatedBounty <- BountyModel.markBountyCompleted bountyId transaction ;;
         ret (mkResponse 200 (bounty_transaction_body updatedBounty transaction)))
        "Failed to complete bounty" w
  end.

(** A release that [releaseEscrow] was asked for. *)
Definition release_asked (e : Event) : bool :=
  match e with
  | ReleaseEscrowCall _ _ _ _ => true
  | _ => false
  end.

(** A refund that [refundEscrow] was asked for. *)
Definition refund_asked (e : Event) : bool :=
  match e with
  | RefundEscrowCall _ _ _ _ => true
  | _ => false
  end.

(** A transfer that went out. *)
Definition transfer_sent (e : Event) : bool :=
  match e with
  | Sent _ _ _ => true
  | _ => false
  end.

(** The answer the source gives for a wrong current status. *)
Definition InvalidTransition (what : string) (current : Status) : Response :=
  mkResponse 400
    (error_body (what +++ " (status: " +++ status_name current +++ ")") None).

Definition Forbidden (what : string) : Response :=
  mkResponse 403 (error_body what None).

Definition walletIdToUse (refundWalletId : option Z) (b : Bounty) : option Z :=
  if truthy refundWalletId then refundWalletId else ownerWalletId b.

(** ** Fixtures *)

Definition out_ok : Outside :=
  mkOutside true true (Some "0xe5c0"%string)
    (Ok tt) (fun _ => Ok tt)
    (fun to amt => Ok ("0xtx:" +++ to +++ ":" +++ show amt))
    (fun _ _ => Ok "0x01"%string)
    (Ok (Some "open"%string))
    (Ok ("0xnewprivate"%string, "0xnewpublic"%string)) (fun _ => Ok "0xderived"%string)
    (fun _ => Ok ("cipher"%string, "iv"%string)) false None.

(** The same world, with [account.send] rejecting. *)
Definition out_send_fails : Outside :=
  mkOutside true true (Some "0xe5c0"%string)
    (Ok tt) (fun _ => Ok tt)
    (fun _ _ => Throw "insufficient funds")
    (fun _ _ => Ok "0x01"%string)
    (Ok (Some "open"%string))
    (Ok ("0xnewprivate"%string, "0xnewpublic"%string)) (fun _ => Ok "0xderived"%string)
    (fun _ => Ok ("cipher"%string, "iv"%string)) false None.

(** The same world, with the database refusing the bounty row. *)
Definition out_insert_fails : Outside :=
  mkOutside true true (Some "0xe5c0"%string)
    (Ok tt) (fun _ => Ok tt)
    (fun to amt => Ok ("0xtx:" +++ to +++ ":" +++ show amt))
    (fun _ _ => Ok "0x01"%string)
    (Ok (Some "open"%string))
    (Ok ("0xnewprivate"%string, "0xnewpublic"%string)) (fun _ => Ok "0xderived"%string)
    (fun _ => Ok ("cipher"%string, "iv"%string)) false
    (Some "Foreign key constraint failed"%string).

Definition lister_wallet : Wallet := mkWallet 1 10 "lister" "0xaaa1" "c1" "i1" true.
Definition hunter_wallet : Wallet := mkWallet 2 20 "hunter" "0xbbb2" "c2" "i2" true.
Definition other_wallet : Wallet := mkWallet 3 30 "other" "0xccc3" "c3" "i3" true.

Definition world0 : World :=
  mkWorld [] [lister_wallet; hunter_wallet; other_wallet] [10; 20; 30] [] [].

(** 2.5 *)
Definition two_and_a_half : double := S754_finite false 5629499534213120 (-51).
(** 0.0011, the double [0x1.205bc01a36e2fp-10] *)
Definition eleven_tenthousandths : double :=
  S754_finite false 5072854620270127 (-62).

Definition post (amt : double) : BountyController.CreateBody :=
  BountyController.mkCreateBody "octo" "repo" 7 amt (Some 1).

(** ** Vocabulary of the properties *)

(** A call that leaves the database tables as they are. *)
Definition quiet {A} (c : M A) : Prop :=
  forall w,
    bounties (snd (c w)) = bounties w /\
    wallets (snd (c w)) = wallets w /\
    users (snd (c w)) = users w.

(** The row [createBounty] hands to the model. *)
Definition new_bounty (user : Z) (req : BountyController.CreateBody)
    (wid : Z) (escrow : string) : Bounty :=
  mkBounty 0 (BountyController.repo_owner req) (BountyController.repo_name req)
    (BountyController.issue_number req) (BountyController.posted_amount req)
    "USD" OPEN escrow user None (Some wid) None.

(** How one row changes when one call has been served. *)
Inductive row_step (b : Bounty) : Bounty -> Prop :=
| row_same : row_step b b
| row_claimed (devId : Z) (hunterWallet : option Z) :
    status b = OPEN ->
    row_step b (BountyModel.claimed_data devId hunterWallet b)
| row_completed (transactionId : string) :
    status b = CLAIMED ->
    row_step b (BountyModel.completed_data transactionId b)
| row_cancelled :
    status b = OPEN \/ status b = CLAIMED ->
    row_step b (BountyModel.cancelled_data b).

(** A row as [createBounty] leaves it. *)
Definition fresh_row (b : Bounty) : Prop :=
  status b = OPEN /\ claimedBy b = None /\ hunterWalletId b = None.

Definition terminal (s : Status) : Prop := s = COMPLETED \/ s = CANCELLED.

(** What the status of a row says about its claimer. *)
Definition consistent (b : Bounty) : Prop :=
  (status b = OPEN -> claimedBy b = None) /\
  (status b = CLAIMED \/ status b = COMPLETED -> claimedBy b <> None).

(** Whether a call was rejected. *)
Definition rejected {A} (r : result A) : bool :=
  match r with
  | Ok _ => false
  | Throw _ => true
  end.

(** The answer of [deleteWallet] for a wallet that bounties refer to. *)
Definition Conflict (count : nat) : Response :=
  mkResponse 400
    (conflict_body "Cannot delete wallet that is associated with bounties"
       count
       "This wallet is associated with bounties. Use force=true to remove the wallet association from these bounties before deletion.").

(** A bounty with wallet [i] detached: the fields naming it are null,
    the others are as they were. *)
Definition detached (i : Z) (b : Bounty) : Bounty :=
  if WalletController.references i b
  then WalletController.detach_data i b b
  else b.

(** Conversion to an integer with truncation toward zero, in the words
    of the specification, of a finite double. *)
Definition truncated (x : double) : option Z :=
  match x with
  | S754_zero _ => Some 0
  | S754_finite s m e =>
      if 0 <=? e then Some (cond_Zopp s (Zpos m * 2 ^ e))
      else Some (Z.quot (cond_Zopp s (Zpos m)) (2 ^ (- e)))
  | _ => None
  end.

(** The same with rounding toward minus infinity. *)
Definition floored (x : double) : option Z :=
  match x with
  | S754_zero _ => Some 0
  | S754_finite s m e =>
      if 0 <=? e then Some (cond_Zopp s (Zpos m * 2 ^ e))
      else Some (cond_Zopp s (Zpos m) / 2 ^ (- e))
  | _ => None
  end.

(** -0.5 *)
Definition minus_half : double := S754_finite true 4503599627370496 (-53).

(** ** The rest of the wallet controller *)
Module WalletStore.
Import Ascii.

(** [prisma.wallet.update({ where: { id }, data })] *)
Definition prisma_wallet_update (i : Z) (f : Wallet -> Wallet) : M Wallet :=
  fun w =>
    match find_wallet i (wallets w) with
    | Some x => (Ok (f x), set_wallets (update_wallet i f (wallets w)) w)
    | None => (Throw "Record to update not found.", w)
    end.

Definition shown (x : Wallet) : Body :=
  wallet_body (wallet_id x) (walletName x) (publicKey x) (isDefault x).

(** Get a single wallet by ID; [None] is an id that is not a number. *)
Definition getWallet (user : option Z) (i : option Z)
  : World -> Response * World :=
  fun w =>
    match user with
    | None => (mkResponse 401 (error_body "Authentication required" None), w)
    | Some u =>
      if u =? 0
      then (mkResponse 401 (error_body "Authentication required" None), w)
      else
      match i with
      | None => (mkResponse 400 (error_body "Invalid wallet ID" None), w)
      | Some k =>
        match find_wallet k (wallets w) with
        | None => (mkResponse 404 (error_body "Wallet not found" None), w)
        | Some x =>
            if negb (userId x =? u)
            then (mkResponse 403 (error_body "Unauthorized access to wallet" None), w)
            else (mkResponse 200 (shown x), w)
        end
      end
    end.

Record UpdateBody : Type := mkUpdateBody {
  new_walletName : option string;
  new_isDefault : option bool
}.

Definition unset_default (x : Wallet) : Wallet :=
  mkWallet (wallet_id x) (userId x) (walletName x) (publicKey x)
    (encryptedPrivateKey x) (iv x) false.

(** [updateMany({ where: { userId, isDefault: true },
                  data: { isDefault: false } })] *)
Definition clear_defaults (user : Z) : M unit :=
  fun w =>
    (Ok tt,
     set_wallets
       (map (fun x => if (userId x =? user) && isDefault x
                      then unset_default x else x)
          (wallets w)) w).

(** [data: { ...(walletName && { walletName }),
             ...(isDefault !== undefined && { isDefault }) }] *)
Definition update_data (req : UpdateBody) (x : Wallet) : Wallet :=
  mkWallet (wallet_id x) (userId x)
    (if WalletController.given (new_walletName req)
     then WalletController.text (new_walletName req) else walletName x)
    (publicKey x) (encryptedPrivateKey x) (iv x)
    (match new_isDefault req with
     | Some flag => flag
     | None => isDefault x
     end).

(** [if (isDefault)] *)
Definition asks_default (req : UpdateBody) : bool :=
  match new_isDefault req with
  | Some flag => flag
  | None => false
  end.

(** Update a wallet. *)
Definition updateWallet (user i : Z) (req : UpdateBody)
  : World -> Response * World :=
  respond_plain
    (existingWallet <- prisma_wallet_findUnique (Some i) ;;
     match existingWallet with
     | None => ret (mkResponse 404 (error_body "Wallet not found" None))
     | Some existing =>
         if negb (userId existing =? user)
         then ret (mkResponse 403 (error_body "Unauthorized access to wallet" None))
         else
           (if asks_default req then clear_defaults user else ret tt) ;;;
           updatedWallet <- prisma_wallet_update i (update_data req) ;;
           ret (mkResponse 200 (shown updatedWallet))
     end)
    "Failed to update wallet".

(** *** Two [updateWallet] handlers in flight

    [updateWallet] awaits the read of the wallet, then [updateMany] and
    then [update].  [update_clear] is the handler up to and with
    [updateMany] ([Some r] is an early answer), [update_set] the rest. *)
Definition update_clear (user i : Z) (req : UpdateBody) (w : World)
  : option Response * World :=
  match prisma_wallet_findUnique (Some i) w with
  | (Ok None, w') =>
      (Some (mkResponse 404 (error_body "Wallet not found" None)), w')
  | (Ok (Some existing), w') =>
      if negb (userId existing =? user)
      then (Some (mkResponse 403
                    (error_body "Unauthorized access to wallet" None)), w')
      else
        match (if asks_default req then clear_defaults user else ret tt) w' with
        | (Ok _, w'') => (None, w'')
        | (Throw _, w'') =>
            (Some (mkResponse 500 (error_body "Failed to update wallet" None)),
             w'')
        end
  | (Throw _, w') =>
      (Some (mkResponse 500 (error_body "Failed to update wallet" None)), w')
  end.

Definition update_set (i : Z) (req : UpdateBody) (early : option Response)
    (w : World) : Response * World :=
  match early with
  | Some r => (r, w)
  | None =>
      respond_plain
        (updatedWallet <- prisma_wallet_update i (update_data req) ;;
         ret (mkResponse 200 (shown updatedWallet)))
        "Failed to update wallet" w
  end.

(** *** Wallet associations

    The answer is a JavaScript object used as a map from wallet id to a
    count; it is kept as a list of entries, one per key. *)
Fixpoint entry (k : Z) (m : list (Z * nat)) : option nat :=
  match m with
  | [] => None
  | (k', n) :: rest => if k' =? k then Some n else entry k rest
  end.

(** [m[k] = (m[k] || 0) + 1] *)
Fixpoint bump (k : Z) (m : list (Z * nat)) : list (Z * nat) :=
  match m with
  | [] => [(k, 1%nat)]
  | (k', n) :: rest =>
      if k' =? k then (k', S n) :: rest else (k', n) :: bump k rest
  end.

(** [x && walletIds.includes(x)] *)
Definition owned_id (walletIds : list Z) (x : option Z) : bool :=
  match x with
  | Some k => negb (k =? 0) && existsb (Z.eqb k) walletIds
  | None => false
  end.

(** [{ ownerWalletId: { in: walletIds } }] *)
Definition among (walletIds : list Z) (x : option Z) : bool :=
  match x with
  | Some k => existsb (Z.eqb k) walletIds
  | None => false
  end.

Definition bump_if (walletIds : list Z) (x : option Z) (m : list (Z * nat))
  : list (Z * nat) :=
  match x with
  | Some k => if owned_id walletIds x then bump k m else m
  | None => m
  end.

(** The body of the [forEach]. *)
Definition tally (walletIds : list Z) (m : list (Z * nat)) (bounty : Bounty)
  : list (Z * nat) :=
  bump_if walletIds (hunterWalletId bounty)
    (bump_if walletIds (ownerWalletId bounty) m).

(** Get wallet associations with bounties (answered with status 200). *)
Definition getWalletAssociations (user : Z) (w : World) : list (Z * nat) :=
  let walletIds := map wallet_id (WalletController.wallets_of user (wallets w)) in
  let bountyAssociations :=
    filter (fun b => among walletIds (ownerWalletId b)
                     || among walletIds (hunterWalletId b)) (bounties w) in
  fold_left (tally walletIds) bountyAssociations [].

(** *** Private keys as text *)

(** [/[0-9a-fA-F]/] *)
Definition is_hex (c : Ascii.ascii) : bool :=
  let n := Ascii.nat_of_ascii c in
  ((48 <=? n) && (n <=? 57) || (65 <=? n) && (n <=? 70)
   || (97 <=? n) && (n <=? 102))%nat.

(** [s.replace(/[^...]/g, '')] for a class of characters *)
Fixpoint keep (allowed : Ascii.ascii -> bool) (s : string) : string :=
  match s with
  | EmptyString => EmptyString
  | String c rest =>
      if allowed c then String c (keep allowed rest) else keep allowed rest
  end.

(** [s.substring(0, n)] *)
Fixpoint first_chars (n : nat) (s : string) : string :=
  match n, s with
  | O, _ => EmptyString
  | S _, EmptyString => EmptyString
  | S k, String c rest => String c (first_chars k rest)
  end.

(** [s.substring(n)] *)
Fixpoint drop_chars (n : nat) (s : string) : string :=
  match n, s with
  | O, _ => s
  | S _, EmptyString => EmptyString
  | S k, String _ rest => drop_chars k rest
  end.

Fixpoint zeros (n : nat) : string :=
  match n with
  | O => EmptyString
  | S k => String "0"%char (zeros k)
  end.

(** [s.padStart(n, '0')] *)
Definition padStart (n : nat) (s : string) : string :=
  zeros (n - String.length s) +++ s.

(** What [decryptPrivateKey] does to the deciphered text. *)
Definition normalize_decrypted (decrypted : string) : string :=
  let d1 := if String.prefix "0x" decrypted then drop_chars 2 decrypted
            else decrypted in
  let d2 := keep is_hex d1 in
  let d3 := if (64 <? String.length d2)%nat then first_chars 64 d2
            else if (String.length d2 <? 64)%nat then padStart 64 d2
            else d2 in
  "0x" +++ d3.

(** [/[0-9a-fA-Fx]/] *)
Definition is_hex_or_x (c : Ascii.ascii) : bool :=
  is_hex c || Ascii.eqb c "x"%char.

(** What [initializeWalletRadius] does to [wallet.privateKey]. *)
Definition sanitize_privateKey (key : string) : string :=
  let k1 := if String.prefix "0x" key then key else "0x" +++ key in
  let k2 := keep is_hex_or_x k1 in
  if (66 <? String.length k2)%nat then first_chars 66 k2
  else if (String.length k2 <? 66)%nat && (2 <? String.length k2)%nat
  then "0x" +++ padStart 64 (drop_chars 2 k2)
  else k2.

End WalletStore.

(** ** The rest of the bounty model and controller: listings *)
Module BountyQueries.

(** Get all open (unclaimed) bounties; the rows alone, without the
    included owner and wallet records. *)
Definition getOpenBounties : M (list Bounty) :=
  fun w => (Ok (filter (fun b => Status_eqb (status b) OPEN) (bounties w)), w).

(** [NOT: { status: { in: ['COMPLETED', 'CANCELLED'] } }] *)
Definition active (b : Bounty) : bool :=
  negb (Status_eqb (status b) COMPLETED || Status_eqb (status b) CANCELLED).

Section Ordered.
(** [orderBy: { createdAt: 'desc' }] and [orderBy: { updatedAt: 'desc' }]:
    the timestamps are not part of the rows here, so the two orders are
    taken from outside. *)
Variable byCreatedAt byUpdatedAt : list Bounty -> list Bounty.

(** Get bounties associated with a user: [(posted, claimed)]. *)
Definition getUserBounties (user : Z) : M (list Bounty * list Bounty) :=
  fun w =>
    let posted :=
      byCreatedAt (filter (fun b => createdBy b =? user) (bounties w)) in
    let claimed :=
      byUpdatedAt
        (filter (fun b => same (claimedBy b) (Some user) && active b)
           (bounties w)) in
    (Ok (posted, claimed), w).

(** List bounties associated with the logged-in user. *)
Definition listUserBounties (user : Z) (w : World)
  : Z * (list Bounty * list Bounty) :=
  match getUserBounties user w with
  | (Ok lists, _) => (200, lists)
  | (Throw _, _) => (500, ([], []))
  end.
End Ordered.

(** List all open bounties (publicly accessible). *)
Definition listOpenBounties (w : World) : Z * list Bounty :=
  match getOpenBounties w with
  | (Ok l, _) => (200, l)
  | (Throw _, _) => (500, [])
  end.

End BountyQueries.

(** ** The pages that keep a copy of what the server answered *)
Module Pages.

(** [ClaimBounty]: [setBounties(prev => prev.filter(b => b.id !== bountyId))]
    after a claim that succeeded. *)
Definition after_claim (bountyId : Z) (prev : list Bounty) : list Bounty :=
  filter (fun b => negb (id b =? bountyId)) prev.

(** A wallet as the wallet endpoints answer it. *)
Record WalletView : Type := mkWalletView {
  view_id : Z;
  view_walletName : string;
  view_publicKey : string;
  view_isDefault : bool
}.

Definition view (x : Wallet) : WalletView :=
  mkWalletView (wallet_id x) (walletName x) (publicKey x) (isDefault x).

(** [handleSetDefault]: the request it sends,
    [updateWallet(id, { ...wallet, isDefault: true })] *)
Definition set_default_request (v : WalletView) : WalletStore.UpdateBody :=
  WalletStore.mkUpdateBody (Some (view_walletName v)) (Some true).

(** [setWallets(wallets.map(w => ({ ...w, isDefault: w.id === id })))] *)
Definition after_set_default (i : Z) (views : list WalletView)
  : list WalletView :=
  map (fun v => mkWalletView (view_id v) (view_walletName v)
                  (view_publicKey v) (view_id v =? i)) views.

(** [handleDeleteWallet]: [setWallets(wallets.filter(w => w.id !== id))] *)
Definition after_delete (i : Z) (views : list WalletView) : list WalletView :=
  filter (fun v => negb (view_id v =? i)) views.

End Pages.

(** ** Every call the backend serves *)

Inductive Call : Type :=
| bounty_call (o : Op)
| create_wallet (out : Outside) (user : option Z)
    (req : WalletController.CreateBody)
| update_wallet_call (user i : Z) (req : WalletStore.UpdateBody)
| delete_wallet_call (choice : nat) (user i : Z) (force : WalletController.Query).

Definition serve (c : Call) (w : World) : Response * World :=
  match c with
  | bounty_call o => step o w
  | create_wallet out user req => WalletController.createWallet out user req w
  | update_wallet_call user i req => WalletStore.updateWallet user i req w
  | delete_wallet_call choice user i force =>
      WalletController.deleteWallet choice user i force w
  end.

(** Calls served one after the other. *)
Definition serve_all (calls : list Call) (w : World) : World :=
  fold_left (fun w' c => snd (serve c w')) calls w.

(** Primary keys are unique. *)
Definition unique_keys (w : World) : Prop :=
  NoDup (map id (bounties w)) /\ NoDup (map wallet_id (wallets w)).

(** The default wallets of a user. *)
Definition defaults_of (user : Z) (rows : list Wallet) : list Wallet :=
  filter (fun x => (userId x =? user) && isDefault x) rows.

Definition one_default_at_most (w : World) : Prop :=
  forall user, (List.length (defaults_of user (wallets w)) <= 1)%nat.

(** The query that counts the wallets of a user answers. *)
Definition counting (c : Call) : Prop :=
  match c with
  | create_wallet out _ _ => wallet_count_rejects out = false
  | _ => True
  end.



(** The base units [createEscrow] and [releaseEscrow] send for an
    amount. *)
Definition units (amt : double) : result Z :=
  BigInt (Math_floor (mul (parseFloat amt) ten18)).

(** The funding transfer of a bounty is in the log, with the base units
    of its amount; until the bounty is completed its hash is the
    escrowId. *)
Definition backed (w : World) (b : Bounty) : Prop :=
  exists to n tx,
    In (Sent to n tx) (events w) /\
    units (amount b) = Ok n /\
    (status b <> COMPLETED -> tx = escrowId b).

(** ** Repository webhooks
    ([backend/controllers/webhookController.js] and the webhook service
    required as [../services/webhookService])

    The webhook code reads the user table for the GitHub token and keeps a
    table of its own.  What GitHub and the random generator answer may
    differ from one request to the next: the answers are indexed by the
    number of requests made so far. *)
Module Webhooks.

Record Account : Type := mkAccount {
  account_id : Z;
  token : option string
}.

Record Hook : Type := mkHook {
  hook_id : Z;
  hook_userId : Z;
  hook_repoOwner : string;
  hook_repoName : string;
  webhookId : string;
  webhookSecret : string
}.

Record Store : Type := mkStore {
  accounts : list Account;
  hooks : list Hook;
  (** the last value of the autoincrement key of the webhook table *)
  serial : Z;
  (** the number of requests made to the outside so far *)
  asked : nat
}.

Definition set_hooks (hs : list Hook) (s : Store) : Store :=
  mkStore (accounts s) hs (serial s) (asked s).

(** The answer to [axios.get] of one hook. *)
Inductive Got : Type :=
| got (url : string) (active : bool)
| got_404 (message : string)
| got_error (message : string).

Record GitHub : Type := mkGitHub {
  (** [GET /user] answered *)
  user_ok : nat -> bool;
  (** [GET /user/repos], giving [(repo.owner.login, repo.name)] *)
  user_repos : nat -> result (list (string * string));
  (** [POST /repos/:owner/:repo/hooks], giving [response.data.id.toString()] *)
  hook_posted : nat -> result string;
  hook_got : nat -> Got;
  hook_patched : nat -> result unit;
  hook_deleted : nat -> result unit;
  (** [crypto.randomBytes(32).toString('hex')] *)
  randomBytes : nat -> string;
  (** [process.env.API_BASE_URL || process.env.BACKEND_URL || ...] *)
  apiBaseUrl : string
}.

Definition H (A : Type) : Type := Store -> result A * Store.

Definition unit_ {A} (a : A) : H A := fun s => (Ok a, s).
Definition fail {A} (message : string) : H A := fun s => (Throw message, s).

Definition and_then {A B} (c : H A) (k : A -> H B) : H B :=
  fun s =>
    match c s with
    | (Ok a, s') => k a s'
    | (Throw m, s') => (Throw m, s')
    end.

Notation "x <~ c ;; k" := (and_then c (fun x => k))
  (at level 61, c at next level, right associativity).
Notation "c ;;~ k" := (and_then c (fun _ => k))
  (at level 61, right associativity).

(** One request to the outside, answered. *)
Definition ask {A} (answer : nat -> A) : H A :=
  fun s => (Ok (answer (asked s)),
            mkStore (accounts s) (hooks s) (serial s) (S (asked s))).

(** One request to the outside, answered or rejected. *)
Definition request {A} (answer : nat -> result A) : H A :=
  fun s => (answer (asked s),
            mkStore (accounts s) (hooks s) (serial s) (S (asked s))).

Fixpoint find_account (i : Z) (rows : list Account) : option Account :=
  match rows with
  | [] => None
  | a :: rest => if account_id a =? i then Some a else find_account i rest
  end.

Definition names (repoOwner repoName : string) (h : Hook) : bool :=
  String.eqb (hook_repoOwner h) repoOwner && String.eqb (hook_repoName h) repoName.

(** [findUnique({ where: { repoOwner_repoName: { repoOwner, repoName } } })],
    and [existingWebhooks.find(...)] on a list read before. *)
Fixpoint find_repo (repoOwner repoName : string) (rows : list Hook)
  : option Hook :=
  match rows with
  | [] => None
  | h :: rest =>
      if names repoOwner repoName h then Some h
      else find_repo repoOwner repoName rest
  end.

Fixpoint find_hook (i : Z) (rows : list Hook) : option Hook :=
  match rows with
  | [] => None
  | h :: rest => if hook_id h =? i then Some h else find_hook i rest
  end.

Fixpoint update_hook (i : Z) (f : Hook -> Hook) (rows : list Hook) : list Hook :=
  match rows with
  | [] => []
  | h :: rest => if hook_id h =? i then f h :: rest else h :: update_hook i f rest
  end.

Fixpoint remove_hook (i : Z) (rows : list Hook) : list Hook :=
  match rows with
  | [] => []
  | h :: rest => if hook_id h =? i then rest else h :: remove_hook i rest
  end.

(** [prisma.repositoryWebhook.create]; the table has one row per
    repository at most. *)
Definition prisma_create (user : Z) (repoOwner repoName wid secret : string)
  : H Hook :=
  fun s =>
    match find_repo repoOwner repoName (hooks s) with
    | Some _ =>
        (Throw "Unique constraint failed on the fields: (`repoOwner`,`repoName`)", s)
    | None =>
        let h := mkHook (serial s + 1) user repoOwner repoName wid secret in
        (Ok h, mkStore (accounts s) (hooks s ++ [h]) (serial s + 1) (asked s))
    end.

(** [prisma.repositoryWebhook.update({ where: { id }, data: { webhookSecret } })] *)
Definition with_secret (secret : string) (h : Hook) : Hook :=
  mkHook (hook_id h) (hook_userId h) (hook_repoOwner h) (hook_repoName h)
    (webhookId h) secret.

Definition prisma_update (i : Z) (secret : string) : H Hook :=
  fun s =>
    match find_hook i (hooks s) with
    | Some h => (Ok (with_secret secret h),
                 set_hooks (update_hook i (with_secret secret) (hooks s)) s)
    | None => (Throw "Record to update not found.", s)
    end.

Definition prisma_delete (i : Z) : H unit :=
  fun s =>
    match find_hook i (hooks s) with
    | Some _ => (Ok tt, set_hooks (remove_hook i (hooks s)) s)
    | None => (Throw "Record to delete does not exist.", s)
    end.

(** Validate GitHub token by making a test API call. *)
Definition validateGitHubToken (gh : GitHub) (tok : option string) : H bool :=
  if negb (WalletController.given tok) then unit_ false
  else ask (user_ok gh).

(** Create a webhook for a repository. *)
Definition createRepositoryWebhook (gh : GitHub) (user : Account)
    (repoOwner repoName : string) : H Hook :=
  if negb (WalletController.given (token user))
  then fail "GitHub token is missing, cannot create webhook"
  else
    isTokenValid <~ validateGitHubToken gh (token user) ;;
    if negb isTokenValid
    then fail "GitHub token is invalid or has insufficient permissions"
    else
      existingWebhook <~ (fun s => (Ok (find_repo repoOwner repoName (hooks s)), s)) ;;
      match existingWebhook with
      | Some h => unit_ h
      | None =>
          webhookSecret <~ ask (randomBytes gh) ;;
          wid <~ request (hook_posted gh) ;;
          prisma_create (account_id user) repoOwner repoName wid webhookSecret
      end.

(** Update an existing webhook for a repository. *)
Definition updateRepositoryWebhook (gh : GitHub) (webhook : Hook) : H Hook :=
  webhookSecret <~ ask (randomBytes gh) ;;
  request (hook_patched gh) ;;~
  prisma_update (hook_id webhook) webhookSecret.

Definition expectedUrl (gh : GitHub) (webhook : Hook) : string :=
  apiBaseUrl gh +++ "/webhooks/github/" +++ hook_repoOwner webhook +++ "/"
    +++ hook_repoName webhook.

(** Check if a webhook needs to be updated and update it if necessary.
    The update is returned without [await]: what it throws does not reach
    the [catch] of this function. *)
Definition checkAndUpdateWebhook (gh : GitHub) (user : Account) (webhook : Hook)
  : H Hook :=
  response <~ ask (hook_got gh) ;;
  match response with
  | got currentUrl active =>
      if negb (String.eqb currentUrl (expectedUrl gh webhook)) || negb active
      then updateRepositoryWebhook gh webhook
      else unit_ webhook
  | got_404 _ =>
      prisma_delete (hook_id webhook) ;;~
      createRepositoryWebhook gh user (hook_repoOwner webhook)
        (hook_repoName webhook)
  | got_error m => fail m
  end.

(** [getUserRepositories] of the user model: the repositories, or none
    when anything fails. *)
Definition getUserRepositories (gh : GitHub) (userId : Z)
  : H (list (string * string)) :=
  fun s =>
    match find_account userId (accounts s) with
    | None => (Ok [], s)
    | Some user =>
        if negb (WalletController.given (token user)) then (Ok [], s)
        else
          match request (user_repos gh) s with
          | (Ok l, s') => (Ok l, s')
          | (Throw _, s') => (Ok [], s')
          end
    end.

Record Results : Type := mkResults {
  created : nat;
  updated : nat;
  failed : nat
}.

(** The body of the loop of [syncUserWebhooks], for one repository. *)
Definition sync_one (gh : GitHub) (user : Account) (existingWebhooks : list Hook)
    (results : Results) (repo : string * string) : Store -> Results * Store :=
  fun s =>
    match find_repo (fst repo) (snd repo) existingWebhooks with
    | Some existingWebhook =>
        match checkAndUpdateWebhook gh user existingWebhook s with
        | (Ok _, s') =>
            (mkResults (created results) (S (updated results)) (failed results), s')
        | (Throw _, s') =>
            (mkResults (created results) (updated results) (S (failed results)), s')
        end
    | None =>
        match createRepositoryWebhook gh user (fst repo) (snd repo) s with
        | (Ok _, s') =>
            (mkResults (S (created results)) (updated results) (failed results), s')
        | (Throw _, s') =>
            (mkResults (created results) (updated results) (S (failed results)), s')
        end
    end.

Fixpoint sync_loop (gh : GitHub) (user : Account) (existingWebhooks : list Hook)
    (repositories : list (string * string)) (results : Results)
  : Store -> Results * Store :=
  fun s =>
    match repositories with
    | [] => (results, s)
    | repo :: rest =>
        let '(results', s') := sync_one gh user existingWebhooks results repo s in
        sync_loop gh user existingWebhooks rest results' s'
    end.

(** Sync webhooks for the authenticated user: the status, and the
    results when the status is 200. *)
Definition syncUserWebhooks (gh : GitHub) (userId : Z)
  : Store -> (Z * option Results) * Store :=
  fun s =>
    match find_account userId (accounts s) with
    | None => ((401, None), s)
    | Some user =>
        if negb (WalletController.given (token user)) then ((401, None), s)
        else
          match getUserRepositories gh userId s with
          | (Throw _, s1) => ((500, None), s1)
          | (Ok repositories, s1) =>
              let existingWebhooks :=
                filter (fun h => hook_userId h =? userId) (hooks s1) in
              let '(results, s2) :=
                sync_loop gh user existingWebhooks repositories
                  (mkResults 0 0 0) s1 in
              ((200, Some results), s2)
          end
    end.

(** Create a webhook for a specific repository: the status, and the
    webhook answered. *)
Definition createWebhook (gh : GitHub) (userId : Z) (owner repo : string)
  : Store -> (Z * option Hook) * Store :=
  fun s =>
    match find_account userId (accounts s) with
    | None => ((401, None), s)
    | Some user =>
        if negb (WalletController.given (token user)) then ((401, None), s)
        else
          match find_repo owner repo (hooks s) with
          | Some existingWebhook =>
              match checkAndUpdateWebhook gh user existingWebhook s with
              | (Ok updatedWebhook, s') => ((200, Some updatedWebhook), s')
              | (Throw _, s') => ((500, None), s')
              end
          | None =>
              match createRepositoryWebhook gh user owner repo s with
              | (Ok webhook, s') => ((201, Some webhook), s')
              | (Throw _, s') => ((500, None), s')
              end
          end
    end.

(** Delete a webhook: the status. *)
Definition deleteWebhook (gh : GitHub) (userId i : Z) : Store -> Z * Store :=
  fun s =>
    match find_hook i (hooks s) with
    | None => (404, s)
    | Some webhook =>
        if negb (hook_userId webhook =? userId) then (403, s)
        else
          match find_account userId (accounts s) with
          | None => (401, s)
          | Some user =>
              if negb (WalletController.given (token user)) then (401, s)
              else
                (* what [axios.delete] answers is logged, no more *)
                let '(_, s1) := request (hook_deleted gh) s in
                match prisma_delete i s1 with
                | (Ok _, s2) => (200, s2)
                | (Throw _, s2) => (500, s2)
                end
          end
    end.

(** Get all webhooks for the authenticated user: id and repository. *)
Definition getUserWebhooks (userId : Z) (s : Store) : list (Z * string) :=
  map (fun h => (hook_id h, hook_repoOwner h +++ "/" +++ hook_repoName h))
    (filter (fun h => hook_userId h =? userId) (hooks s)).

End Webhooks.

(** ** More vocabulary *)

(** A wallet after the defaults of a user have been cleared. *)
Definition cleared (user : Z) (x : Wallet) : Wallet :=
  if (userId x =? user) && isDefault x then WalletStore.unset_default x else x.

(** The wallet table after wallet [i], which was [x], has been deleted
    for its owner. *)
Definition wallets_after_delete (choice : nat) (user i : Z) (x : Wallet)
    (rows : list Wallet) : list Wallet :=
  let rest := WalletController.delete_wallet i rows in
  if isDefault x
  then match WalletController.findFirst choice
               (WalletController.wallets_of user rest) with
       | Some another =>
           update_wallet (wallet_id another) WalletController.make_default rest
       | None => rest
       end
  else rest.

(** The user in whose name a call acts on the wallet table. *)
Definition acting (c : Call) : option Z :=
  match c with
  | bounty_call _ => None
  | create_wallet _ user _ => user
  | update_wallet_call user _ _ => Some user
  | delete_wallet_call _ user _ _ => Some user
  end.

(** User 10 with two wallets, the first the default. *)
Definition two_wallets : World :=
  mkWorld []
    [lister_wallet; hunter_wallet; mkWallet 4 10 "spare" "0xddd4" "c4" "i4" false]
    [10; 20; 30] [] [].

(** User 10 with three wallets, the first the default. *)
Definition three_wallets : World :=
  mkWorld []
    [lister_wallet; hunter_wallet;
     mkWallet 4 10 "spare" "0xddd4" "c4" "i4" false;
     mkWallet 5 10 "extra" "0xeee5" "c5" "i5" false]
    [10; 20; 30] [] [].

(** A bounty names wallet [k] in both roles. *)
Definition both_roles (k : Z) (b : Bounty) : bool :=
  same (ownerWalletId b) (Some k) && same (hunterWalletId b) (Some k).

(** Every character of a string is of a class. *)
Fixpoint all_chars (allowed : Ascii.ascii -> bool) (s : string) : bool :=
  match s with
  | EmptyString => true
  | String c rest => allowed c && all_chars allowed rest
  end.

(** A private key as text: 0x and 64 hexadecimal digits. *)
Definition key_text (s : string) : Prop :=
  exists digits,
    s = "0x" +++ digits /\
    String.length digits = 64%nat /\
    all_chars WalletStore.is_hex digits = true.

(** What a later state [b'] of the row [b] has kept of its funding: the
    amount, and the escrowId unless the row has been completed. *)
Definition funding_kept (b b' : Bounty) : Prop :=
  amount b' = amount b /\
  (escrowId b' = escrowId b \/ status b' = COMPLETED).


(** The count an associations answer holds for wallet [k]; an absent
    key counts as 0. *)
Definition count_of (k : Z) (m : list (Z * nat)) : nat :=
  match WalletStore.entry k m with
  | Some n => n
  | None => 0%nat
  end.

(** How many repositories a sync has gone through. *)
Definition total (r : Webhooks.Results) : nat :=
  (Webhooks.created r + Webhooks.updated r + Webhooks.failed r)%nat.

(** GitHub answering every request: the token is valid, the user has the
    repositories octo/repo and octo/tool, a hook that is looked up is
    reported inactive, and deleting a hook fails. *)
Definition github_ok : Webhooks.GitHub :=
  Webhooks.mkGitHub (fun _ => true)
    (fun _ => Ok [("octo"%string, "repo"%string); ("octo"%string, "tool"%string)])
    (fun n => Ok ("hook" +++ show (Z.of_nat n)))
    (fun _ => Webhooks.got "https://old.example/webhooks" false)
    (fun _ => Ok tt)
    (fun _ => Throw "Not Found")
    (fun n => "secret" +++ show (Z.of_nat n))
    "https://api.example".

(** Users 10 and 20 with tokens; user 10 has a webhook on octo/repo. *)
Definition hook_store : Webhooks.Store :=
  Webhooks.mkStore
    [Webhooks.mkAccount 10 (Some "t10"%string);
     Webhooks.mkAccount 20 (Some "t20"%string)]
    [Webhooks.mkHook 1 10 "octo" "repo" "55" "s0"] 1 0.

(** * Properties *)

(** ** Tables *)

Lemma Status_eqb_eq (a b : Status) : Status_eqb a b = true <-> a = b.
Proof. destruct a, b; simpl; split; congruence. Qed.

Lemma Status_eqb_neq (a b : Status) : Status_eqb a b = false <-> a <> b.
Proof. destruct a, b; simpl; split; congruence. Qed.

Lemma find_bounty_id (i : Z) (rows : list Bounty) (b : Bounty) :
  find_bounty i rows = Some b -> id b = i.
Proof.
  induction rows as [|x rest IH]; simpl; [discriminate|].
  destruct (id x =? i) eqn:E; [|exact IH].
  intros [= <-]. now apply Z.eqb_eq.
Qed.

Lemma find_bounty_In (i : Z) (rows : list Bounty) (b : Bounty) :
  find_bounty i rows = Some b -> In b rows.
Proof.
  induction rows as [|x rest IH]; simpl; [discriminate|].
  destruct (id x =? i); [intros [= <-]; now left | intro H; right; auto].
Qed.

Lemma find_bounty_app (i : Z) (rows : list Bounty) (b : Bounty) :
  find_bounty i (rows ++ [b]) =
  match find_bounty i rows with
  | Some x => Some x
  | None => if id b =? i then Some b else None
  end.
Proof.
  induction rows as [|x rest IH]; simpl; [reflexivity|].
  destruct (id x =? i); [reflexivity | exact IH].
Qed.

Section Update.
Variable f : Bounty -> Bounty.
Hypothesis f_id : forall b, id (f b) = id b.

Lemma find_update_same (i : Z) (rows : list Bounty) :
  find_bounty i (update_bounty i f rows) = option_map f (find_bounty i rows).
Proof.
  induction rows as [|x rest IH]; simpl; [reflexivity|].
  destruct (id x =? i) eqn:E; simpl.
  - now rewrite f_id, E.
  - now rewrite E.
Qed.

Lemma find_update_other (i j : Z) (rows : list Bounty) :
  j <> i ->
  find_bounty j (update_bounty i f rows) = find_bounty j rows.
Proof.
  intro Hne.
  induction rows as [|x rest IH]; simpl; [reflexivity|].
  destruct (id x =? i) eqn:E; simpl.
  - rewrite f_id. apply Z.eqb_eq in E.
    destruct (id x =? j) eqn:E'; [apply Z.eqb_eq in E'; lia | reflexivity].
  - destruct (id x =? j); [reflexivity | exact IH].
Qed.

Lemma In_update (i : Z) (rows : list Bounty) (b' : Bounty) :
  In b' (update_bounty i f rows) ->
  In b' rows \/ exists b, find_bounty i rows = Some b /\ b' = f b.
Proof.
  induction rows as [|x rest IH]; simpl; [tauto|].
  destruct (id x =? i) eqn:E; simpl.
  - intros [<- | H]; [right; eauto | left; now right].
  - intros [<- | H]; [left; now left|].
    destruct (IH H) as [H' | H']; [left; now right | now right].
Qed.
End Update.

Lemma max_id_bound (rows : list Bounty) (b : Bounty) :
  In b rows -> id b <= fold_right Z.max 0 (map id rows).
Proof.
  induction rows as [|x rest IH]; simpl; [tauto|].
  intros [<- | H]; [lia | specialize (IH H); lia].
Qed.

Lemma next_id_fresh (rows : list Bounty) :
  find_bounty (next_id (map id rows)) rows = None.
Proof.
  destruct (find_bounty (next_id (map id rows)) rows) as [b|] eqn:E;
    [|reflexivity].
  pose proof (find_bounty_id _ _ _ E) as Hid.
  pose proof (max_id_bound _ _ (find_bounty_In _ _ _ E)) as Hle.
  unfold next_id in Hid. lia.
Qed.

(** ** Calls that leave the tables alone *)

Lemma quiet_ret {A} (a : A) : quiet (ret a).
Proof. intro w; simpl; auto. Qed.

Lemma quiet_throw {A} (m : string) : quiet (@throw A m).
Proof. intro w; simpl; auto. Qed.

Lemma quiet_lift {A} (r : result A) : quiet (lift r).
Proof. intro w; simpl; auto. Qed.

Lemma quiet_emit (e : Event) : quiet (emit e).
Proof. intro w; simpl; auto. Qed.

Lemma quiet_findUnique (i : option Z) : quiet (prisma_wallet_findUnique i).
Proof. intro w; unfold prisma_wallet_findUnique; destruct i; simpl; auto. Qed.

Lemma quiet_bind {A B} (c : M A) (k : A -> M B) :
  quiet c -> (forall a, quiet (k a)) -> quiet (bind c k).
Proof.
  intros Hc Hk w. unfold bind.
  specialize (Hc w). destruct (c w) as [[a|m] w1]; simpl in *.
  - destruct (Hk a w1) as (H1 & H2 & H3). destruct Hc as (G1 & G2 & G3).
    rewrite H1, H2, H3. auto.
  - exact Hc.
Qed.

Lemma quiet_catch {A} (c : M A) (h : string -> M A) :
  quiet c -> (forall m, quiet (h m)) -> quiet (catch c h).
Proof.
  intros Hc Hh w. unfold catch.
  specialize (Hc w). destruct (c w) as [[a|m] w1]; simpl in *.
  - exact Hc.
  - destruct (Hh m w1) as (H1 & H2 & H3). destruct Hc as (G1 & G2 & G3).
    rewrite H1, H2, H3. auto.
Qed.

Create HintDb quiet.

#[local] Hint Resolve quiet_ret quiet_throw quiet_lift quiet_emit
  quiet_findUnique : quiet.

Ltac quiet_step :=
  first
    [ apply quiet_bind; [|intro]
    | apply quiet_catch; [|intro]
    | solve [auto with quiet]
    | match goal with
      | |- quiet (if ?c then _ else _) => destruct c
      | |- quiet (match ?x with _ => _ end) => destruct x
      end ].

Lemma quiet_send (out : Outside) (to : string) (n : Z) : quiet (Radius.send out to n).
Proof. unfold Radius.send. repeat quiet_step. Qed.

Lemma quiet_initializeEscrowRadius (out : Outside) :
  quiet (Radius.initializeEscrowRadius out).
Proof. unfold Radius.initializeEscrowRadius. repeat quiet_step. Qed.

Lemma quiet_getWalletWithPrivateKey (out : Outside) (i u : Z) :
  quiet (Radius.getWalletWithPrivateKey out i u).
Proof. unfold Radius.getWalletWithPrivateKey. repeat quiet_step. Qed.

Lemma quiet_initializeWalletRadius (out : Outside) (i u : Z) :
  quiet (Radius.initializeWalletRadius out i u).
Proof.
  intro w. unfold Radius.initializeWalletRadius.
  destruct (existsb _ _); [simpl; auto|].
  destruct (negb _); [simpl; auto|].
  revert w. apply quiet_catch; [|intro; apply quiet_throw].
  apply quiet_bind; [apply quiet_getWalletWithPrivateKey|intro].
  apply quiet_bind; [apply quiet_lift|intro].
  intro w; simpl; auto.
Qed.

#[local] Hint Resolve quiet_send quiet_initializeEscrowRadius
  quiet_initializeWalletRadius : quiet.

Lemma quiet_createEscrow (out : Outside) (u : Z) (amt : double) (i : Z) :
  quiet (Radius.createEscrow out u amt i).
Proof. unfold Radius.createEscrow. repeat quiet_step. Qed.

Lemma quiet_releaseEscrow (out : Outside) (e : string) (t : option Z)
    (amt : double) (h : option Z) :
  quiet (Radius.releaseEscrow out e t amt h).
Proof. unfold Radius.releaseEscrow. repeat quiet_step. Qed.

Lemma quiet_refundEscrow (out : Outside) (e : string) (t : Z)
    (amt : double) (h : option Z) :
  quiet (Radius.refundEscrow out e t amt h).
Proof. unfold Radius.refundEscrow. repeat quiet_step. Qed.

(** ** What each handler does, case by case *)

Lemma quiet_at {A} (c : M A) (w w1 : World) (r : result A) :
  quiet c -> c w = (r, w1) ->
  bounties w1 = bounties w /\ wallets w1 = wallets w /\ users w1 = users w.
Proof. intros Hq E. specialize (Hq w). now rewrite E in Hq. Qed.

Lemma claimBounty_eq (user i : Z) (wid : option Z) (w : World) :
  BountyController.claimBounty user i wid w =
  if negb (truthy wid)
  then (mkResponse 400 (error_body "Wallet ID is required" None), w)
  else
    match find_bounty i (bounties w) with
    | None => (mkResponse 404 (error_body "Bounty not found" None), w)
    | Some b =>
        if negb (Status_eqb (status b) OPEN)
        then (InvalidTransition "Bounty is not open" (status b), w)
        else (mkResponse 200 (bounty_body (BountyModel.claimed_data user wid b)),
              set_bounties
                (update_bounty i (BountyModel.claimed_data user wid) (bounties w)) w)
    end.
Proof.
  unfold BountyController.claimBounty, BountyController.claim_check,
    BountyController.claim_write, respond, bind.
  destruct (negb (truthy wid)); [reflexivity|].
  unfold BountyModel.getBountyById.
  destruct (find_bounty i (bounties w)) as [b|] eqn:E; [|reflexivity].
  destruct (negb (Status_eqb (status b) OPEN)); [reflexivity|].
  unfold ret, BountyModel.markBountyClaimed, prisma_bounty_update.
  now rewrite E.
Qed.

Lemma completeBounty_eq (out : Outside) (user i : Z) (w : World) :
  BountyController.completeBounty out user i w =
  match find_bounty i (bounties w) with
  | None => (mkResponse 404 (error_body "Bounty not found" None), w)
  | Some b =>
      if negb (createdBy b =? user)
      then (Forbidden "Only the bounty owner can mark it as completed", w)
      else if negb (Status_eqb (status b) CLAIMED)
      then (InvalidTransition "Bounty cannot be completed" (status b), w)
      else
        match Radius.releaseEscrow out (escrowId b) (claimedBy b) (amount b)
                (hunterWalletId b) w with
        | (Throw m, w1) =>
            (mkResponse 500 (error_body "Failed to complete bounty" (Some m)), w1)
        | (Ok tx, w1) =>
            (mkResponse 200
               (bounty_transaction_body (BountyModel.completed_data tx b) tx),
             set_bounties
               (update_bounty i (BountyModel.completed_data tx) (bounties w)) w1)
        end
  end.
Proof.
  unfold BountyController.completeBounty, respond, bind at 1.
  unfold BountyModel.getBountyById.
  destruct (find_bounty i (bounties w)) as [b|] eqn:E; [|reflexivity].
  destruct (negb (createdBy b =? user)); [reflexivity|].
  destruct (negb (Status_eqb (status b) CLAIMED)); [reflexivity|].
  unfold bind at 1.
  destruct (Radius.releaseEscrow out _ _ _ _ w) as [[tx|m] w1] eqn:R;
    [|reflexivity].
  destruct (quiet_at _ _ _ _ (quiet_releaseEscrow out _ _ _ _) R) as (Hb & _).
  unfold bind, BountyModel.markBountyCompleted, prisma_bounty_update, ret.
  now rewrite Hb, E.
Qed.

Lemma cancelBounty_eq (out : Outside) (user i : Z) (refund : option Z)
    (w : World) :
  BountyController.cancelBounty out user i refund w =
  match find_bounty i (bounties w) with
  | None => (mkResponse 404 (error_body "Bounty not found" None), w)
  | Some b =>
      if negb (createdBy b =? user)
      then (Forbidden "Only the bounty owner can cancel it", w)
      else if negb (Status_eqb (status b) OPEN)
              && negb (Status_eqb (status b) CLAIMED)
      then (InvalidTransition "Bounty cannot be cancelled" (status b), w)
      else
        match Radius.refundEscrow out (escrowId b) user (amount b)
                (walletIdToUse refund b) w with
        | (Throw m, w1) =>
            (mkResponse 500 (error_body "Failed to cancel bounty" (Some m)), w1)
        | (Ok tx, w1) =>
            (mkResponse 200
               (bounty_transaction_body (BountyModel.cancelled_data b) tx),
             set_bounties
               (update_bounty i BountyModel.cancelled_data (bounties w)) w1)
        end
  end.
Proof.
  unfold BountyController.cancelBounty, respond, bind at 1.
  unfold BountyModel.getBountyById.
  destruct (find_bounty i (bounties w)) as [b|] eqn:E; [|reflexivity].
  destruct (negb (createdBy b =? user)); [reflexivity|].
  destruct (negb (Status_eqb (status b) OPEN)
            && negb (Status_eqb (status b) CLAIMED)); [reflexivity|].
  unfold bind at 1. fold (walletIdToUse refund b).
  destruct (Radius.refundEscrow out _ _ _ _ w) as [[tx|m] w1] eqn:R;
    [|reflexivity].
  destruct (quiet_at _ _ _ _ (quiet_refundEscrow out _ _ _ _) R) as (Hb & _).
  unfold bind, BountyModel.cancelBounty, prisma_bounty_update, ret.
  now rewrite Hb, E.
Qed.

Lemma createBounty_eq (out : Outside) (user : Z)
    (req : BountyController.CreateBody) (w : World) :
  BountyController.createBounty out user req w =
  if negb (existsb (Z.eqb user) (users w))
  then (mkResponse 401 (error_body "User not found" None), w)
  else
    match BountyController.walletId req with
    | None => (mkResponse 400 (error_body "Wallet ID is required" None), w)
    | Some wid =>
      if wid =? 0
      then (mkResponse 400 (error_body "Wallet ID is required" None), w)
      else
        match github_issue_state out with
        | Throw m => (mkResponse 400 (error_body "GitHub API error" (Some m)), w)
        | Ok state =>
          if match state with
             | Some s => negb (String.eqb s "open")
             | None => true
             end
          then (mkResponse 400 (error_body "Issue is not open or not found" None), w)
          else
            match Radius.createEscrow out user
                    (BountyController.posted_amount req) wid w with
            | (Throw m, w1) =>
                (mkResponse 400 (error_body "GitHub API error" (Some m)), w1)
            | (Ok escrow, w1) =>
                match bounty_create_rejects out with
                | Some m =>
                    (mkResponse 400 (error_body "GitHub API error" (Some m)), w1)
                | None =>
                    let b := BountyModel.with_id (next_id (map id (bounties w)))
                               (new_bounty user req wid escrow) in
                    (mkResponse 201 (bounty_body b),
                     set_bounties (bounties w ++ [b]) w1)
                end
            end
        end
    end.
Proof.
  unfold BountyController.createBounty, respond.
  destruct (negb (existsb (Z.eqb user) (users w))); [reflexivity|].
  destruct (BountyController.walletId req) as [wid|]; [|reflexivity].
  destruct (wid =? 0); [reflexivity|].
  unfold catch, bind at 1, lift.
  destruct (github_issue_state out) as [state|m]; [|reflexivity].
  match goal with |- context [if ?c then _ else _] => destruct c end;
    [reflexivity|].
  unfold bind at 1.
  destruct (Radius.createEscrow out user _ wid w) as [[escrow|m] w1] eqn:R;
    [|reflexivity].
  destruct (quiet_at _ _ _ _ (quiet_createEscrow out _ _ _) R) as (Hb & _).
  unfold bind, BountyModel.createBounty, ret, new_bounty.
  destruct (bounty_create_rejects out); [reflexivity|]. simpl.
  now rewrite Hb.
Qed.

(** ** One call, seen from one row *)

Lemma run_app (a b : list Op) (w : World) : run (a ++ b) w = run b (run a w).
Proof. unfold run. apply fold_left_app. Qed.

Lemma claimed_data_id (u : Z) (h : option Z) (b : Bounty) :
  id (BountyModel.claimed_data u h b) = id b.
Proof. reflexivity. Qed.

Lemma completed_data_id (tx : string) (b : Bounty) :
  id (BountyModel.completed_data tx b) = id b.
Proof. reflexivity. Qed.

Lemma cancelled_data_id (b : Bounty) : id (BountyModel.cancelled_data b) = id b.
Proof. reflexivity. Qed.

(** An update of row [j] by [f], seen from row [i]. *)
Lemma update_seen (f : Bounty -> Bounty) (i j : Z) (rows : list Bounty)
    (b bj : Bounty) :
  (forall x, id (f x) = id x) ->
  find_bounty i rows = Some b ->
  find_bounty j rows = Some bj ->
  row_step bj (f bj) ->
  exists b', find_bounty i (update_bounty j f rows) = Some b' /\ row_step b b'.
Proof.
  intros Hid Hi Hj Hstep.
  destruct (Z.eq_dec i j) as [->|Hne].
  - rewrite find_update_same, Hj by exact Hid. simpl.
    assert (b = bj) as -> by congruence. eauto.
  - rewrite find_update_other by assumption.
    exists b. split; [assumption | constructor].
Qed.

Lemma step_row (o : Op) (w : World) (i : Z) (b : Bounty) :
  find_bounty i (bounties w) = Some b ->
  exists b', find_bounty i (bounties (snd (step o w))) = Some b' /\ row_step b b'.
Proof.
  intro Hi.
  assert (Hsame : exists b', find_bounty i (bounties w) = Some b' /\ row_step b b')
    by (exists b; split; [assumption | constructor]).
  destruct o as [out user req | user j wid | out user j | out user j refund];
    simpl.
  - rewrite createBounty_eq.
    repeat match goal with
    | |- context [if ?c then _ else _] => destruct c; [exact Hsame|]
    | |- context [match BountyController.walletId req with _ => _ end] =>
        destruct (BountyController.walletId req); [|exact Hsame]
    | |- context [match github_issue_state out with _ => _ end] =>
        destruct (github_issue_state out); [|exact Hsame]
    end.
    destruct (Radius.createEscrow _ _ _ _ _) as [[escrow|m] w1] eqn:R; simpl.
    + destruct (bounty_create_rejects out); simpl;
        [now rewrite (proj1 (quiet_at _ _ _ _ (quiet_createEscrow _ _ _ _) R))|].
      rewrite find_bounty_app, Hi. exists b. split; [reflexivity | constructor].
    + now rewrite (proj1 (quiet_at _ _ _ _ (quiet_createEscrow _ _ _ _) R)).
  - rewrite claimBounty_eq.
    destruct (negb (truthy wid)); [exact Hsame|].
    destruct (find_bounty j (bounties w)) as [bj|] eqn:Hj; [|exact Hsame].
    destruct (Status_eqb (status bj) OPEN) eqn:Hs; simpl; [|exact Hsame].
    apply Status_eqb_eq in Hs.
    eapply update_seen; eauto using claimed_data_id. now constructor.
  - rewrite completeBounty_eq.
    destruct (find_bounty j (bounties w)) as [bj|] eqn:Hj; [|exact Hsame].
    destruct (negb (createdBy bj =? user)); [exact Hsame|].
    destruct (Status_eqb (status bj) CLAIMED) eqn:Hs; simpl; [|exact Hsame].
    apply Status_eqb_eq in Hs.
    destruct (Radius.releaseEscrow _ _ _ _ _ _) as [[tx|m] w1] eqn:R; simpl.
    + eapply update_seen; eauto using completed_data_id. now constructor.
    + now rewrite (proj1 (quiet_at _ _ _ _ (quiet_releaseEscrow _ _ _ _ _) R)).
  - rewrite cancelBounty_eq.
    destruct (find_bounty j (bounties w)) as [bj|] eqn:Hj; [|exact Hsame].
    destruct (negb (createdBy bj =? user)); [exact Hsame|].
    destruct (negb (Status_eqb (status bj) OPEN)
              && negb (Status_eqb (status bj) CLAIMED)) eqn:Hs; [exact Hsame|].
    assert (Hst : status bj = OPEN \/ status bj = CLAIMED)
      by (destruct (status bj); simpl in Hs; try discriminate; auto).
    destruct (Radius.refundEscrow _ _ _ _ _ _) as [[tx|m] w1] eqn:R; simpl.
    + eapply update_seen; eauto using cancelled_data_id. now constructor.
    + now rewrite (proj1 (quiet_at _ _ _ _ (quiet_refundEscrow _ _ _ _ _) R)).
Qed.

Lemma row_step_status (b b' : Bounty) :
  row_step b b' -> status b' = status b \/ move (status b) (status b').
Proof.
  intros [ | u h Hs | tx Hs | [Hs | Hs]]; simpl; rewrite ?Hs;
    auto using move.
Qed.

Lemma move_not_terminal (s s' : Status) : move s s' -> ~ terminal s.
Proof. intros [] [H | H]; discriminate. Qed.

Lemma step_status (o : Op) (w : World) (i : Z) (s : Status) :
  status_of i w = Some s ->
  exists s', status_of i (snd (step o w)) = Some s' /\ (s' = s \/ move s s').
Proof.
  unfold status_of. intro H.
  destruct (find_bounty i (bounties w)) as [b|] eqn:E; [|discriminate].
  injection H as <-.
  destruct (step_row o w i b E) as (b' & -> & Hstep).
  exists (status b'). split; [reflexivity | now apply row_step_status].
Qed.

Lemma terminal_stays (ops : list Op) (w : World) (i : Z) (s : Status) :
  status_of i w = Some s -> terminal s -> status_of i (run ops w) = Some s.
Proof.
  revert w. induction ops as [|o ops IH]; intros w Hs Ht; [exact Hs|].
  change (run (o :: ops) w) with (run ops (snd (step o w))).
  apply IH; [|exact Ht].
  destruct (step_status o w i s Hs) as (s' & Hs' & [-> | Hm]); [exact Hs'|].
  now apply move_not_terminal in Hm.
Qed.

(** C3 (amended). When the calls are served one after the other (each
    handler runs to its end before the next one starts), for every bounty
    and every sequence of the four operations (fund, claim, complete,
    cancel) each call leaves the status of the bounty as it is or moves it
    along OPEN -> CLAIMED, CLAIMED -> COMPLETED, OPEN -> CANCELLED or
    CLAIMED -> CANCELLED; and once the status is COMPLETED or CANCELLED no
    further sequence of such calls changes it. *)
Theorem status_moves_follow_table
    (ops : list Op) (o : Op) (w : World) (i : Z) (s : Status) :
  status_of i (run ops w) = Some s ->
  (exists s', status_of i (run (ops ++ [o]) w) = Some s' /\
              (s' = s \/ move s s')) /\
  (forall more, terminal s -> status_of i (run (ops ++ more) w) = Some s).
Proof.
  intro Hs. split.
  - rewrite run_app. exact (step_status o (run ops w) i s Hs).
  - intros more Ht. rewrite run_app. now apply terminal_stays.
Qed.

(** At a CLAIMED bounty, which a complete moves, and at a COMPLETED one,
    which nothing moves any more. *)
Lemma status_moves_follow_table_witness :
  let claimed := [fund out_ok 10 (post two_and_a_half); claim 20 1 (Some 2)] in
  let completed := claimed ++ [complete out_ok 10 1] in
  (exists s',
     status_of 1 (run (claimed ++ [complete out_ok 10 1]) world0) = Some s' /\
     (s' = CLAIMED \/ move CLAIMED s')) /\
  (exists s',
     status_of 1 (run (completed ++ [cancel out_ok 10 1 None]) world0) = Some s' /\
     (s' = COMPLETED \/ move COMPLETED s')) /\
  (forall more,
     status_of 1 (run (completed ++ more) world0) = Some COMPLETED).
Proof.
  intros claimed completed.
  assert (H1 : status_of 1 (run claimed world0) = Some CLAIMED)
    by (vm_compute; reflexivity).
  assert (H2 : status_of 1 (run completed world0) = Some COMPLETED)
    by (vm_compute; reflexivity).
  split; [|split].
  - exact (proj1 (status_moves_follow_table claimed (complete out_ok 10 1)
                    world0 1 CLAIMED H1)).
  - exact (proj1 (status_moves_follow_table completed (cancel out_ok 10 1 None)
                    world0 1 COMPLETED H2)).
  - intro more.
    apply (proj2 (status_moves_follow_table completed (cancel out_ok 10 1 None)
                    world0 1 COMPLETED H2)).
    left. reflexivity.
Defined.

(** C3, as stated, fails when two handlers are in flight together: the
    status is tested on a read and written by a later update keyed on the
    id alone.  A claim that has read the bounty OPEN, a cancel served
    before the claim writes, and then the write of the claim take the
    bounty out of CANCELLED to CLAIMED, which is none of the four moves;
    a complete then takes it to COMPLETED. *)
Lemma cancelled_bounty_is_claimed_again :
  let w := run [fund out_ok 10 (post two_and_a_half)] world0 in
  let c := mkClaimCall 20 1 (Some 2) in
  let read := claim_read c w in
  let cancelled := BountyController.cancelBounty out_ok 10 1 None (snd read) in
  let claimed := claim_finish c (fst read) (snd cancelled) in
  let completed := BountyController.completeBounty out_ok 10 1 (snd claimed) in
  status_of 1 w = Some OPEN /\
  (code (fst cancelled) = 200 /\ status_of 1 (snd cancelled) = Some CANCELLED) /\
  (code (fst claimed) = 200 /\ status_of 1 (snd claimed) = Some CLAIMED) /\
  (code (fst completed) = 200 /\ status_of 1 (snd completed) = Some COMPLETED) /\
  terminal CANCELLED /\
  ~ move CANCELLED CLAIMED.
Proof.
  repeat split; try (vm_compute; reflexivity).
  - right. reflexivity.
  - intro H. inversion H.
Qed.

(** ** The claimer of a row *)

Lemma row_step_consistent (b b' : Bounty) :
  consistent b -> row_step b b' -> consistent b'.
Proof.
  intros [Ho Hc] [ | u h Hs | tx Hs | Hs]; unfold consistent; simpl.
  - auto.
  - split; [discriminate | intros _; discriminate].
  - split; [discriminate | intros _; apply Hc; auto].
  - split; [discriminate | intros [H | H]; discriminate].
Qed.

Lemma fresh_row_consistent (b : Bounty) : fresh_row b -> consistent b.
Proof.
  intros (Hs & Hc & _). split; [auto | rewrite Hs; intros [H | H]; discriminate].
Qed.

Lemma step_In (o : Op) (w : World) (b' : Bounty) :
  In b' (bounties (snd (step o w))) ->
  (exists b, In b (bounties w) /\ row_step b b') \/ fresh_row b'.
Proof.
  assert (Hsame : In b' (bounties w) ->
                  (exists b, In b (bounties w) /\ row_step b b') \/ fresh_row b')
    by (intro H; left; exists b'; split; [assumption | constructor]).
  destruct o as [out user req | user j wid | out user j | out user j refund];
    simpl.
  - rewrite createBounty_eq.
    repeat match goal with
    | |- context [if ?c then _ else _] => destruct c; [exact Hsame|]
    | |- context [match BountyController.walletId req with _ => _ end] =>
        destruct (BountyController.walletId req); [|exact Hsame]
    | |- context [match github_issue_state out with _ => _ end] =>
        destruct (github_issue_state out); [|exact Hsame]
    end.
    destruct (Radius.createEscrow _ _ _ _ _) as [[escrow|m] w1] eqn:R; simpl.
    + destruct (bounty_create_rejects out); simpl;
        [now rewrite (proj1 (quiet_at _ _ _ _ (quiet_createEscrow _ _ _ _) R))|].
      rewrite in_app_iff. intros [H | [<- | []]]; [auto|].
      right. repeat split.
    + now rewrite (proj1 (quiet_at _ _ _ _ (quiet_createEscrow _ _ _ _) R)).
  - rewrite claimBounty_eq.
    destruct (negb (truthy wid)); [exact Hsame|].
    destruct (find_bounty j (bounties w)) as [bj|] eqn:Hj; [|exact Hsame].
    destruct (Status_eqb (status bj) OPEN) eqn:Hs; simpl; [|exact Hsame].
    apply Status_eqb_eq in Hs. intro H.
    apply In_update in H. destruct H as [H | (b & Hb & ->)]; [auto|].
    left. exists b. split; [eauto using find_bounty_In|].
    constructor. congruence.
  - rewrite completeBounty_eq.
    destruct (find_bounty j (bounties w)) as [bj|] eqn:Hj; [|exact Hsame].
    destruct (negb (createdBy bj =? user)); [exact Hsame|].
    destruct (Status_eqb (status bj) CLAIMED) eqn:Hs; simpl; [|exact Hsame].
    apply Status_eqb_eq in Hs.
    destruct (Radius.releaseEscrow _ _ _ _ _ _) as [[tx|m] w1] eqn:R; simpl.
    + intro H. apply In_update in H. destruct H as [H | (b & Hb & ->)]; [auto|].
      left. exists b. split; [eauto using find_bounty_In|].
      constructor. congruence.
    + now rewrite (proj1 (quiet_at _ _ _ _ (quiet_releaseEscrow _ _ _ _ _) R)).
  - rewrite cancelBounty_eq.
    destruct (find_bounty j (bounties w)) as [bj|] eqn:Hj; [|exact Hsame].
    destruct (negb (createdBy bj =? user)); [exact Hsame|].
    destruct (negb (Status_eqb (status bj) OPEN)
              && negb (Status_eqb (status bj) CLAIMED)) eqn:Hs; [exact Hsame|].
    assert (Hst : status bj = OPEN \/ status bj = CLAIMED)
      by (destruct (status bj); simpl in Hs; try discriminate; auto).
    destruct (Radius.refundEscrow _ _ _ _ _ _) as [[tx|m] w1] eqn:R; simpl.
    + intro H. apply In_update in H. destruct H as [H | (b & Hb & ->)]; [auto|].
      left. exists b. split; [eauto using find_bounty_In|].
      constructor. congruence.
    + now rewrite (proj1 (quiet_at _ _ _ _ (quiet_refundEscrow _ _ _ _ _) R)).
Qed.

Lemma run_consistent (ops : list Op) (w : World) :
  (forall b, In b (bounties w) -> consistent b) ->
  forall b, In b (bounties (run ops w)) -> consistent b.
Proof.
  revert w. induction ops as [|o ops IH]; intros w Hw; [exact Hw|].
  change (run (o :: ops) w) with (run ops (snd (step o w))).
  apply IH. intros b' Hb'.
  destruct (step_In o w b' Hb') as [(b & Hb & Hstep) | Hfresh].
  - eapply row_step_consistent; eauto.
  - now apply fresh_row_consistent.
Qed.

Lemma cancel_keeps_claimer (out : Outside) (user i : Z) (refund : option Z)
    (w : World) (j : Z) :
  claimer_of j (snd (BountyController.cancelBounty out user i refund w)) =
  claimer_of j w.
Proof.
  unfold claimer_of. rewrite cancelBounty_eq.
  destruct (find_bounty i (bounties w)) as [b|] eqn:Hi; [|reflexivity].
  destruct (negb (createdBy b =? user)); [reflexivity|].
  destruct (negb (Status_eqb (status b) OPEN)
            && negb (Status_eqb (status b) CLAIMED)); [reflexivity|].
  destruct (Radius.refundEscrow _ _ _ _ _ _) as [[tx|m] w1] eqn:R; simpl.
  - destruct (Z.eq_dec j i) as [->|Hne].
    + rewrite find_update_same, Hi by apply cancelled_data_id. reflexivity.
    + now rewrite find_update_other by (assumption || apply cancelled_data_id).
  - now rewrite (proj1 (quiet_at _ _ _ _ (quiet_refundEscrow _ _ _ _ _) R)).
Qed.

(** C7 (amended). For every bounty reachable through the four
    operations from a database without bounties: if its status is OPEN
    then claimedBy is null, and if its status is CLAIMED or COMPLETED then
    claimedBy is not null.  A cancel leaves claimedBy of every bounty as
    it was, so nothing is said of a CANCELLED bounty: cancelled directly
    from OPEN it has a null claimedBy. *)
Theorem claimedBy_follows_status (ops : list Op) (w : World) (b : Bounty) :
  bounties w = [] ->
  In b (bounties (run ops w)) ->
  (status b = OPEN -> claimedBy b = None) /\
  (status b = CLAIMED \/ status b = COMPLETED -> claimedBy b <> None) /\
  (forall out user i refund j,
      claimer_of j
        (snd (BountyController.cancelBounty out user i refund (run ops w))) =
      claimer_of j (run ops w)).
Proof.
  intros Hw Hb.
  assert (Hc : consistent b).
  { apply (run_consistent ops w); [|exact Hb].
    rewrite Hw. intros b0 []. }
  destruct Hc as [Ho Hc]. repeat split; auto.
  intros. apply cancel_keeps_claimer.
Qed.

Lemma claimedBy_follows_status_witness :
  let ops := [fund out_ok 10 (post two_and_a_half); claim 20 1 (Some 2)] in
  let b := mkBounty 1 "octo" "repo" 7 two_and_a_half "USD" CLAIMED
             "0xtx:0xe5c0:2500000000000000000" 10 (Some 20) (Some 1) (Some 2) in
  bounties world0 = [] /\
  In b (bounties (run ops world0)) /\
  (status b = OPEN -> claimedBy b = None) /\
  (status b = CLAIMED \/ status b = COMPLETED -> claimedBy b <> None) /\
  (forall out user i refund j,
      claimer_of j
        (snd (BountyController.cancelBounty out user i refund (run ops world0))) =
      claimer_of j (run ops world0)).
Proof.
  intros ops b.
  assert (H0 : bounties world0 = []) by reflexivity.
  assert (H1 : In b (bounties (run ops world0)))
    by (vm_compute; left; reflexivity).
  split; [exact H0|]. split; [exact H1|].
  exact (claimedBy_follows_status ops world0 b H0 H1).
Defined.

(** C7, as stated, fails: a bounty funded and then cancelled is CANCELLED,
    hence not OPEN, and its claimedBy is null. *)
Lemma cancelled_from_open_has_no_claimer :
  exists b,
    find_bounty 1
      (bounties (run [fund out_ok 10 (post two_and_a_half);
                      cancel out_ok 10 1 None] world0)) = Some b /\
    status b = CANCELLED /\
    claimedBy b = None /\
    ~ (claimedBy b = None <-> status b = OPEN).
Proof.
  eexists. split; [vm_compute; reflexivity|].
  repeat split. intros [H _]. specialize (H eq_refl). discriminate.
Qed.

(** ** Claiming *)

Lemma claimBounty_split (c : ClaimCall) (w : World) :
  BountyController.claimBounty (caller c) (target c) (hunter c) w =
  let '(early, w1) := claim_read c w in claim_finish c early w1.
Proof.
  unfold BountyController.claimBounty, claim_read, claim_finish, respond, bind.
  destruct (BountyController.claim_check (target c) (hunter c) w)
    as [[[r|]|m] w1]; reflexivity.
Qed.

(** C1 (amended). The claim operation checks that the status is OPEN on a
    read of the bounty and then issues a separate update keyed on the
    bounty id alone.  When nothing runs between the read and the write of
    a call: a claim of a bounty whose status is not OPEN is answered
    InvalidTransition (400, naming the current status) and writes nothing;
    and of two claim calls served one after the other on an OPEN bounty
    the first succeeds and sets claimedBy, hunterWalletId and
    status = CLAIMED, the second is answered InvalidTransition. *)
Theorem claim_checks_then_writes (a b : ClaimCall) (w : World) (row : Bounty) :
  find_bounty (target a) (bounties w) = Some row ->
  truthy (hunter a) = true ->
  (status row <> OPEN ->
   BountyController.claimBounty (caller a) (target a) (hunter a) w =
   (InvalidTransition "Bounty is not open" (status row), w)) /\
  (status row = OPEN -> target b = target a -> truthy (hunter b) = true ->
   exists w1,
     one_by_one a b w =
     (mkResponse 200
        (bounty_body (BountyModel.claimed_data (caller a) (hunter a) row)),
      InvalidTransition "Bounty is not open" CLAIMED, w1) /\
     find_bounty (target a) (bounties w1) =
     Some (BountyModel.claimed_data (caller a) (hunter a) row)).
Proof.
  intros Hrow Ha. split.
  - intro Hs. rewrite claimBounty_eq, Ha, Hrow. simpl.
    apply Status_eqb_neq in Hs. now rewrite Hs.
  - intros Hs Ht Hb. unfold one_by_one.
    rewrite claimBounty_eq, Ha, Hrow, Hs. simpl.
    rewrite claimBounty_eq, Hb, Ht. simpl.
    rewrite find_update_same, Hrow by apply claimed_data_id. simpl.
    eexists. split; [reflexivity|]. simpl.
    now rewrite find_update_same, Hrow by apply claimed_data_id.
Qed.

Lemma claim_checks_then_writes_witness :
  let w := run [fund out_ok 10 (post two_and_a_half)] world0 in
  let a := mkClaimCall 20 1 (Some 2) in
  let b := mkClaimCall 30 1 (Some 3) in
  exists row,
    find_bounty (target a) (bounties w) = Some row /\
    truthy (hunter a) = true /\
    status row = OPEN /\
    exists w1,
      one_by_one a b w =
      (mkResponse 200
         (bounty_body (BountyModel.claimed_data (caller a) (hunter a) row)),
       InvalidTransition "Bounty is not open" CLAIMED, w1) /\
      find_bounty (target a) (bounties w1) =
      Some (BountyModel.claimed_data (caller a) (hunter a) row).
Proof.
  intros w a b. eexists.
  assert (Hrow : find_bounty (target a) (bounties w) = Some _)
    by (vm_compute; reflexivity).
  split; [exact Hrow|]. split; [reflexivity|]. split; [reflexivity|].
  exact (proj2 (claim_checks_then_writes a b w _ Hrow eq_refl)
           eq_refl eq_refl eq_refl).
Defined.

(** C1, as stated, fails: the write is not conditional on the status.
    Two claim handlers that both read the OPEN bounty before either
    writes are both answered 200, and the second write replaces the
    claimer of a bounty that is CLAIMED by then. *)
Lemma competing_claims_both_succeed :
  let w := run [fund out_ok 10 (post two_and_a_half)] world0 in
  let a := mkClaimCall 20 1 (Some 2) in
  let b := mkClaimCall 30 1 (Some 3) in
  let w1 := snd (BountyModel.markBountyClaimed 1 20 (Some 2) w) in
  let w2 := snd (BountyModel.markBountyClaimed 1 30 (Some 3) w1) in
  status_of 1 w = Some OPEN /\
  (code (fst (fst (interleaved a b w))) = 200 /\
   code (snd (fst (interleaved a b w))) = 200 /\
   claimer_of 1 (snd (interleaved a b w)) = Some (Some 30)) /\
  (status_of 1 w1 = Some CLAIMED /\
   claimer_of 1 w1 = Some (Some 20) /\
   w2 <> w1 /\
   claimer_of 1 w2 = Some (Some 30)).
Proof.
  vm_compute. repeat split; discriminate.
Qed.

(** ** Transfers that fail *)

(** C2. For every bounty, when the escrow transfer of a complete or of a
    cancel call is rejected (the guards of the call having passed), the
    call answers 500 and writes nothing: the bounty and wallet tables are
    what they were before the call, in particular the status and the
    escrowId of the bounty. *)
Theorem failed_transfer_writes_nothing
    (out : Outside) (user i : Z) (refund : option Z) (w : World) (b : Bounty) :
  find_bounty i (bounties w) = Some b ->
  createdBy b = user ->
  (status b = CLAIMED ->
   rejected (fst (Radius.releaseEscrow out (escrowId b) (claimedBy b)
                    (amount b) (hunterWalletId b) w)) = true ->
   let end_ := BountyController.completeBounty out user i w in
   code (fst end_) = 500 /\
   bounties (snd end_) = bounties w /\
   wallets (snd end_) = wallets w /\
   status_of i (snd end_) = Some (status b) /\
   escrow_of i (snd end_) = Some (escrowId b)) /\
  (status b = OPEN \/ status b = CLAIMED ->
   rejected (fst (Radius.refundEscrow out (escrowId b) user (amount b)
                    (walletIdToUse refund b) w)) = true ->
   let end_ := BountyController.cancelBounty out user i refund w in
   code (fst end_) = 500 /\
   bounties (snd end_) = bounties w /\
   wallets (snd end_) = wallets w /\
   status_of i (snd end_) = Some (status b) /\
   escrow_of i (snd end_) = Some (escrowId b)).
Proof.
  intros Hb Hu. unfold status_of, escrow_of. split.
  - intros Hs Hr. cbv zeta. rewrite completeBounty_eq, Hb, Hs, Hu, Z.eqb_refl.
    change (negb true) with false. change (Status_eqb CLAIMED CLAIMED) with true.
    cbv iota.
    destruct (Radius.releaseEscrow _ _ _ _ _ _) as [[tx|m] w1] eqn:R;
      [discriminate|].
    destruct (quiet_at _ _ _ _ (quiet_releaseEscrow _ _ _ _ _) R)
      as (H1 & H2 & _).
    simpl. rewrite H1, H2, Hb. simpl. rewrite Hs. auto.
  - intros Hs Hr. cbv zeta. rewrite cancelBounty_eq, Hb, Hu, Z.eqb_refl.
    replace (negb (Status_eqb (status b) OPEN)
             && negb (Status_eqb (status b) CLAIMED)) with false
      by (destruct Hs as [-> | ->]; reflexivity).
    change (negb true) with false. cbv iota.
    destruct (Radius.refundEscrow _ _ _ _ _ _) as [[tx|m] w1] eqn:R;
      [discriminate|].
    destruct (quiet_at _ _ _ _ (quiet_refundEscrow _ _ _ _ _) R)
      as (H1 & H2 & _).
    simpl. rewrite H1, H2, Hb. auto.
Qed.

Lemma failed_transfer_writes_nothing_witness :
  let w := run [fund out_ok 10 (post two_and_a_half); claim 20 1 (Some 2)]
             world0 in
  let b := mkBounty 1 "octo" "repo" 7 two_and_a_half "USD" CLAIMED
             "0xtx:0xe5c0:2500000000000000000" 10 (Some 20) (Some 1) (Some 2) in
  let done := BountyController.completeBounty out_send_fails 10 1 w in
  let undone := BountyController.cancelBounty out_send_fails 10 1 None w in
  find_bounty 1 (bounties w) = Some b /\
  (code (fst done) = 500 /\
   bounties (snd done) = bounties w /\
   wallets (snd done) = wallets w /\
   status_of 1 (snd done) = Some CLAIMED /\
   escrow_of 1 (snd done) = Some "0xtx:0xe5c0:2500000000000000000"%string) /\
  (code (fst undone) = 500 /\
   bounties (snd undone) = bounties w /\
   wallets (snd undone) = wallets w /\
   status_of 1 (snd undone) = Some CLAIMED /\
   escrow_of 1 (snd undone) = Some "0xtx:0xe5c0:2500000000000000000"%string).
Proof.
  intros w b done undone.
  assert (Hb : find_bounty 1 (bounties w) = Some b) by (vm_compute; reflexivity).
  destruct (failed_transfer_writes_nothing out_send_fails 10 1 None w b Hb eq_refl)
    as [Hdone Hundone].
  split; [exact Hb|]. split.
  - apply Hdone; [reflexivity | vm_compute; reflexivity].
  - apply Hundone; [right; reflexivity | vm_compute; reflexivity].
Defined.

(** ** Where transfers go *)

Ltac break_match :=
  match goal with
  | |- context [match ?x with _ => _ end] =>
      lazymatch x with
      | context [match _ with _ => _ end] => fail
      | _ => destruct x eqn:?
      end
  end.

Lemma refundEscrow_cases (out : Outside) (e : string) (t : Z) (amt : double)
    (ow : option Z) (w : World) :
  (exists m,
      fst (Radius.refundEscrow out e t amt ow w) = Throw m /\
      events (snd (Radius.refundEscrow out e t amt ow w)) =
      events w ++ [RefundEscrowCall e t amt ow]) \/
  (exists k x n tx,
      ow = Some k /\
      find_wallet k (wallets w) = Some x /\
      BigInt (mul amt ten18) = Ok n /\
      account_send out (publicKey x) n = Ok tx /\
      fst (Radius.refundEscrow out e t amt ow w) = Ok tx /\
      events (snd (Radius.refundEscrow out e t amt ow w)) =
      events w ++ [RefundEscrowCall e t amt ow; Sent (publicKey x) n tx]).
Proof.
  unfold Radius.refundEscrow, Radius.initializeEscrowRadius, Radius.send,
    prisma_wallet_findUnique, catch, bind, emit, lift, throw, ret.
  simpl.
  repeat break_match; simpl;
    repeat match goal with
    | H : (_, _) = (_, _) |- _ => inversion H; subst; clear H
    end;
    try discriminate;
    try (left; eexists; split; reflexivity).
  right. do 4 eexists. repeat split; try eassumption; try reflexivity.
  simpl. now rewrite <- app_assoc.
Qed.

Lemma releaseEscrow_cases (out : Outside) (e : string) (t : option Z)
    (amt : double) (hw : option Z) (w : World) :
  (exists m,
      fst (Radius.releaseEscrow out e t amt hw w) = Throw m /\
      events (snd (Radius.releaseEscrow out e t amt hw w)) =
      events w ++ [ReleaseEscrowCall e t amt hw]) \/
  (exists k x n tx,
      hw = Some k /\
      find_wallet k (wallets w) = Some x /\
      BigInt (Math_floor (mul (parseFloat amt) ten18)) = Ok n /\
      account_send out (publicKey x) n = Ok tx /\
      fst (Radius.releaseEscrow out e t amt hw w) = Ok tx /\
      events (snd (Radius.releaseEscrow out e t amt hw w)) =
      events w ++ [ReleaseEscrowCall e t amt hw; Sent (publicKey x) n tx]).
Proof.
  unfold Radius.releaseEscrow, Radius.initializeEscrowRadius, Radius.send,
    prisma_wallet_findUnique, catch, bind, emit, lift, throw, ret.
  simpl.
  repeat break_match; simpl;
    repeat match goal with
    | H : (_, _) = (_, _) |- _ => inversion H; subst; clear H
    end;
    try discriminate;
    try (left; eexists; split; reflexivity).
  right. do 4 eexists. repeat split; try eassumption; try reflexivity.
  simpl. now rewrite <- app_assoc.
Qed.

Lemma createEscrow_cases (out : Outside) (u : Z) (amt : double) (wid : Z)
    (w : World) :
  (exists m,
      fst (Radius.createEscrow out u amt wid w) = Throw m /\
      events (snd (Radius.createEscrow out u amt wid w)) =
      events w ++ [CreateEscrowCall u amt wid]) \/
  (exists escrowAddress n tx,
      RADIUS_ESCROW_ADDRESS out = Some escrowAddress /\
      BigInt (Math_floor (mul (parseFloat amt) ten18)) = Ok n /\
      account_send out escrowAddress n = Ok tx /\
      fst (Radius.createEscrow out u amt wid w) = Ok tx /\
      events (snd (Radius.createEscrow out u amt wid w)) =
      events w ++ [CreateEscrowCall u amt wid; Sent escrowAddress n tx]).
Proof.
  unfold Radius.createEscrow, Radius.initializeWalletRadius,
    Radius.getWalletWithPrivateKey, Radius.send,
    prisma_wallet_findUnique, catch, bind, emit, lift, throw, ret.
  simpl.
  repeat break_match; simpl;
    repeat match goal with
    | H : (_, _) = (_, _) |- _ => inversion H; subst; clear H
    end;
    try discriminate;
    try (left; eexists; split; reflexivity);
    right; do 3 eexists; repeat split; try eassumption; try reflexivity;
    simpl; now rewrite <- app_assoc.
Qed.

(** C5 (amended). When cancel is called with an explicit override refund
    wallet id, who owns that wallet is not checked: the call is answered
    Forbidden exactly when the actor is not the creator of the bounty, and
    whatever the call sends goes to the override wallet when one is given
    and to the ownerWalletId of the bounty otherwise; a successful cancel
    has sent the refund there. *)
Theorem refund_goes_to_chosen_wallet
    (out : Outside) (user i : Z) (refund : option Z) (w : World) (b : Bounty) :
  find_bounty i (bounties w) = Some b ->
  let end_ := BountyController.cancelBounty out user i refund w in
  (code (fst end_) = 403 <-> createdBy b <> user) /\
  (forall to n tx,
      In (Sent to n tx) (events (snd end_)) ->
      In (Sent to n tx) (events w) \/
      exists k x,
        walletIdToUse refund b = Some k /\
        find_wallet k (wallets w) = Some x /\ to = publicKey x) /\
  (code (fst end_) = 200 ->
   exists k x n tx,
     walletIdToUse refund b = Some k /\
     find_wallet k (wallets w) = Some x /\
     events (snd end_) =
     events w ++ [RefundEscrowCall (escrowId b) user (amount b) (Some k);
                  Sent (publicKey x) n tx]).
Proof.
  intros Hb end_. subst end_. rewrite cancelBounty_eq, Hb.
  destruct (createdBy b =? user) eqn:Hu; simpl.
  2:{ apply Z.eqb_neq in Hu. repeat split; auto; try discriminate. }
  apply Z.eqb_eq in Hu.
  destruct (negb (Status_eqb (status b) OPEN)
            && negb (Status_eqb (status b) CLAIMED)); simpl.
  { repeat split; auto; try discriminate; intros; congruence. }
  destruct (refundEscrow_cases out (escrowId b) user (amount b)
              (walletIdToUse refund b) w)
    as [(m & Hr & He) | (k & x & n & tx & Hk & Hx & _ & _ & Hr & He)];
    destruct (Radius.refundEscrow _ _ _ _ _ _) as [r w1];
    simpl in Hr, He; subst r; simpl.
  - repeat split; try discriminate; try congruence.
    intros to n tx. rewrite He, in_app_iff. simpl.
    intros [H | [H | []]]; [auto | discriminate].
  - repeat split; try discriminate; try congruence.
    + intros to n' tx'. rewrite He, in_app_iff. simpl.
      intros [H | [H | [H | []]]]; [auto | discriminate |].
      injection H as <- <- <-. right. eauto.
    + intros _. exists k, x, n, tx. rewrite Hk in He. auto.
Qed.

Lemma refund_goes_to_chosen_wallet_witness :
  let w := run [fund out_ok 10 (post two_and_a_half)] world0 in
  let b := mkBounty 1 "octo" "repo" 7 two_and_a_half "USD" OPEN
             "0xtx:0xe5c0:2500000000000000000" 10 None (Some 1) None in
  let end_ := BountyController.cancelBounty out_ok 10 1 (Some 3) w in
  find_bounty 1 (bounties w) = Some b /\
  code (fst end_) = 200 /\
  exists k x n tx,
    walletIdToUse (Some 3) b = Some k /\
    find_wallet k (wallets w) = Some x /\
    events (snd end_) =
    events w ++ [RefundEscrowCall (escrowId b) 10 (amount b) (Some k);
                 Sent (publicKey x) n tx].
Proof.
  intros w b end_.
  assert (Hb : find_bounty 1 (bounties w) = Some b) by (vm_compute; reflexivity).
  assert (Hc : code (fst end_) = 200) by (vm_compute; reflexivity).
  split; [exact Hb|]. split; [exact Hc|].
  exact (proj2 (proj2 (refund_goes_to_chosen_wallet out_ok 10 1 (Some 3) w b Hb))
           Hc).
Defined.

(** C5, as stated, fails: user 10 cancels their bounty naming wallet 3,
    which belongs to user 30; the call is answered 200, not 403, and the
    refund has been sent to the address of wallet 3. *)
Lemma refund_sent_to_a_wallet_of_another_user :
  let w := run [fund out_ok 10 (post two_and_a_half)] world0 in
  let end_ := BountyController.cancelBounty out_ok 10 1 (Some 3) w in
  find_wallet 3 (wallets w) = Some other_wallet /\
  userId other_wallet = 30 /\
  code (fst end_) = 200 /\
  In (Sent (publicKey other_wallet) 2500000000000000000
        "0xtx:0xccc3:2500000000000000000") (events (snd end_)) /\
  status_of 1 (snd end_) = Some CANCELLED.
Proof.
  vm_compute. repeat split. right. right. right. left. reflexivity.
Qed.

(** ** Completing *)

(** C8. A complete call on a bounty whose status is not CLAIMED (COMPLETED
    in particular) changes nothing and invokes no transfer: the world,
    with its log of Radius calls, is what it was; its creator is answered
    InvalidTransition (400, naming the current status), and anyone else
    is stopped before that by the actor guard.  A complete call that
    reaches the Radius service is on a CLAIMED bounty and by its creator,
    and such a call does invoke releaseEscrow. *)
Theorem complete_needs_claimed (out : Outside) (user i : Z) (w : World) (b : Bounty) :
  find_bounty i (bounties w) = Some b ->
  (status b <> CLAIMED ->
   BountyController.completeBounty out user i w =
   (if createdBy b =? user
    then InvalidTransition "Bounty cannot be completed" (status b)
    else Forbidden "Only the bounty owner can mark it as completed", w)) /\
  (events (snd (BountyController.completeBounty out user i w)) <> events w ->
   status b = CLAIMED /\ createdBy b = user) /\
  (status b = CLAIMED -> createdBy b = user ->
   exists l,
     events (snd (BountyController.completeBounty out user i w)) =
     events w ++ ReleaseEscrowCall (escrowId b) (claimedBy b) (amount b)
                   (hunterWalletId b) :: l).
Proof.
  intro Hb. rewrite completeBounty_eq, Hb. split; [|split].
  - intro Hs. apply Status_eqb_neq in Hs. rewrite Hs.
    now destruct (createdBy b =? user).
  - destruct (createdBy b =? user) eqn:Hu; simpl; [|congruence].
    destruct (Status_eqb (status b) CLAIMED) eqn:Hs; simpl; [|congruence].
    intros _. split; [now apply Status_eqb_eq | now apply Z.eqb_eq].
  - intros Hs Hu. rewrite Hs, Hu, Z.eqb_refl. simpl.
    destruct (releaseEscrow_cases out (escrowId b) (claimedBy b) (amount b)
                (hunterWalletId b) w)
      as [(m & Hr & He) | (k & x & n & tx & _ & _ & _ & _ & Hr & He)];
      destruct (Radius.releaseEscrow _ _ _ _ _ _) as [r w1];
      simpl in Hr, He; subst r; simpl; rewrite He; eauto.
Qed.

Lemma complete_needs_claimed_witness :
  let w := run [fund out_ok 10 (post two_and_a_half); claim 20 1 (Some 2);
                complete out_ok 10 1] world0 in
  let b := mkBounty 1 "octo" "repo" 7 two_and_a_half "USD" COMPLETED
             "0xtx:0xbbb2:2500000000000000000" 10 (Some 20) (Some 1) (Some 2) in
  find_bounty 1 (bounties w) = Some b /\
  BountyController.completeBounty out_ok 10 1 w =
  (InvalidTransition "Bounty cannot be completed" COMPLETED, w).
Proof.
  intros w b.
  assert (Hb : find_bounty 1 (bounties w) = Some b) by (vm_compute; reflexivity).
  split; [exact Hb|].
  apply (proj1 (complete_needs_claimed out_ok 10 1 w b Hb)).
  discriminate.
Defined.

(** ** The escrow reference *)

Lemma escrow_of_update (f : Bounty -> Bounty) (i j : Z) (w w1 : World) :
  (forall x, id (f x) = id x) ->
  (forall x, escrowId (f x) = escrowId x) ->
  escrow_of j (set_bounties (update_bounty i f (bounties w)) w1) = escrow_of j w.
Proof.
  intros Hid He. unfold escrow_of. simpl.
  destruct (Z.eq_dec j i) as [->|Hne].
  - rewrite find_update_same by exact Hid.
    destruct (find_bounty i (bounties w)); simpl; [now rewrite He | reflexivity].
  - now rewrite find_update_other.
Qed.

(** C4 (amended). escrowId holds the receipt of the funding transfer from
    creation on: a successful fund stores the hash of the transfer to the
    escrow address in a row that did not exist, and claim and cancel, a
    successful cancel included, leave the escrowId of every bounty as it
    was (the refund receipt goes into the response only).  A successful
    complete overwrites the escrowId of its bounty with the hash of the
    release transfer; a complete that fails leaves it. *)
Theorem escrowId_history (w : World) :
  (forall out user req b w',
      BountyController.createBounty out user req w =
      (mkResponse 201 (bounty_body b), w') ->
      escrow_of (id b) w = None /\
      escrow_of (id b) w' = Some (escrowId b) /\
      exists wid escrowAddress n,
        events w' =
        events w ++ [CreateEscrowCall user (BountyController.posted_amount req) wid;
                     Sent escrowAddress n (escrowId b)]) /\
  (forall user i wid j,
      escrow_of j (snd (BountyController.claimBounty user i wid w)) =
      escrow_of j w) /\
  (forall out user i refund j,
      escrow_of j (snd (BountyController.cancelBounty out user i refund w)) =
      escrow_of j w) /\
  (forall out user i b,
      find_bounty i (bounties w) = Some b ->
      let end_ := BountyController.completeBounty out user i w in
      (code (fst end_) = 200 ->
       exists to n tx,
         events (snd end_) =
         events w ++ [ReleaseEscrowCall (escrowId b) (claimedBy b) (amount b)
                        (hunterWalletId b);
                      Sent to n tx] /\
         escrow_of i (snd end_) = Some tx) /\
      (code (fst end_) <> 200 -> escrow_of i (snd end_) = Some (escrowId b)) /\
      (forall j, j <> i -> escrow_of j (snd end_) = escrow_of j w)).
Proof.
  split; [|split; [|split]].
  - intros out user req b w'. rewrite createBounty_eq.
    repeat match goal with
    | |- context [if ?c then _ else _] => destruct c; [discriminate|]
    | |- context [match BountyController.walletId req with _ => _ end] =>
        destruct (BountyController.walletId req) as [wid|]; [|discriminate]
    | |- context [match github_issue_state out with _ => _ end] =>
        destruct (github_issue_state out); [|discriminate]
    end.
    destruct (createEscrow_cases out user (BountyController.posted_amount req)
                wid w)
      as [(m & Hr & He) | (addr & n & tx & _ & _ & _ & Hr & He)];
      destruct (Radius.createEscrow _ _ _ _ _) as [r w1];
      simpl in Hr, He; subst r; [discriminate|].
    destruct (bounty_create_rejects out); [discriminate|].
    cbv zeta. intros [= <- <-]. unfold escrow_of. simpl.
    rewrite next_id_fresh. simpl. rewrite find_bounty_app, next_id_fresh.
    simpl. rewrite Z.eqb_refl. repeat split. eauto.
  - intros user i wid j. rewrite claimBounty_eq.
    destruct (negb (truthy wid)); [reflexivity|].
    destruct (find_bounty i (bounties w)); [|reflexivity].
    destruct (negb _); [reflexivity|].
    now apply escrow_of_update.
  - intros out user i refund j. rewrite cancelBounty_eq.
    destruct (find_bounty i (bounties w)); [|reflexivity].
    destruct (negb _); [reflexivity|].
    destruct (negb _ && _); [reflexivity|].
    destruct (Radius.refundEscrow _ _ _ _ _ _) as [[tx|m] w1] eqn:R; simpl.
    + now apply escrow_of_update.
    + unfold escrow_of.
      now rewrite (proj1 (quiet_at _ _ _ _ (quiet_refundEscrow _ _ _ _ _) R)).
  - intros out user i b Hb end_. subst end_. rewrite completeBounty_eq, Hb.
    assert (Hw : escrow_of i w = Some (escrowId b))
      by (unfold escrow_of; now rewrite Hb).
    destruct (negb (createdBy b =? user)); simpl;
      [repeat split; auto; discriminate|].
    destruct (negb (Status_eqb (status b) CLAIMED)); simpl;
      [repeat split; auto; discriminate|].
    destruct (releaseEscrow_cases out (escrowId b) (claimedBy b) (amount b)
                (hunterWalletId b) w)
      as [(m & Hr & He) | (k & x & n & tx & _ & _ & _ & _ & Hr & He)];
      destruct (Radius.releaseEscrow _ _ _ _ _ _) as [r w1] eqn:R;
      simpl in Hr, He; subst r; simpl;
      pose proof (proj1 (quiet_at _ _ _ _ (quiet_releaseEscrow _ _ _ _ _) R))
        as Hq.
    + unfold escrow_of. rewrite Hq, Hb. repeat split; auto; discriminate.
    + unfold escrow_of. simpl. repeat split.
      * intros _. exists (publicKey x), n, tx. split; [exact He|].
        rewrite find_update_same, Hb by apply completed_data_id. reflexivity.
      * congruence.
      * intros j Hj. now rewrite find_update_other
          by (assumption || apply completed_data_id).
Qed.

Lemma escrowId_history_witness :
  let w := run [fund out_ok 10 (post two_and_a_half); claim 20 1 (Some 2)]
             world0 in
  let b := mkBounty 1 "octo" "repo" 7 two_and_a_half "USD" CLAIMED
             "0xtx:0xe5c0:2500000000000000000" 10 (Some 20) (Some 1) (Some 2) in
  let end_ := BountyController.completeBounty out_ok 10 1 w in
  find_bounty 1 (bounties w) = Some b /\
  code (fst end_) = 200 /\
  exists to n tx,
    events (snd end_) =
    events w ++ [ReleaseEscrowCall (escrowId b) (claimedBy b) (amount b)
                   (hunterWalletId b);
                 Sent to n tx] /\
    escrow_of 1 (snd end_) = Some tx.
Proof.
  intros w b end_.
  assert (Hb : find_bounty 1 (bounties w) = Some b) by (vm_compute; reflexivity).
  assert (Hc : code (fst end_) = 200) by (vm_compute; reflexivity).
  split; [exact Hb|]. split; [exact Hc|].
  exact (proj1 (proj2 (proj2 (proj2 (escrowId_history w))) out_ok 10 1 b Hb) Hc).
Defined.

(** C4, as stated, fails for cancel: the bounty funded with receipt
    0xtx:0xe5c0:... and cancelled with refund receipt 0xtx:0xaaa1:... is
    CANCELLED with the funding receipt still in escrowId. *)
Lemma cancel_keeps_the_funding_receipt :
  let w := run [fund out_ok 10 (post two_and_a_half)] world0 in
  let end_ := BountyController.cancelBounty out_ok 10 1 None w in
  code (fst end_) = 200 /\
  status_of 1 (snd end_) = Some CANCELLED /\
  In (Sent "0xaaa1" 2500000000000000000 "0xtx:0xaaa1:2500000000000000000")
     (events (snd end_)) /\
  escrow_of 1 (snd end_) = Some "0xtx:0xe5c0:2500000000000000000"%string /\
  escrow_of 1 (snd end_) <> Some "0xtx:0xaaa1:2500000000000000000"%string.
Proof.
  vm_compute. repeat split; try discriminate.
  right. right. right. left. reflexivity.
Qed.

(** ** Base units *)

Lemma digits2_size (p : positive) : digits2_pos p = Pos.size p.
Proof. induction p; simpl; congruence. Qed.

Lemma digits2_bound (p : positive) : Zpos p < 2 ^ 53 -> Zpos (digits2_pos p) <= 53.
Proof.
  intro H. rewrite digits2_size.
  pose proof (Pos.size_le p) as Hle.
  assert (H2 : 2 ^ Zpos (Pos.size p) <= 2 * Zpos p).
  { change 2 with (Zpos 2) at 1. rewrite <- Pos2Z.inj_pow.
    change (2 * Zpos p) with (Zpos p~0). now apply Pos2Z.pos_le_pos. }
  assert (H3 : 2 ^ Zpos (Pos.size p) < 2 ^ 54).
  { change (2 ^ 54) with (2 * 2 ^ 53). lia. }
  apply Z.pow_lt_mono_r_iff in H3; lia.
Qed.

Lemma digits2_iter_xO (d p : positive) :
  digits2_pos (Pos.iter xO p d) = (digits2_pos p + d)%positive.
Proof.
  induction d as [|d IH] using Pos.peano_ind.
  - simpl. lia.
  - rewrite Pos.iter_succ. simpl. rewrite IH. lia.
Qed.

Lemma iter_xO_value (d p : positive) :
  Zpos (Pos.iter xO p d) = Zpos p * 2 ^ Zpos d.
Proof.
  induction d as [|d IH] using Pos.peano_ind.
  - simpl. lia.
  - rewrite Pos.iter_succ, Pos2Z.inj_succ, Z.pow_succ_r by lia.
    rewrite Pos2Z.inj_xO, IH. lia.
Qed.

Lemma round_canonical (s : bool) (mz : positive) (ez : Z) :
  Zpos (digits2_pos mz) = 53 -> -52 <= ez <= 0 ->
  binary_round_aux prec emax s (Zpos mz) ez loc_Exact = S754_finite s mz ez.
Proof.
  intros Hd He.
  unfold binary_round_aux, shr_fexp. simpl Zdigits2. rewrite Hd.
  assert (Hf : fexp prec emax (53 + ez) - ez = 0).
  { unfold fexp, emin, prec, emax. lia. }
  fold Z.sub Z.add. rewrite Hf.
  cbn [shr shr_record_of_loc shr_m loc_of_shr_record round_nearest_even Zdigits2].
  fold Z.sub Z.add. rewrite Hd, Hf. cbn [shr shr_m].
  change (emax - prec) with 971.
  destruct (ez <=? 971) eqn:E; [reflexivity|]. apply Z.leb_gt in E. lia.
Qed.

Lemma BigInt_of_int (s : bool) (p : positive) :
  Zpos p < 2 ^ 53 ->
  BigInt (binary_round prec emax s p 0) = Ok (cond_Zopp s (Zpos p)).
Proof.
  intro Hp. pose proof (digits2_bound p Hp) as Hn.
  unfold binary_round, shl_align.
  assert (Hf : fexp prec emax (Zpos (digits2_pos p) + 0) = Zpos (digits2_pos p) - 53).
  { unfold fexp, emin, prec, emax. lia. }
  fold Z.sub Z.add. rewrite Hf.
  destruct (Zpos (digits2_pos p) - 53 - 0) as [|q|d] eqn:Hd; try lia.
  - rewrite round_canonical by lia.
    unfold BigInt. simpl. now rewrite Pos.mul_1_r.
  - rewrite round_canonical by (rewrite ?digits2_iter_xO; lia).
    unfold BigInt.
    destruct (0 <=? Zpos (digits2_pos p) - 53) eqn:E; [apply Z.leb_le in E; lia|].
    assert (Hk : - (Zpos (digits2_pos p) - 53) = Zpos d) by lia.
    rewrite Hk, iter_xO_value.
    rewrite Z.mod_mul, Z.div_mul by lia. reflexivity.
Qed.

Lemma BigInt_floor (s : bool) (m : positive) (e : Z) :
  Zpos m < 2 ^ 53 ->
  exists n,
    floored (S754_finite s m e) = Some n /\
    BigInt (Math_floor (S754_finite s m e)) = Ok n.
Proof.
  intro Hm. unfold floored, Math_floor.
  destruct (0 <=? e) eqn:E; simpl; [rewrite E; eauto|].
  apply Z.leb_gt in E. eexists. split; [reflexivity|].
  rewrite Z.shiftr_div_pow2 by lia.
  assert (Hd : 0 < 2 ^ (- e)) by (apply Z.pow_pos_nonneg; lia).
  assert (H1 : 1 <= 2 ^ (- e)) by lia.
  set (d := 2 ^ (- e)) in *.
  destruct s; simpl cond_Zopp.
  - assert (Hlt : Z.neg m / d < 0) by (apply Z.div_lt_upper_bound; lia).
    assert (Hge : Z.neg m <= Z.neg m / d) by (apply Z.div_le_lower_bound; nia).
    destruct (Z.neg m / d) as [|q|q] eqn:Q; try lia.
    simpl. rewrite BigInt_of_int by lia. reflexivity.
  - assert (Hge : 0 <= Z.pos m / d) by (apply Z.div_pos; lia).
    assert (Hle : Z.pos m / d <= Z.pos m)
      by (apply Z.div_le_upper_bound; nia).
    destruct (Z.pos m / d) as [|q|q] eqn:Q; try lia; [reflexivity|].
    simpl. rewrite BigInt_of_int by lia. reflexivity.
Qed.

(** The conversion of createEscrow and releaseEscrow, taken on a product
    that is a finite double: rounding toward minus infinity, which for a
    product that is not negative is truncation toward zero. *)
Lemma floor_is_truncation (m : positive) (e : Z) :
  Zpos m < 2 ^ 53 ->
  exists n,
    truncated (S754_finite false m e) = Some n /\
    BigInt (Math_floor (S754_finite false m e)) = Ok n.
Proof.
  intro Hm. destruct (BigInt_floor false m e Hm) as (n & Hn & HB).
  exists n. split; [|exact HB].
  unfold floored, truncated in *.
  destruct (0 <=? e) eqn:E; [exact Hn|].
  apply Z.leb_gt in E. simpl in *.
  rewrite Z.quot_div_nonneg by (try apply Z.pow_pos_nonneg; lia).
  exact Hn.
Qed.

Lemma floor_of_minus_half :
  BigInt (Math_floor minus_half) = Ok (-1) /\ truncated minus_half = Some 0.
Proof. split; vm_compute; reflexivity. Qed.

(** C6 at the amount 0.0011.  The product 0.0011 * 10**18 is the double
    1100000000000000.125.  createEscrow and releaseEscrow floor it and
    send 1100000000000000 base units; refundEscrow hands it to BigInt as
    it is, which throws, so the cancel of such a bounty is answered 500
    and the bounty stays as it was. *)
Lemma refund_does_not_truncate :
  let w := run [fund out_ok 10 (post eleven_tenthousandths);
                claim 20 1 (Some 2)] world0 in
  let released := BountyController.completeBounty out_ok 10 1 w in
  let refunded := BountyController.cancelBounty out_ok 10 1 None w in
  mul eleven_tenthousandths ten18 = S754_finite false 8800000000000001 (-3) /\
  In (Sent "0xe5c0" 1100000000000000 "0xtx:0xe5c0:1100000000000000") (events w) /\
  code (fst released) = 200 /\
  In (Sent "0xbbb2" 1100000000000000 "0xtx:0xbbb2:1100000000000000")
     (events (snd released)) /\
  fst refunded =
  mkResponse 500
    (error_body "Failed to cancel bounty"
       (Some "Failed to refund escrow: The number cannot be converted to a BigInt because it is not an integer"%string)) /\
  bounties (snd refunded) = bounties w /\
  status_of 1 (snd refunded) = Some CLAIMED.
Proof.
  vm_compute. repeat split.
  - right. left. reflexivity.
  - right. right. right. left. reflexivity.
Qed.

(** ** Deleting a wallet *)

Lemma find_bounty_skip (j : Z) (pre l : list Bounty) :
  (forall p, In p pre -> id p <> j) ->
  find_bounty j (pre ++ l) = find_bounty j l.
Proof.
  induction pre as [|p pre IH]; intro H; simpl; [reflexivity|].
  destruct (id p =? j) eqn:E.
  - apply Z.eqb_eq in E. exfalso. apply (H p); [now left | exact E].
  - apply IH. intros q Hq. apply H. now right.
Qed.

Lemma update_bounty_skip (j : Z) (f : Bounty -> Bounty) (pre l : list Bounty) :
  (forall p, In p pre -> id p <> j) ->
  update_bounty j f (pre ++ l) = pre ++ update_bounty j f l.
Proof.
  induction pre as [|p pre IH]; intro H; simpl; [reflexivity|].
  destruct (id p =? j) eqn:E.
  - apply Z.eqb_eq in E. exfalso. apply (H p); [now left | exact E].
  - f_equal. apply IH. intros q Hq. apply H. now right.
Qed.

Lemma set_bounties_same (w : World) : set_bounties (bounties w) w = w.
Proof. now destruct w. Qed.

Lemma detach_loop (i : Z) (suf pre : list Bounty) (w : World) :
  bounties w = pre ++ suf ->
  (forall p s, In p pre -> In s suf -> id p <> id s) ->
  NoDup (map id suf) ->
  WalletController.for_each (filter (WalletController.references i) suf)
    (fun bounty =>
       prisma_bounty_update (id bounty) (WalletController.detach_data i bounty) ;;;
       ret tt) w =
  (Ok tt, set_bounties (pre ++ map (detached i) suf) w).
Proof.
  revert pre w.
  induction suf as [|b s IH]; intros pre w Hw Hdis Hnd.
  - simpl. rewrite <- Hw. now rewrite set_bounties_same.
  - inversion Hnd as [|? ? Hnotin Hnd']; subst.
    assert (Hpre : forall p, In p pre -> id p <> id b)
      by (intros p Hp; apply Hdis; [exact Hp | now left]).
    assert (Hdis' : forall q, forall p s0,
               id q = id b -> In p (pre ++ [q]) -> In s0 s -> id p <> id s0).
    { intros q p s0 Hq Hp Hs0. apply in_app_iff in Hp.
      destruct Hp as [Hp | [<- | []]].
      - apply Hdis; [exact Hp | now right].
      - rewrite Hq. intro Heq. apply Hnotin. rewrite Heq. now apply in_map. }
    simpl filter. simpl map. unfold detached at 1.
    destruct (WalletController.references i b) eqn:R.
    + simpl WalletController.for_each. unfold bind at 1.
      unfold bind at 1, prisma_bounty_update.
      rewrite Hw, find_bounty_skip by exact Hpre.
      simpl find_bounty. rewrite Z.eqb_refl.
      rewrite update_bounty_skip by exact Hpre.
      simpl update_bounty. rewrite Z.eqb_refl. unfold ret at 1.
      rewrite (IH (pre ++ [WalletController.detach_data i b b])).
      * f_equal. unfold set_bounties. simpl. now rewrite <- app_assoc.
      * simpl. now rewrite <- app_assoc.
      * intros p s0. now apply Hdis'.
      * exact Hnd'.
    + rewrite (IH (pre ++ [b])).
      * simpl. now rewrite <- app_assoc.
      * now rewrite <- app_assoc.
      * intros p s0. now apply Hdis'.
      * exact Hnd'.
Qed.

Lemma same_Some (x : option Z) (i : Z) : same x (Some i) = true <-> x = Some i.
Proof.
  destruct x as [z|]; simpl; [|split; discriminate].
  rewrite Z.eqb_eq. split; congruence.
Qed.

Lemma nulled_is_not (x : option Z) (i : Z) :
  (if same x (Some i) then None else x) <> Some i.
Proof.
  destruct (same x (Some i)) eqn:E; [discriminate|].
  intro H. apply same_Some in H. congruence.
Qed.

Lemma detached_unreferenced (i : Z) (b : Bounty) :
  ownerWalletId (detached i b) <> Some i /\
  hunterWalletId (detached i b) <> Some i.
Proof.
  unfold detached.
  destruct (WalletController.references i b) eqn:R; simpl.
  - split; apply nulled_is_not.
  - unfold WalletController.references in R.
    apply orb_false_iff in R. destruct R as [Ro Rh].
    split; intro H; apply same_Some in H; congruence.
Qed.

Lemma find_wallet_In (i : Z) (rows : list Wallet) (x : Wallet) :
  find_wallet i rows = Some x -> In i (map wallet_id rows).
Proof.
  induction rows as [|y rest IH]; simpl; [discriminate|].
  destruct (Z.eqb_spec (wallet_id y) i); [now left | intro H; right; auto].
Qed.

Lemma find_wallet_deleted (i : Z) (rows : list Wallet) :
  NoDup (map wallet_id rows) ->
  find_wallet i (WalletController.delete_wallet i rows) = None.
Proof.
  induction rows as [|y rest IH]; simpl; intro Hnd; [reflexivity|].
  inversion Hnd as [|? ? Hnotin Hnd']; subst.
  destruct (Z.eqb_spec (wallet_id y) i) as [<-|Hne].
  - destruct (find_wallet (wallet_id y) rest) eqn:E; [|reflexivity].
    exfalso. apply Hnotin. eapply find_wallet_In; eauto.
  - simpl. destruct (Z.eqb_spec (wallet_id y) i); [contradiction | auto].
Qed.

Lemma find_wallet_promoted (i k : Z) (rows : list Wallet) :
  find_wallet i rows = None ->
  find_wallet i (update_wallet k WalletController.make_default rows) = None.
Proof.
  induction rows as [|y rest IH]; simpl; [reflexivity|].
  destruct (wallet_id y =? i) eqn:E; [discriminate|]. intro H.
  destruct (wallet_id y =? k); simpl; rewrite E; auto.
Qed.

Lemma deleteWallet_eq (choice : nat) (user i : Z) (force : WalletController.Query)
    (w : World) (x : Wallet) :
  find_wallet i (wallets w) = Some x ->
  userId x = user ->
  NoDup (map id (bounties w)) ->
  WalletController.deleteWallet choice user i force w =
  let N := List.length (filter (WalletController.references i) (bounties w)) in
  if (0 <? N)%nat && negb (WalletController.forced force)
  then (Conflict N, w)
  else
    let w1 := if (0 <? N)%nat && WalletController.forced force
              then set_bounties (map (detached i) (bounties w)) w
              else w in
    let w2 := set_wallets (WalletController.delete_wallet i (wallets w1)) w1 in
    let w3 := if isDefault x
              then match WalletController.findFirst choice
                           (WalletController.wallets_of user (wallets w2)) with
                   | Some another =>
                       set_wallets
                         (update_wallet (wallet_id another)
                            WalletController.make_default (wallets w2)) w2
                   | None => w2
                   end
              else w2 in
    (mkResponse 200 (message_body "Wallet deleted successfully"), w3).
Proof.
  intros Hx Hu Hb.
  unfold WalletController.deleteWallet, respond_plain.
  unfold bind at 1. unfold prisma_wallet_findUnique.
  rewrite Hx, Hu, Z.eqb_refl. change (negb true) with false.
  cbv iota beta zeta.
  destruct ((0 <? _)%nat && negb _); [reflexivity|].
  unfold bind at 1.
  destruct ((0 <? _)%nat && WalletController.forced force).
  - rewrite (detach_loop i (bounties w) [] w eq_refl)
      by (simpl; tauto || exact Hb).
    simpl app. unfold bind at 1. unfold bind at 1.
    destruct (isDefault x); [|reflexivity].
    match goal with
    | |- context [WalletController.findFirst choice ?l] =>
        destruct (WalletController.findFirst choice l); reflexivity
    end.
  - unfold ret at 1. unfold bind at 1. unfold bind at 1.
    destruct (isDefault x); [|reflexivity].
    match goal with
    | |- context [WalletController.findFirst choice ?l] =>
        destruct (WalletController.findFirst choice l); reflexivity
    end.
Qed.

(** C9. For every wallet of the requesting user that N > 0 bounties refer
    to (as owner or hunter wallet), in a database whose keys are unique:
    deleteWallet without force is answered Conflict (400) with
    bountyCount = N and changes nothing; deleteWallet with force is
    answered 200, every referring bounty has each field that named the
    wallet set to null (and nothing else changed, nor any other bounty),
    no bounty refers to the wallet any more, and the wallet is gone. *)
Theorem deleteWallet_with_references (choice : nat)
    (user i : Z) (force : WalletController.Query) (w : World) (x : Wallet) :
  find_wallet i (wallets w) = Some x ->
  userId x = user ->
  NoDup (map id (bounties w)) ->
  NoDup (map wallet_id (wallets w)) ->
  let N := List.length (filter (WalletController.references i) (bounties w)) in
  (0 < N)%nat ->
  let end_ := WalletController.deleteWallet choice user i force w in
  (WalletController.forced force = false -> end_ = (Conflict N, w)) /\
  (WalletController.forced force = true ->
   code (fst end_) = 200 /\
   bounties (snd end_) = map (detached i) (bounties w) /\
   (forall b, In b (bounties (snd end_)) ->
              ownerWalletId b <> Some i /\ hunterWalletId b <> Some i) /\
   find_wallet i (wallets (snd end_)) = None).
Proof.
  intros Hx Hu Hb Hw N HN end_. subst end_.
  rewrite (deleteWallet_eq choice user i force w x Hx Hu Hb).
  fold N. cbv zeta. apply Nat.ltb_lt in HN. rewrite HN.
  split; intros Hf; rewrite Hf; simpl andb; cbv iota; [reflexivity|].
  set (w1 := set_bounties (map (detached i) (bounties w)) w).
  set (w2 := set_wallets (WalletController.delete_wallet i (wallets w1)) w1).
  assert (Hgone : find_wallet i (wallets w2) = None)
    by (apply find_wallet_deleted; exact Hw).
  assert (Hfinal : forall w3,
             bounties w3 = map (detached i) (bounties w) ->
             find_wallet i (wallets w3) = None ->
             bounties w3 = map (detached i) (bounties w) /\
             (forall b, In b (bounties w3) ->
                        ownerWalletId b <> Some i /\ hunterWalletId b <> Some i) /\
             find_wallet i (wallets w3) = None).
  { intros w3 H3 G3. repeat split; auto;
      rewrite H3 in H; apply in_map_iff in H; destruct H as (b0 & <- & _);
      apply detached_unreferenced. }
  split; [reflexivity|]. cbn [snd].
  destruct (isDefault x); [|now apply Hfinal].
  destruct (WalletController.findFirst choice
              (WalletController.wallets_of user (wallets w2))) as [another|];
    [|now apply Hfinal].
  apply Hfinal; [reflexivity|]. simpl. now apply find_wallet_promoted.
Qed.

(** Bounty 1 names wallet 1 as owner wallet, bounty 2 names it as hunter
    wallet, bounty 3 does not name it. *)
Lemma deleteWallet_with_references_witness :
  let w := run [fund out_ok 10 (post two_and_a_half);
                fund out_ok 10 (post two_and_a_half);
                claim 10 2 (Some 1);
                fund out_ok 20
                  (BountyController.mkCreateBody "octo" "repo" 8
                     two_and_a_half (Some 2))] world0 in
  let kept := WalletController.deleteWallet 0 10 1 WalletController.absent w in
  let gone := WalletController.deleteWallet 0 10 1 (WalletController.word "true") w in
  kept = (Conflict 2, w) /\
  code (fst gone) = 200 /\
  bounties (snd gone) = map (detached 1) (bounties w) /\
  (forall b, In b (bounties (snd gone)) ->
             ownerWalletId b <> Some 1 /\ hunterWalletId b <> Some 1) /\
  find_wallet 1 (wallets (snd gone)) = None.
Proof.
  intros w kept gone.
  assert (Hx : find_wallet 1 (wallets w) = Some lister_wallet)
    by (vm_compute; reflexivity).
  assert (Hb : NoDup (map id (bounties w))).
  { assert (E : map id (bounties w) = [1; 2; 3]) by (vm_compute; reflexivity).
    rewrite E. repeat constructor; simpl; lia. }
  assert (Hw : NoDup (map wallet_id (wallets w))).
  { assert (E : map wallet_id (wallets w) = [1; 2; 3])
      by (vm_compute; reflexivity).
    rewrite E. repeat constructor; simpl; lia. }
  assert (HN : (0 < List.length
                      (filter (WalletController.references 1) (bounties w)))%nat).
  { assert (E : List.length
                  (filter (WalletController.references 1) (bounties w)) = 2%nat)
      by (vm_compute; reflexivity).
    rewrite E. lia. }
  split.
  - assert (E : List.length
                  (filter (WalletController.references 1) (bounties w)) = 2%nat)
      by (vm_compute; reflexivity).
    rewrite <- E.
    exact (proj1 (deleteWallet_with_references 0 10 1 WalletController.absent w
                    lister_wallet Hx eq_refl Hb Hw HN) eq_refl).
  - exact (proj2 (deleteWallet_with_references 0 10 1 (WalletController.word "true")
                    w lister_wallet Hx eq_refl Hb Hw HN) eq_refl).
Defined.

(** ** Creating a wallet *)

(** C10. createWallet does not read the default flag of the request: two
    requests that differ in it alone get the same answer and leave the
    same database.  A created wallet is appended for the requesting user
    with the flag the answer shows; that flag is true when the user has no
    wallet, and, when the query counting the user's wallets answers, false
    when the user has one already. *)
Theorem createWallet_ignores_requested_default
    (out : Outside) (user : option Z) (req : WalletController.CreateBody)
    (w : World) :
  (forall flag,
      WalletController.createWallet out user
        (WalletController.mkCreateBody
           (WalletController.body_walletName req)
           (WalletController.body_privateKey req)
           (WalletController.body_publicKey req)
           (WalletController.body_generateNewKey req) flag) w =
      WalletController.createWallet out user req w) /\
  (forall wid name pub dflt w',
      WalletController.createWallet out user req w =
      (mkResponse 201 (wallet_body wid name pub dflt), w') ->
      exists u x,
        user = Some u /\
        wallets w' = wallets w ++ [x] /\
        wallet_id x = wid /\ userId x = u /\ isDefault x = dflt /\
        (WalletController.wallets_of u (wallets w) = [] -> dflt = true) /\
        (wallet_count_rejects out = false ->
         WalletController.wallets_of u (wallets w) <> [] -> dflt = false)).
Proof.
  split; [reflexivity|].
  intros wid name pub dflt w'.
  unfold WalletController.createWallet.
  destruct user as [u|]; [|discriminate].
  destruct (u =? 0); [discriminate|].
  destruct (negb (WalletController.given _)); [discriminate|].
  destruct (negb _ && negb _); [discriminate|].
  destruct (WalletController.choose_keys out req) as [r | [privateKey pk]] eqn:K.
  - unfold WalletController.choose_keys in K.
    destruct (_ || _) in K.
    + destruct (generateKeyPair out); [discriminate|].
      injection K as <-. discriminate.
    + destruct (keyFromPrivate out _); [discriminate|].
      injection K as <-. discriminate.
  - destruct (encryptPrivateKey out privateKey) as [[encrypted vector]|];
      [|discriminate].
    cbv zeta. simpl. intros [= <- <- <- <- <-].
    eexists u, _. repeat split.
    + intros ->. now destruct (wallet_count_rejects out).
    + intros -> Hsome.
      destruct (WalletController.wallets_of u (wallets w));
        [contradiction | reflexivity].
Qed.

(** User 10 has a wallet and asks for a default one; user 40 has none and
    asks for a wallet that is not the default. *)
Lemma createWallet_ignores_requested_default_witness :
  let later := WalletController.mkCreateBody (Some "second"%string) None None
                 true (Some true) in
  let first := WalletController.mkCreateBody (Some "first"%string) None None
                 true (Some false) in
  fst (WalletController.createWallet out_ok (Some 10) later world0) =
  mkResponse 201 (wallet_body 4 "second" "0xnewpublic" false) /\
  fst (WalletController.createWallet out_ok (Some 40) first world0) =
  mkResponse 201 (wallet_body 4 "first" "0xnewpublic" true) /\
  exists u x,
    Some 10 = Some u /\
    wallets (snd (WalletController.createWallet out_ok (Some 10) later world0)) =
    wallets world0 ++ [x] /\
    wallet_id x = 4 /\ userId x = u /\ isDefault x = false /\
    (WalletController.wallets_of u (wallets world0) = [] -> false = true) /\
    (wallet_count_rejects out_ok = false ->
     WalletController.wallets_of u (wallets world0) <> [] -> false = false).
Proof.
  intros later first.
  split; [vm_compute; reflexivity|]. split; [vm_compute; reflexivity|].
  exact (proj2 (createWallet_ignores_requested_default out_ok (Some 10) later
                  world0)
           4 "second"%string "0xnewpublic"%string false
           (snd (WalletController.createWallet out_ok (Some 10) later world0))
           eq_refl).
Defined.

(** * Further properties *)

(** ** Primary keys *)

Lemma below_next_id (l : list Z) (x : Z) : In x l -> x < next_id l.
Proof.
  unfold next_id. induction l as [|y l IH]; cbn [fold_right In]; [tauto|].
  intros [<- | H]; [lia | specialize (IH H); lia].
Qed.

Lemma NoDup_next_id (l : list Z) : NoDup l -> NoDup (l ++ [next_id l]).
Proof.
  intro H. apply NoDup_app; [exact H | repeat constructor; simpl; tauto |].
  intros x Hx [<- | []]. apply below_next_id in Hx. lia.
Qed.

Lemma ids_update_bounty (i : Z) (f : Bounty -> Bounty) (rows : list Bounty) :
  (forall b, id (f b) = id b) ->
  map id (update_bounty i f rows) = map id rows.
Proof.
  intro Hf. induction rows as [|b rows IH]; simpl; [reflexivity|].
  destruct (id b =? i); simpl; [now rewrite Hf | now rewrite IH].
Qed.

Lemma ids_update_wallet (i : Z) (f : Wallet -> Wallet) (rows : list Wallet) :
  (forall x, wallet_id (f x) = wallet_id x) ->
  map wallet_id (update_wallet i f rows) = map wallet_id rows.
Proof.
  intro Hf. induction rows as [|x rows IH]; simpl; [reflexivity|].
  destruct (wallet_id x =? i); simpl; [now rewrite Hf | now rewrite IH].
Qed.

Lemma In_delete_wallet (i : Z) (rows : list Wallet) (x : Wallet) :
  In x (WalletController.delete_wallet i rows) -> In x rows.
Proof.
  induction rows as [|y rows IH]; simpl; [tauto|].
  destruct (wallet_id y =? i); simpl; [tauto|].
  intros [<- | H]; auto.
Qed.

Lemma NoDup_delete_wallet (i : Z) (rows : list Wallet) :
  NoDup (map wallet_id rows) ->
  NoDup (map wallet_id (WalletController.delete_wallet i rows)).
Proof.
  induction rows as [|y rows IH]; simpl; intro H; [constructor|].
  inversion H as [|? ? Hy Hrows]; subst.
  destruct (wallet_id y =? i); [exact Hrows|].
  simpl. constructor; [|auto].
  intro Hin. apply Hy. apply in_map_iff in Hin.
  destruct Hin as (x & Hx & Hin). apply In_delete_wallet in Hin.
  rewrite <- Hx. now apply in_map.
Qed.

Lemma find_wallet_map (g : Wallet -> Wallet) (i : Z) (rows : list Wallet) :
  (forall x, wallet_id (g x) = wallet_id x) ->
  find_wallet i (map g rows) = option_map g (find_wallet i rows).
Proof.
  intro Hg. induction rows as [|x rows IH]; simpl; [reflexivity|].
  rewrite Hg. destruct (wallet_id x =? i); [reflexivity | exact IH].
Qed.

Lemma find_wallet_found (i : Z) (rows : list Wallet) (x : Wallet) :
  find_wallet i rows = Some x -> wallet_id x = i /\ In x rows.
Proof.
  induction rows as [|y rows IH]; simpl; [discriminate|].
  destruct (Z.eqb_spec (wallet_id y) i).
  - intros [= <-]. auto.
  - intro H. destruct (IH H). auto.
Qed.

Lemma find_wallet_unique (rows : list Wallet) (x : Wallet) :
  NoDup (map wallet_id rows) -> In x rows ->
  find_wallet (wallet_id x) rows = Some x.
Proof.
  induction rows as [|y rows IH]; simpl; [tauto|].
  intros Hnd Hin. inversion Hnd as [|? ? Hy Hrows]; subst.
  destruct Hin as [<- | Hin]; [now rewrite Z.eqb_refl|].
  destruct (Z.eqb_spec (wallet_id y) (wallet_id x)) as [E|E]; [|auto].
  exfalso. apply Hy. rewrite E. now apply in_map.
Qed.

Lemma cleared_id (user : Z) (x : Wallet) : wallet_id (cleared user x) = wallet_id x.
Proof. unfold cleared. now destruct (_ && _). Qed.

Lemma cleared_userId (user : Z) (x : Wallet) : userId (cleared user x) = userId x.
Proof. unfold cleared. now destruct (_ && _). Qed.

(** *** What the wallet handlers do, case by case *)

Lemma updateWallet_eq (user i : Z) (req : WalletStore.UpdateBody) (w : World) :
  WalletStore.updateWallet user i req w =
  match find_wallet i (wallets w) with
  | None => (mkResponse 404 (error_body "Wallet not found" None), w)
  | Some x =>
      if negb (userId x =? user)
      then (mkResponse 403 (error_body "Unauthorized access to wallet" None), w)
      else
        let g := if WalletStore.asks_default req then cleared user
                 else fun y => y in
        (mkResponse 200 (WalletStore.shown (WalletStore.update_data req (g x))),
         set_wallets
           (update_wallet i (WalletStore.update_data req) (map g (wallets w))) w)
  end.
Proof.
  unfold WalletStore.updateWallet, respond_plain.
  unfold bind at 1. unfold prisma_wallet_findUnique.
  destruct (find_wallet i (wallets w)) as [x|] eqn:Hx; [|reflexivity].
  destruct (negb (userId x =? user)); [reflexivity|].
  cbv zeta. unfold bind at 1.
  destruct (WalletStore.asks_default req).
  - unfold WalletStore.clear_defaults. unfold bind.
    unfold WalletStore.prisma_wallet_update. simpl wallets.
    change (map _ (wallets w)) with (map (cleared user) (wallets w)).
    rewrite find_wallet_map, Hx by apply cleared_id. reflexivity.
  - unfold ret at 1. unfold bind. unfold WalletStore.prisma_wallet_update.
    rewrite map_id, Hx. reflexivity.
Qed.

Lemma deleteWallet_refused (choice : nat) (user i : Z) (force : WalletController.Query)
    (w : World) :
  (find_wallet i (wallets w) = None \/
   exists x, find_wallet i (wallets w) = Some x /\ userId x <> user) ->
  snd (WalletController.deleteWallet choice user i force w) = w /\
  (code (fst (WalletController.deleteWallet choice user i force w)) = 404 \/
   code (fst (WalletController.deleteWallet choice user i force w)) = 403).
Proof.
  unfold WalletController.deleteWallet, respond_plain, bind, prisma_wallet_findUnique.
  intros [-> | (x & -> & Hx)]; simpl; [auto|].
  apply Z.eqb_neq in Hx. rewrite Hx. simpl. auto.
Qed.

Lemma createWallet_cases (out : Outside) (user : option Z)
    (req : WalletController.CreateBody) (w : World) :
  snd (WalletController.createWallet out user req w) = w \/
  exists u x,
    user = Some u /\
    snd (WalletController.createWallet out user req w) =
    set_wallets (wallets w ++ [x]) w /\
    wallet_id x = next_id (map wallet_id (wallets w)) /\
    userId x = u /\
    isDefault x =
    (if wallet_count_rejects out then true
     else Nat.eqb (List.length (WalletController.wallets_of u (wallets w))) 0).
Proof.
  unfold WalletController.createWallet.
  destruct user as [u|]; [|now left].
  destruct (u =? 0); [now left|].
  destruct (negb (WalletController.given _)); [now left|].
  destruct (negb _ && negb _); [now left|].
  destruct (WalletController.choose_keys out req) as [r | [privateKey pk]];
    [now left|].
  destruct (encryptPrivateKey out privateKey) as [[encrypted vector]|];
    [|now left].
  right. eexists u, _. repeat split.
  simpl. now destruct (wallet_count_rejects out).
Qed.

Lemma step_wallets (o : Op) (w : World) : wallets (snd (step o w)) = wallets w.
Proof.
  destruct o as [out user req | user j wid | out user j | out user j refund];
    simpl.
  - rewrite createBounty_eq.
    repeat match goal with
    | |- context [if ?c then _ else _] => destruct c; [reflexivity|]
    | |- context [match BountyController.walletId req with _ => _ end] =>
        destruct (BountyController.walletId req); [|reflexivity]
    | |- context [match github_issue_state out with _ => _ end] =>
        destruct (github_issue_state out); [|reflexivity]
    end.
    destruct (Radius.createEscrow _ _ _ _ _) as [[escrow|m] w1] eqn:R;
      [destruct (bounty_create_rejects out)|]; simpl;
      apply (quiet_at _ _ _ _ (quiet_createEscrow _ _ _ _) R).
  - rewrite claimBounty_eq.
    destruct (negb (truthy wid)); [reflexivity|].
    destruct (find_bounty j (bounties w)); [|reflexivity].
    now destruct (negb _).
  - rewrite completeBounty_eq.
    destruct (find_bounty j (bounties w)); [|reflexivity].
    destruct (negb _); [reflexivity|]. destruct (negb _); [reflexivity|].
    destruct (Radius.releaseEscrow _ _ _ _ _ _) as [[tx|m] w1] eqn:R; simpl;
      apply (quiet_at _ _ _ _ (quiet_releaseEscrow _ _ _ _ _) R).
  - rewrite cancelBounty_eq.
    destruct (find_bounty j (bounties w)); [|reflexivity].
    destruct (negb _); [reflexivity|]. destruct (negb _ && _); [reflexivity|].
    destruct (Radius.refundEscrow _ _ _ _ _ _) as [[tx|m] w1] eqn:R; simpl;
      apply (quiet_at _ _ _ _ (quiet_refundEscrow _ _ _ _ _) R).
Qed.

Lemma step_ids (o : Op) (w : World) :
  map id (bounties (snd (step o w))) = map id (bounties w) \/
  map id (bounties (snd (step o w))) =
  map id (bounties w) ++ [next_id (map id (bounties w))].
Proof.
  destruct o as [out user req | user j wid | out user j | out user j refund];
    simpl.
  - rewrite createBounty_eq.
    repeat match goal with
    | |- context [if ?c then _ else _] => destruct c; [now left|]
    | |- context [match BountyController.walletId req with _ => _ end] =>
        destruct (BountyController.walletId req); [|now left]
    | |- context [match github_issue_state out with _ => _ end] =>
        destruct (github_issue_state out); [|now left]
    end.
    destruct (Radius.createEscrow _ _ _ _ _) as [[escrow|m] w1] eqn:R; simpl.
    + destruct (bounty_create_rejects out); simpl;
        [left; now rewrite (proj1 (quiet_at _ _ _ _ (quiet_createEscrow _ _ _ _) R))|].
      right. now rewrite map_app.
    + left. now rewrite (proj1 (quiet_at _ _ _ _ (quiet_createEscrow _ _ _ _) R)).
  - left. rewrite claimBounty_eq.
    destruct (negb (truthy wid)); [reflexivity|].
    destruct (find_bounty j (bounties w)); [|reflexivity].
    destruct (negb _); [reflexivity|]. simpl.
    now apply ids_update_bounty.
  - left. rewrite completeBounty_eq.
    destruct (find_bounty j (bounties w)); [|reflexivity].
    destruct (negb _); [reflexivity|]. destruct (negb _); [reflexivity|].
    destruct (Radius.releaseEscrow _ _ _ _ _ _) as [[tx|m] w1] eqn:R; simpl.
    + now apply ids_update_bounty.
    + now rewrite (proj1 (quiet_at _ _ _ _ (quiet_releaseEscrow _ _ _ _ _) R)).
  - left. rewrite cancelBounty_eq.
    destruct (find_bounty j (bounties w)); [|reflexivity].
    destruct (negb _); [reflexivity|]. destruct (negb _ && _); [reflexivity|].
    destruct (Radius.refundEscrow _ _ _ _ _ _) as [[tx|m] w1] eqn:R; simpl.
    + now apply ids_update_bounty.
    + now rewrite (proj1 (quiet_at _ _ _ _ (quiet_refundEscrow _ _ _ _ _) R)).
Qed.

Lemma detached_id (i : Z) (b : Bounty) : id (detached i b) = id b.
Proof. unfold detached. now destruct (WalletController.references i b). Qed.

Lemma deleteWallet_tables (choice : nat) (user i : Z) (force : WalletController.Query)
    (w : World) :
  NoDup (map id (bounties w)) ->
  let w' := snd (WalletController.deleteWallet choice user i force w) in
  (bounties w' = bounties w \/ bounties w' = map (detached i) (bounties w)) /\
  (wallets w' = wallets w \/
   exists x,
     find_wallet i (wallets w) = Some x /\ userId x = user /\
     wallets w' = wallets_after_delete choice user i x (wallets w)).
Proof.
  intros Hb w'. subst w'.
  destruct (find_wallet i (wallets w)) as [x|] eqn:Hx.
  2:{ destruct (deleteWallet_refused choice user i force w) as [-> _]; auto. }
  destruct (Z.eq_dec (userId x) user) as [Hu|Hu].
  2:{ destruct (deleteWallet_refused choice user i force w) as [-> _]; eauto. }
  rewrite (deleteWallet_eq choice user i force w x Hx Hu Hb). cbv zeta.
  destruct (_ && negb _); [auto|].
  split.
  - destruct (_ && WalletController.forced force); simpl;
      destruct (isDefault x); simpl; auto;
      match goal with
      | |- context [WalletController.findFirst choice ?l] =>
          destruct (WalletController.findFirst choice l); simpl; auto
      end.
  - right. exists x. repeat split; [exact Hu|].
    unfold wallets_after_delete.
    destruct (_ && WalletController.forced force); simpl;
      destruct (isDefault x); simpl; auto;
      match goal with
      | |- context [WalletController.findFirst choice ?l] =>
          destruct (WalletController.findFirst choice l); reflexivity
      end.
Qed.

Lemma findFirst_In (choice : nat) (rows : list Wallet) (x : Wallet) :
  WalletController.findFirst choice rows = Some x -> In x rows.
Proof. unfold WalletController.findFirst. apply nth_error_In. Qed.

Lemma findFirst_None (choice : nat) (rows : list Wallet) :
  WalletController.findFirst choice rows = None -> rows = [].
Proof.
  unfold WalletController.findFirst. intro H. apply nth_error_None in H.
  destruct rows as [|y rows]; [reflexivity|]. exfalso.
  pose proof (Nat.mod_upper_bound choice (List.length (y :: rows))) as Hlt.
  simpl in *. lia.
Qed.

Lemma unique_after_delete (choice : nat) (user i : Z) (x : Wallet) (rows : list Wallet) :
  NoDup (map wallet_id rows) ->
  NoDup (map wallet_id (wallets_after_delete choice user i x rows)).
Proof.
  intro H. unfold wallets_after_delete.
  pose proof (NoDup_delete_wallet i rows H) as H'.
  destruct (isDefault x); [|exact H'].
  destruct (WalletController.findFirst choice _); [|exact H'].
  now rewrite ids_update_wallet.
Qed.

Lemma serve_unique_keys (c : Call) (w : World) :
  unique_keys w -> unique_keys (snd (serve c w)).
Proof.
  intros [Hb Hw]. unfold unique_keys.
  destruct c as [o | out user req | user i req | choice user i force]; simpl.
  - rewrite step_wallets. split; [|exact Hw].
    destruct (step_ids o w) as [-> | ->]; [exact Hb | now apply NoDup_next_id].
  - destruct (createWallet_cases out user req w)
      as [-> | (u & x & _ & -> & Hid & _)]; [auto|].
    simpl. split; [exact Hb|].
    rewrite map_app. simpl. rewrite Hid. now apply NoDup_next_id.
  - rewrite updateWallet_eq.
    destruct (find_wallet i (wallets w)); [|auto].
    destruct (negb _); [auto|]. simpl. split; [exact Hb|].
    rewrite ids_update_wallet by reflexivity.
    destruct (WalletStore.asks_default req); [|now rewrite map_id].
    rewrite map_map.
    erewrite map_ext; [exact Hw|]. intro y. apply cleared_id.
  - destruct (deleteWallet_tables choice user i force w Hb) as [Hrows Hws].
    split.
    + destruct Hrows as [-> | ->]; [exact Hb|].
      rewrite map_map. erewrite map_ext; [exact Hb|].
      intro b. apply detached_id.
    + destruct Hws as [-> | (x & _ & _ & ->)]; [exact Hw|].
      now apply unique_after_delete.
Qed.

(** X1. Primary keys stay unique: whatever calls the backend serves
    (the four bounty operations, createWallet, updateWallet, deleteWallet),
    no two bounties and no two wallets ever share an id. *)
Theorem keys_stay_unique (calls : list Call) (w : World) :
  unique_keys w -> unique_keys (serve_all calls w).
Proof.
  revert w. induction calls as [|c calls IH]; intros w H; [exact H|].
  change (serve_all (c :: calls) w) with (serve_all calls (snd (serve c w))).
  apply IH. now apply serve_unique_keys.
Qed.

Lemma keys_stay_unique_witness :
  unique_keys
    (serve_all
       [bounty_call (fund out_ok 10 (post two_and_a_half));
        create_wallet out_ok (Some 10)
          (WalletController.mkCreateBody (Some "b"%string) None None true None);
        delete_wallet_call 0 10 1 (WalletController.word "true");
        bounty_call (fund out_ok 20
                       (BountyController.mkCreateBody "octo" "repo" 8
                          two_and_a_half (Some 2)))]
       world0).
Proof.
  apply keys_stay_unique.
  split; simpl; repeat constructor; simpl; lia.
Defined.

(** ** Default wallets *)

Lemma defaults_cleared_self (user : Z) (rows : list Wallet) :
  defaults_of user (map (cleared user) rows) = [].
Proof.
  induction rows as [|x rows IH]; simpl; [reflexivity|].
  rewrite cleared_userId. unfold cleared at 1.
  destruct (userId x =? user) eqn:E; simpl; [|exact IH].
  destruct (isDefault x) eqn:D; simpl; [exact IH | now rewrite D].
Qed.

Lemma defaults_cleared_other (user u : Z) (rows : list Wallet) :
  u <> user ->
  defaults_of u (map (cleared user) rows) = defaults_of u rows.
Proof.
  intro Hne. induction rows as [|x rows IH]; simpl; [reflexivity|].
  rewrite cleared_userId, IH. unfold cleared.
  destruct (Z.eqb_spec (userId x) user) as [E|E]; simpl; [|reflexivity].
  destruct (Z.eqb_spec (userId x) u); [congruence | reflexivity].
Qed.

Lemma defaults_update_other (f : Wallet -> Wallet) (user u i : Z)
    (rows : list Wallet) (x : Wallet) :
  (forall y, userId (f y) = userId y) ->
  find_wallet i rows = Some x -> userId x = user -> u <> user ->
  defaults_of u (update_wallet i f rows) = defaults_of u rows.
Proof.
  intros Hf Hx Hu Hne. revert Hx.
  induction rows as [|y rows IH]; simpl; [discriminate|].
  destruct (wallet_id y =? i); simpl.
  - intros [= ->]. rewrite Hf, Hu.
    destruct (Z.eqb_spec user u); [congruence | reflexivity].
  - intro H. now rewrite IH.
Qed.

Lemma defaults_update_S (f : Wallet -> Wallet) (u i : Z) (rows : list Wallet) :
  (List.length (defaults_of u (update_wallet i f rows))
   <= S (List.length (defaults_of u rows)))%nat.
Proof.
  induction rows as [|y rows IH]; simpl; [lia|].
  destruct (wallet_id y =? i); simpl.
  - destruct (_ && _), (_ && _); simpl; lia.
  - destruct (_ && _); simpl; lia.
Qed.

Lemma defaults_update_le (f : Wallet -> Wallet) (u i : Z) (rows : list Wallet) :
  (forall y, userId (f y) = userId y) ->
  (forall y, isDefault (f y) = true -> isDefault y = true) ->
  (List.length (defaults_of u (update_wallet i f rows))
   <= List.length (defaults_of u rows))%nat.
Proof.
  intros Hf Hd. induction rows as [|y rows IH]; simpl; [lia|].
  destruct (wallet_id y =? i); simpl.
  - rewrite Hf. destruct (userId y =? u); simpl; [|lia].
    destruct (isDefault (f y)) eqn:E; simpl.
    + rewrite (Hd y E). simpl. lia.
    + destruct (isDefault y); simpl; lia.
  - destruct (_ && _); simpl; lia.
Qed.

Lemma defaults_deleted (u i : Z) (rows : list Wallet) (x : Wallet) :
  find_wallet i rows = Some x ->
  List.length (defaults_of u rows) =
  (List.length (defaults_of u (WalletController.delete_wallet i rows))
   + (if (userId x =? u)%Z && isDefault x then 1 else 0))%nat.
Proof.
  unfold defaults_of.
  induction rows as [|y rows IH]; simpl; [discriminate|].
  destruct (wallet_id y =? i); simpl.
  - intros [= ->]. destruct (_ && _); simpl; lia.
  - intro H. specialize (IH H).
    destruct ((userId y =? u) && isDefault y); simpl; lia.
Qed.

Lemma defaults_among_wallets (u : Z) (rows : list Wallet) :
  WalletController.wallets_of u rows = [] -> defaults_of u rows = [].
Proof.
  unfold WalletController.wallets_of.
  induction rows as [|y rows IH]; simpl; [reflexivity|].
  destruct (userId y =? u); simpl; [discriminate | exact IH].
Qed.

Lemma wallets_of_In (u : Z) (rows : list Wallet) (x : Wallet) :
  In x (WalletController.wallets_of u rows) <-> In x rows /\ userId x = u.
Proof.
  unfold WalletController.wallets_of. rewrite filter_In, Z.eqb_eq. tauto.
Qed.

Lemma defaults_after_delete (choice : nat) (user i u : Z) (x : Wallet) (rows : list Wallet) :
  NoDup (map wallet_id rows) ->
  find_wallet i rows = Some x -> userId x = user ->
  (List.length (defaults_of u rows) <= 1)%nat ->
  (List.length (defaults_of u (wallets_after_delete choice user i x rows)) <= 1)%nat.
Proof.
  intros Hnd Hx Hu Hle. unfold wallets_after_delete.
  pose proof (defaults_deleted u i rows x Hx) as Hd.
  destruct (isDefault x) eqn:D; [|lia].
  destruct (WalletController.findFirst choice _) as [another|] eqn:Ho; [|lia].
  assert (Hin : In another (WalletController.wallets_of user
                              (WalletController.delete_wallet i rows)))
    by (eapply findFirst_In; eauto).
  apply wallets_of_In in Hin. destruct Hin as [Hin Ha].
  destruct (Z.eq_dec u user) as [->|Hne].
  - rewrite Hu, Z.eqb_refl in Hd. simpl in Hd.
    pose proof (defaults_update_S WalletController.make_default user
                  (wallet_id another) (WalletController.delete_wallet i rows)).
    lia.
  - rewrite (defaults_update_other WalletController.make_default user u
               (wallet_id another) _ another); try assumption;
      [lia | reflexivity|].
    apply find_wallet_unique; [now apply NoDup_delete_wallet | exact Hin].
Qed.

Lemma serve_one_default (c : Call) (w : World) :
  unique_keys w -> counting c ->
  one_default_at_most w -> one_default_at_most (snd (serve c w)).
Proof.
  intros [Hb Hw] Hc H u. specialize (H u).
  destruct c as [o | out user req | user i req | choice user i force]; simpl.
  - now rewrite step_wallets.
  - destruct (createWallet_cases out user req w)
      as [-> | (u' & x & _ & -> & _ & Hux & Hdx)]; [exact H|].
    simpl in Hc. rewrite Hc in Hdx. simpl.
    assert (Hnone : isDefault x = true -> userId x = u ->
                    defaults_of u (wallets w) = []).
    { intros D E. rewrite D in Hdx. symmetry in Hdx.
      apply Nat.eqb_eq, length_zero_iff_nil in Hdx.
      apply defaults_among_wallets. congruence. }
    unfold defaults_of in *. rewrite filter_app, length_app. simpl.
    destruct (Z.eqb_spec (userId x) u) as [E|E]; simpl; [|lia].
    destruct (isDefault x); simpl; [|lia].
    rewrite Hnone by auto. simpl. lia.
  - rewrite updateWallet_eq.
    destruct (find_wallet i (wallets w)) as [x|] eqn:Hx; [|exact H].
    destruct (Z.eqb_spec (userId x) user) as [Hu|Hu]; simpl; [|exact H].
    unfold WalletStore.asks_default.
    destruct (WalletStore.new_isDefault req) as [[|]|] eqn:Hreq.
    + destruct (Z.eq_dec u user) as [->|Hne].
      * pose proof (defaults_update_S (WalletStore.update_data req) user i
                      (map (cleared user) (wallets w))) as Hs.
        rewrite defaults_cleared_self in Hs. exact Hs.
      * rewrite (defaults_update_other (WalletStore.update_data req) user u i
                   _ (cleared user x)); try assumption.
        -- now rewrite defaults_cleared_other.
        -- reflexivity.
        -- rewrite find_wallet_map, Hx by apply cleared_id. reflexivity.
        -- now rewrite cleared_userId.
    + rewrite map_id.
      etransitivity; [apply defaults_update_le|exact H]; [reflexivity|].
      intro y. simpl. rewrite Hreq. discriminate.
    + rewrite map_id.
      etransitivity; [apply defaults_update_le|exact H]; [reflexivity|].
      intro y. simpl. now rewrite Hreq.
  - destruct (deleteWallet_tables choice user i force w Hb)
      as [_ [-> | (x & Hx & Hu & ->)]]; [exact H|].
    now apply defaults_after_delete.
Qed.

(** X2. Calls that are served one after the other (each handler runs to
    its end before the next one starts) never leave a user with two default
    wallets: if the keys are unique and every user has at most one default
    wallet, the same holds after any such sequence of calls (bounty
    operations, createWallet, updateWallet, deleteWallet), as long as the
    query by which createWallet counts the wallets of the user answers.
    This does not extend to handlers in flight together: updateWallet
    clears the old default and sets the new one in two separate writes,
    and two such requests can leave two defaults (shown after the
    theorem). *)
Theorem one_default_is_kept (calls : list Call) (w : World) :
  unique_keys w ->
  one_default_at_most w ->
  Forall counting calls ->
  one_default_at_most (serve_all calls w).
Proof.
  revert w. induction calls as [|c calls IH]; intros w Hk H Hc; [exact H|].
  inversion Hc as [|? ? Hc1 Hc2]; subst.
  change (serve_all (c :: calls) w) with (serve_all calls (snd (serve c w))).
  apply IH; [now apply serve_unique_keys | now apply serve_one_default |
             exact Hc2].
Qed.

Lemma world0_one_default : one_default_at_most world0.
Proof.
  intro u. unfold defaults_of. cbn -[Z.eqb].
  destruct (Z.eqb_spec 10 u), (Z.eqb_spec 20 u), (Z.eqb_spec 30 u);
    cbn -[Z.eqb]; lia.
Qed.

Lemma world0_unique_keys : unique_keys world0.
Proof. split; simpl; repeat constructor; simpl; lia. Qed.

Lemma two_wallets_one_default : one_default_at_most two_wallets.
Proof.
  intro u. unfold defaults_of. cbn -[Z.eqb].
  destruct (Z.eqb_spec 10 u), (Z.eqb_spec 20 u); cbn -[Z.eqb]; lia.
Qed.

Lemma two_wallets_unique_keys : unique_keys two_wallets.
Proof. split; simpl; repeat constructor; simpl; lia. Qed.

Lemma three_wallets_one_default : one_default_at_most three_wallets.
Proof.
  intro u. unfold defaults_of. cbn -[Z.eqb].
  destruct (Z.eqb_spec 10 u), (Z.eqb_spec 20 u); cbn -[Z.eqb]; lia.
Qed.

Lemma three_wallets_unique_keys : unique_keys three_wallets.
Proof. split; simpl; repeat constructor; simpl; lia. Qed.

Lemma one_default_is_kept_witness :
  one_default_at_most
    (serve_all
       [create_wallet out_ok (Some 10)
          (WalletController.mkCreateBody (Some "b"%string) None None true
             (Some true));
        update_wallet_call 10 4 (WalletStore.mkUpdateBody None (Some true));
        delete_wallet_call 0 10 4 WalletController.absent]
       world0).
Proof.
  apply one_default_is_kept.
  - exact world0_unique_keys.
  - exact world0_one_default.
  - repeat constructor.
Defined.

(** [updateWallet] is [update_clear] followed by [update_set]. *)
Lemma updateWallet_split (user i : Z) (req : WalletStore.UpdateBody) (w : World) :
  WalletStore.updateWallet user i req w =
  let '(early, w1) := WalletStore.update_clear user i req w in
  WalletStore.update_set i req early w1.
Proof.
  unfold WalletStore.updateWallet, WalletStore.update_clear,
    WalletStore.update_set, respond_plain, bind.
  destruct (prisma_wallet_findUnique (Some i) w) as [[[existing|]|m] w1];
    try reflexivity.
  destruct (negb (userId existing =? user)); [reflexivity|].
  destruct ((if WalletStore.asks_default req
             then WalletStore.clear_defaults user else ret tt) w1)
    as [[[]|m] w2]; reflexivity.
Qed.

(** Why the calls are taken one after the other: two requests of user 10
    to make wallet 4 and wallet 5 the default, both in flight.  When both
    have cleared the old default before either sets its own, both are
    answered 200 and the user is left with two default wallets. *)
Lemma two_set_defaults_in_flight :
  let req := WalletStore.mkUpdateBody None (Some true) in
  let ca := WalletStore.update_clear 10 4 req three_wallets in
  let cb := WalletStore.update_clear 10 5 req (snd ca) in
  let ra := WalletStore.update_set 4 req (fst ca) (snd cb) in
  let rb := WalletStore.update_set 5 req (fst cb) (snd ra) in
  map wallet_id (defaults_of 10 (wallets three_wallets)) = [1] /\
  code (fst ra) = 200 /\
  code (fst rb) = 200 /\
  map wallet_id (defaults_of 10 (wallets (snd rb))) = [4; 5] /\
  ~ one_default_at_most (snd rb).
Proof.
  vm_compute. repeat split. intro H. specialize (H 10). vm_compute in H. lia.
Qed.

Lemma defaults_update_single (f : Wallet -> Wallet) (u i : Z)
    (rows : list Wallet) (x : Wallet) :
  defaults_of u rows = [] ->
  find_wallet i rows = Some x ->
  userId (f x) = u -> isDefault (f x) = true ->
  defaults_of u (update_wallet i f rows) = [f x].
Proof.
  intros Hnone Hx Hu Hd. revert Hnone Hx. unfold defaults_of.
  induction rows as [|y rows IH]; simpl; [discriminate|].
  destruct ((userId y =? u) && isDefault y) eqn:P; [discriminate|].
  intros Hnone. destruct (wallet_id y =? i); simpl.
  - intros [= ->]. now rewrite Hu, Z.eqb_refl, Hd, Hnone.
  - intro H. rewrite P. auto.
Qed.

Lemma defaults_update_drop (f : Wallet -> Wallet) (u i : Z)
    (rows : list Wallet) (x : Wallet) :
  find_wallet i rows = Some x ->
  userId x = u -> isDefault x = true ->
  userId (f x) = u -> isDefault (f x) = false ->
  S (List.length (defaults_of u (update_wallet i f rows))) =
  List.length (defaults_of u rows).
Proof.
  intros Hx Hu Hd Hfu Hfd. revert Hx. unfold defaults_of.
  induction rows as [|y rows IH]; simpl; [discriminate|].
  destruct (wallet_id y =? i); simpl.
  - intros [= ->]. now rewrite Hfu, Hu, Z.eqb_refl, Hfd, Hd.
  - intro H. specialize (IH H).
    destruct ((userId y =? u) && isDefault y); simpl; lia.
Qed.

Lemma wallets_of_update_other (f : Wallet -> Wallet) (user u i : Z)
    (rows : list Wallet) (x : Wallet) :
  (forall y, userId (f y) = userId y) ->
  find_wallet i rows = Some x -> userId x = user -> u <> user ->
  WalletController.wallets_of u (update_wallet i f rows) =
  WalletController.wallets_of u rows.
Proof.
  intros Hf Hx Hu Hne. revert Hx. unfold WalletController.wallets_of.
  induction rows as [|y rows IH]; simpl; [discriminate|].
  destruct (wallet_id y =? i); simpl.
  - intros [= ->]. rewrite Hf, Hu.
    destruct (Z.eqb_spec user u); [congruence | reflexivity].
  - intro H. now rewrite IH.
Qed.

Lemma wallets_of_cleared_other (user u : Z) (rows : list Wallet) :
  u <> user ->
  WalletController.wallets_of u (map (cleared user) rows) =
  WalletController.wallets_of u rows.
Proof.
  intro Hne. unfold WalletController.wallets_of.
  induction rows as [|x rows IH]; simpl; [reflexivity|].
  rewrite cleared_userId, IH. unfold cleared.
  destruct (Z.eqb_spec (userId x) user) as [E|E]; simpl; [|reflexivity].
  destruct (Z.eqb_spec (userId x) u); [congruence | reflexivity].
Qed.

Lemma wallets_of_delete_other (user u i : Z) (rows : list Wallet) (x : Wallet) :
  find_wallet i rows = Some x -> userId x = user -> u <> user ->
  WalletController.wallets_of u (WalletController.delete_wallet i rows) =
  WalletController.wallets_of u rows.
Proof.
  intros Hx Hu Hne. revert Hx. unfold WalletController.wallets_of.
  induction rows as [|y rows IH]; simpl; [discriminate|].
  destruct (wallet_id y =? i); simpl.
  - intros [= ->]. rewrite Hu.
    destruct (Z.eqb_spec user u); [congruence | reflexivity].
  - intro H. now rewrite IH.
Qed.

(** X3. updateWallet with isDefault true, on a wallet of the requesting
    user, leaves that user with exactly one default wallet, the updated
    one, whatever the flags were before. *)
Theorem updateWallet_sets_the_default
    (user i : Z) (req : WalletStore.UpdateBody) (w : World) (x : Wallet) :
  find_wallet i (wallets w) = Some x ->
  userId x = user ->
  WalletStore.asks_default req = true ->
  let end_ := WalletStore.updateWallet user i req w in
  let updated := WalletStore.update_data req (cleared user x) in
  code (fst end_) = 200 /\
  wallet_id updated = i /\
  find_wallet i (wallets (snd end_)) = Some updated /\
  defaults_of user (wallets (snd end_)) = [updated].
Proof.
  intros Hx Hu Ha end_ updated. subst end_ updated.
  rewrite updateWallet_eq, Hx, Hu, Z.eqb_refl, Ha. simpl.
  assert (Hfound : find_wallet i (map (cleared user) (wallets w)) =
                   Some (cleared user x))
    by (rewrite find_wallet_map, Hx by apply cleared_id; reflexivity).
  split; [reflexivity|]. split.
  { rewrite cleared_id. now destruct (find_wallet_found _ _ _ Hx). }
  split.
  - clear Hx. revert Hfound.
    induction (map (cleared user) (wallets w)) as [|y rows IH]; simpl;
      [discriminate|].
    destruct (wallet_id y =? i) eqn:E; simpl.
    + intros [= ->]. now rewrite E.
    + rewrite E. exact IH.
  - apply defaults_update_single.
    + apply defaults_cleared_self.
    + exact Hfound.
    + simpl. now rewrite cleared_userId.
    + simpl. unfold WalletStore.asks_default in Ha.
      now destruct (WalletStore.new_isDefault req).
Qed.

Lemma updateWallet_sets_the_default_witness :
  let req := WalletStore.mkUpdateBody None (Some true) in
  let end_ := WalletStore.updateWallet 10 4 req two_wallets in
  code (fst end_) = 200 /\
  defaults_of 10 (wallets (snd end_)) =
  [mkWallet 4 10 "spare" "0xddd4" "c4" "i4" true].
Proof.
  intros req end_.
  destruct (updateWallet_sets_the_default 10 4 req two_wallets
              (mkWallet 4 10 "spare" "0xddd4" "c4" "i4" false)
              eq_refl eq_refl eq_refl) as (H1 & _ & _ & H4).
  split; [exact H1 | exact H4].
Defined.

(** X4. updateWallet with isDefault false on the default wallet of a user
    who has at most one default leaves that user without any default
    wallet: nothing is promoted in its place. *)
Theorem updateWallet_can_leave_no_default
    (user i : Z) (req : WalletStore.UpdateBody) (w : World) (x : Wallet) :
  find_wallet i (wallets w) = Some x ->
  userId x = user ->
  isDefault x = true ->
  WalletStore.new_isDefault req = Some false ->
  one_default_at_most w ->
  let end_ := WalletStore.updateWallet user i req w in
  code (fst end_) = 200 /\
  defaults_of user (wallets (snd end_)) = [] /\
  List.length (WalletController.wallets_of user (wallets (snd end_))) =
  List.length (WalletController.wallets_of user (wallets w)).
Proof.
  intros Hx Hu Hd Hreq Hone end_. subst end_.
  rewrite updateWallet_eq, Hx, Hu, Z.eqb_refl.
  unfold WalletStore.asks_default. rewrite Hreq. simpl. rewrite map_id.
  split; [reflexivity|]. split.
  - pose proof (defaults_update_drop (WalletStore.update_data req) user i
                  (wallets w) x Hx Hu Hd) as H.
    simpl in H. rewrite Hreq in H. specialize (H Hu eq_refl).
    specialize (Hone user). apply length_zero_iff_nil. lia.
  - clear Hone. revert Hx. unfold WalletController.wallets_of.
    induction (wallets w) as [|y rows IH]; simpl; [discriminate|].
    destruct (wallet_id y =? i); simpl.
    + intros [= ->]. now destruct (userId x =? user).
    + intro H. specialize (IH H). destruct (userId y =? user); simpl; lia.
Qed.

Lemma updateWallet_can_leave_no_default_witness :
  let req := WalletStore.mkUpdateBody None (Some false) in
  let end_ := WalletStore.updateWallet 10 1 req two_wallets in
  code (fst end_) = 200 /\
  defaults_of 10 (wallets (snd end_)) = [] /\
  List.length (WalletController.wallets_of 10 (wallets (snd end_))) =
  List.length (WalletController.wallets_of 10 (wallets two_wallets)).
Proof.
  intros req end_.
  exact (updateWallet_can_leave_no_default 10 1 req two_wallets lister_wallet
           eq_refl eq_refl eq_refl eq_refl two_wallets_one_default).
Defined.

Lemma wallets_of_after_delete_other (choice : nat) (user u i : Z) (x : Wallet)
    (rows : list Wallet) :
  NoDup (map wallet_id rows) ->
  find_wallet i rows = Some x -> userId x = user -> u <> user ->
  WalletController.wallets_of u (wallets_after_delete choice user i x rows) =
  WalletController.wallets_of u rows.
Proof.
  intros Hnd Hx Hu Hne. unfold wallets_after_delete.
  pose proof (wallets_of_delete_other user u i rows x Hx Hu Hne) as Hd.
  destruct (isDefault x); [|exact Hd].
  destruct (WalletController.findFirst choice _) as [another|] eqn:Ho;
    [|exact Hd].
  assert (Hin : In another (WalletController.wallets_of user
                              (WalletController.delete_wallet i rows)))
    by (eapply findFirst_In; eauto).
  apply wallets_of_In in Hin. destruct Hin as [Hin Ha].
  rewrite (wallets_of_update_other WalletController.make_default user u
             (wallet_id another) _ another); try assumption; [reflexivity|].
  apply find_wallet_unique; [now apply NoDup_delete_wallet | exact Hin].
Qed.

(** X5. A call never touches the wallets of a user it does not act for:
    with unique keys, after any one call (a bounty operation, or
    createWallet, updateWallet, deleteWallet in the name of some user) the
    wallets of every other user are, row by row, what they were. *)
Theorem wallets_of_others_are_left_alone (c : Call) (w : World) (u : Z) :
  unique_keys w ->
  acting c <> Some u ->
  WalletController.wallets_of u (wallets (snd (serve c w))) =
  WalletController.wallets_of u (wallets w).
Proof.
  intros [Hb Hw] Hact.
  destruct c as [o | out user req | user i req | choice user i force]; simpl in *.
  - now rewrite step_wallets.
  - destruct (createWallet_cases out user req w)
      as [-> | (u' & x & -> & -> & _ & Hux & _)]; [reflexivity|].
    simpl. unfold WalletController.wallets_of. rewrite filter_app. simpl.
    destruct (Z.eqb_spec (userId x) u); [congruence | apply app_nil_r].
  - assert (Hne : u <> user) by congruence.
    rewrite updateWallet_eq.
    destruct (find_wallet i (wallets w)) as [x|] eqn:Hx; [|reflexivity].
    destruct (Z.eqb_spec (userId x) user) as [Hu|Hu]; simpl; [|reflexivity].
    destruct (WalletStore.asks_default req).
    + rewrite (wallets_of_update_other _ user u i _ (cleared user x));
        try assumption.
      * now apply wallets_of_cleared_other.
      * reflexivity.
      * rewrite find_wallet_map, Hx by apply cleared_id. reflexivity.
      * now rewrite cleared_userId.
    + rewrite map_id.
      now apply (wallets_of_update_other _ user u i _ x).
  - assert (Hne : u <> user) by congruence.
    destruct (deleteWallet_tables choice user i force w Hb)
      as [_ [-> | (x & Hx & Hu & ->)]]; [reflexivity|].
    now apply wallets_of_after_delete_other.
Qed.

Lemma wallets_of_others_are_left_alone_witness :
  WalletController.wallets_of 20
    (wallets (snd (serve (delete_wallet_call 0 10 1 WalletController.absent)
                     two_wallets))) =
  WalletController.wallets_of 20 (wallets two_wallets).
Proof.
  apply wallets_of_others_are_left_alone.
  - exact two_wallets_unique_keys.
  - simpl. discriminate.
Defined.

Lemma deleteWallet_done (choice : nat) (user i : Z) (force : WalletController.Query)
    (w : World) (x : Wallet) :
  NoDup (map id (bounties w)) ->
  find_wallet i (wallets w) = Some x ->
  userId x = user ->
  filter (WalletController.references i) (bounties w) = [] \/
  WalletController.forced force = true ->
  code (fst (WalletController.deleteWallet choice user i force w)) = 200 /\
  wallets (snd (WalletController.deleteWallet choice user i force w)) =
  wallets_after_delete choice user i x (wallets w).
Proof.
  intros Hb Hx Hu Hgo.
  rewrite (deleteWallet_eq choice user i force w x Hx Hu Hb). cbv zeta.
  assert (Hpass : (0 <? List.length
                           (filter (WalletController.references i) (bounties w)))%nat
                  && negb (WalletController.forced force) = false).
  { destruct Hgo as [-> | ->]; [reflexivity|]. apply andb_false_r. }
  rewrite Hpass.
  set (w1 := if (_ && WalletController.forced force) then _ else w).
  assert (H1 : wallets w1 = wallets w).
  { unfold w1. destruct (_ && WalletController.forced force); reflexivity. }
  clearbody w1. split; [reflexivity|].
  unfold wallets_after_delete. cbn [snd]. rewrite <- H1.
  destruct (isDefault x); [|reflexivity].
  cbn [wallets set_wallets].
  now destruct (WalletController.findFirst choice _).
Qed.

Lemma defaults_after_promotion (choice : nat) (user i : Z) (x : Wallet)
    (rows : list Wallet) :
  NoDup (map wallet_id rows) ->
  (List.length (defaults_of user rows) <= 1)%nat ->
  find_wallet i rows = Some x ->
  userId x = user ->
  isDefault x = true ->
  let rest := WalletController.wallets_of user
                (WalletController.delete_wallet i rows) in
  (rest = [] ->
   WalletController.wallets_of user (wallets_after_delete choice user i x rows)
   = []) /\
  (rest <> [] ->
   exists another,
     In another rest /\
     defaults_of user (wallets_after_delete choice user i x rows) =
     [WalletController.make_default another]).
Proof.
  intros Hw Hone Hx Hu Hd rest. subst rest.
  unfold wallets_after_delete. rewrite Hd.
  pose proof (defaults_deleted user i rows x Hx) as Hlen.
  rewrite Hu, Z.eqb_refl, Hd in Hlen. simpl in Hlen.
  destruct (WalletController.findFirst choice
              (WalletController.wallets_of user
                 (WalletController.delete_wallet i rows)))
    as [another|] eqn:Ho.
  - pose proof (findFirst_In _ _ _ Ho) as Hrest.
    split; [intro E; rewrite E in Hrest; destruct Hrest|].
    intros _. exists another. split; [exact Hrest|].
    apply wallets_of_In in Hrest. destruct Hrest as [Hin Ha].
    apply defaults_update_single.
    + apply length_zero_iff_nil. lia.
    + apply find_wallet_unique; [now apply NoDup_delete_wallet | exact Hin].
    + exact Ha.
    + reflexivity.
  - apply findFirst_None in Ho.
    split; [intros _; exact Ho | intro E; contradiction].
Qed.

(** X6. deleteWallet of the default wallet of its owner, when the
    deletion is not held back by bounties (none refers to the wallet, or
    force is given), in a database with unique keys and at most one default
    per user: if the owner has other wallets, one of them becomes the
    default and is the owner's only default (which one is for the database
    to choose: findFirst is given no order); if not, the owner is left
    without wallets. *)
Theorem deleting_the_default_promotes (choice : nat)
    (user i : Z) (force : WalletController.Query) (w : World) (x : Wallet) :
  unique_keys w ->
  one_default_at_most w ->
  find_wallet i (wallets w) = Some x ->
  userId x = user ->
  isDefault x = true ->
  filter (WalletController.references i) (bounties w) = [] \/
  WalletController.forced force = true ->
  let end_ := WalletController.deleteWallet choice user i force w in
  let rest := WalletController.wallets_of user
                (WalletController.delete_wallet i (wallets w)) in
  code (fst end_) = 200 /\
  (rest = [] -> WalletController.wallets_of user (wallets (snd end_)) = []) /\
  (rest <> [] ->
   exists another,
     In another rest /\
     defaults_of user (wallets (snd end_)) =
     [WalletController.make_default another]).
Proof.
  intros [Hb Hw] Hone Hx Hu Hd Hgo end_ rest. subst end_ rest.
  destruct (deleteWallet_done choice user i force w x Hb Hx Hu Hgo) as [Hc ->].
  split; [exact Hc|].
  now apply defaults_after_promotion.
Qed.

(** User 10 has the default wallet 1 and the wallets 4 and 5; the
    database returns the second of the remaining two. *)
Lemma deleting_the_default_promotes_witness :
  let end_ := WalletController.deleteWallet 1 10 1 WalletController.absent
                three_wallets in
  code (fst end_) = 200 /\
  (exists another,
     In another
       (WalletController.wallets_of 10
          (WalletController.delete_wallet 1 (wallets three_wallets))) /\
     defaults_of 10 (wallets (snd end_)) =
     [WalletController.make_default another]) /\
  defaults_of 10 (wallets (snd end_)) =
  [mkWallet 5 10 "extra" "0xeee5" "c5" "i5" true].
Proof.
  destruct (deleting_the_default_promotes 1 10 1 WalletController.absent
              three_wallets lister_wallet three_wallets_unique_keys
              three_wallets_one_default eq_refl eq_refl eq_refl
              (or_introl eq_refl)) as (Hc & _ & Hsome).
  split; [exact Hc|]. split; [|reflexivity].
  apply Hsome. simpl. discriminate.
Defined.

(** ** Paying out *)





(** [completeBounty] is [complete_read] followed by [complete_finish]. *)
Lemma completeBounty_split (out : Outside) (user i : Z) (w : World) :
  BountyController.completeBounty out user i w =
  let '(read, w1) := complete_read user i w in complete_finish out i read w1.
Proof.
  unfold BountyController.completeBounty, complete_read, complete_finish,
    respond, bind.
  destruct (BountyModel.getBountyById i w) as [[[b|]|m] w1]; try reflexivity.
  destruct (negb (createdBy b =? user)); [reflexivity|].
  destruct (negb (Status_eqb (status b) CLAIMED)); reflexivity.
Qed.

(** Why the calls are taken one after the other: two complete handlers of
    the same CLAIMED bounty, both in flight.  When both have read the
    bounty before either writes, both are answered 200 and the release is
    sent twice. *)
Lemma two_completes_in_flight_both_pay :
  let w := run [fund out_ok 10 (post two_and_a_half); claim 20 1 (Some 2)]
             world0 in
  let a := complete_read 10 1 w in
  let b := complete_read 10 1 (snd a) in
  let ra := complete_finish out_ok 1 (fst a) (snd b) in
  let rb := complete_finish out_ok 1 (fst b) (snd ra) in
  status_of 1 w = Some CLAIMED /\
  code (fst ra) = 200 /\
  code (fst rb) = 200 /\
  List.length (filter release_asked (events w)) = 0%nat /\
  List.length (filter release_asked (events (snd rb))) = 2%nat /\
  List.length (filter transfer_sent (events (snd rb))) =
  S (S (List.length (filter transfer_sent (events w)))).
Proof.
  vm_compute. repeat split.
Qed.

(** A complete handler that has read the CLAIMED bounty, then a cancel
    served to its end, then the rest of the complete: both are answered
    200, the refund and the release are both sent, and the bounty goes
    from CANCELLED to COMPLETED. *)
Lemma complete_and_cancel_in_flight_both_pay :
  let w := run [fund out_ok 10 (post two_and_a_half); claim 20 1 (Some 2)]
             world0 in
  let a := complete_read 10 1 w in
  let rc := BountyController.cancelBounty out_ok 10 1 None (snd a) in
  let ra := complete_finish out_ok 1 (fst a) (snd rc) in
  (code (fst rc) = 200 /\ status_of 1 (snd rc) = Some CANCELLED) /\
  (code (fst ra) = 200 /\ status_of 1 (snd ra) = Some COMPLETED) /\
  List.length (filter refund_asked (events (snd ra))) = 1%nat /\
  List.length (filter release_asked (events (snd ra))) = 1%nat /\
  List.length (filter transfer_sent (events (snd ra))) =
  S (S (List.length (filter transfer_sent (events w)))).
Proof.
  vm_compute. repeat split.
Qed.

(** ** The funding transfer stays on record *)

Lemma backed_later (w w' : World) (more : list Event) (b : Bounty) :
  events w' = events w ++ more -> backed w b -> backed w' b.
Proof.
  intros He (to & n & tx & Hin & Hu & Hs).
  exists to, n, tx. repeat split; try assumption.
  rewrite He. apply in_or_app. now left.
Qed.

Lemma backed_row (w : World) (b b' : Bounty) :
  amount b' = amount b ->
  (status b' <> COMPLETED -> status b <> COMPLETED /\ escrowId b' = escrowId b) ->
  backed w b -> backed w b'.
Proof.
  intros Ha Hr (to & n & tx & Hin & Hu & Hs).
  exists to, n, tx. repeat split; try assumption; [now rewrite Ha|].
  intro H. destruct (Hr H) as [H1 ->]. auto.
Qed.

Lemma backed_row_step (w : World) (b b' : Bounty) :
  row_step b b' -> backed w b -> backed w b'.
Proof.
  intros [ | u h Hs | tx Hs | Hs]; [auto| | |]; apply backed_row; simpl;
    try reflexivity; try congruence.
  - intros _. split; [congruence | reflexivity].
  - intros _. split; [destruct Hs; congruence | reflexivity].
Qed.

Lemma step_events (o : Op) (w : World) :
  exists more, events (snd (step o w)) = events w ++ more.
Proof.
  assert (Hsame : exists more, events w = events w ++ more)
    by (exists []; now rewrite app_nil_r).
  destruct o as [out user req | user j wid | out user j | out user j refund];
    simpl.
  - rewrite createBounty_eq.
    repeat match goal with
    | |- context [if ?c then _ else _] => destruct c; [exact Hsame|]
    | |- context [match BountyController.walletId req with _ => _ end] =>
        destruct (BountyController.walletId req) as [wid|]; [|exact Hsame]
    | |- context [match github_issue_state out with _ => _ end] =>
        destruct (github_issue_state out); [|exact Hsame]
    end.
    destruct (createEscrow_cases out user (BountyController.posted_amount req)
                wid w)
      as [(m & Hr & He) | (addr & n & tx & _ & _ & _ & Hr & He)];
      destruct (Radius.createEscrow _ _ _ _ _) as [r w1];
      simpl in Hr, He; subst r;
      [|destruct (bounty_create_rejects out)]; simpl; eauto.
  - rewrite claimBounty_eq.
    destruct (negb (truthy wid)); [exact Hsame|].
    destruct (find_bounty j (bounties w)); [|exact Hsame].
    destruct (negb _); exact Hsame.
  - rewrite completeBounty_eq.
    destruct (find_bounty j (bounties w)) as [b|]; [|exact Hsame].
    destruct (negb _); [exact Hsame|]. destruct (negb _); [exact Hsame|].
    destruct (releaseEscrow_cases out (escrowId b) (claimedBy b) (amount b)
                (hunterWalletId b) w)
      as [(m & Hr & He) | (k & x & n & tx & _ & _ & _ & _ & Hr & He)];
      destruct (Radius.releaseEscrow _ _ _ _ _ _) as [r w1];
      simpl in Hr, He; subst r; simpl; eauto.
  - rewrite cancelBounty_eq.
    destruct (find_bounty j (bounties w)) as [b|]; [|exact Hsame].
    destruct (negb _); [exact Hsame|]. destruct (negb _ && _); [exact Hsame|].
    destruct (refundEscrow_cases out (escrowId b) user (amount b)
                (walletIdToUse refund b) w)
      as [(m & Hr & He) | (k & x & n & tx & _ & _ & _ & _ & Hr & He)];
      destruct (Radius.refundEscrow _ _ _ _ _ _) as [r w1];
      simpl in Hr, He; subst r; simpl; eauto.
Qed.

(** Every row after a call is a row before it, moved or not, or the row
    the call created, which is backed. *)
Lemma step_rows (o : Op) (w : World) (b' : Bounty) :
  In b' (bounties (snd (step o w))) ->
  (exists b, In b (bounties w) /\ row_step b b') \/
  backed (snd (step o w)) b'.
Proof.
  assert (Hsame : In b' (bounties w) ->
                  (exists b, In b (bounties w) /\ row_step b b') \/
                  backed w b')
    by (intro H; left; exists b'; split; [exact H | constructor]).
  destruct o as [out user req | user j wid | out user j | out user j refund];
    simpl.
  - rewrite createBounty_eq.
    repeat match goal with
    | |- context [if ?c then _ else _] => destruct c; [exact Hsame|]
    | |- context [match BountyController.walletId req with _ => _ end] =>
        destruct (BountyController.walletId req) as [wid|]; [|exact Hsame]
    | |- context [match github_issue_state out with _ => _ end] =>
        destruct (github_issue_state out); [|exact Hsame]
    end.
    destruct (createEscrow_cases out user (BountyController.posted_amount req)
                wid w)
      as [(m & Hr & He) | (addr & n & tx & _ & Hn & _ & Hr & He)];
      destruct (Radius.createEscrow _ _ _ _ _) as [r w1] eqn:R;
      simpl in Hr, He; subst r; simpl;
      pose proof (proj1 (quiet_at _ _ _ _ (quiet_createEscrow _ _ _ _) R)) as Hq.
    + rewrite Hq. intro H. left. exists b'. split; [exact H | constructor].
    + destruct (bounty_create_rejects out); simpl;
        [rewrite Hq; intro H; left; exists b'; split; [exact H | constructor]|].
      intro H. apply in_app_iff in H. destruct H as [H | [<- | []]].
      * left. exists b'. split; [exact H | constructor].
      * right. exists addr, n, tx. simpl. rewrite He. repeat split.
        -- apply in_or_app. right. right. now left.
        -- exact Hn.
  - rewrite claimBounty_eq.
    destruct (negb (truthy wid)); [exact Hsame|].
    destruct (find_bounty j (bounties w)) as [bj|] eqn:Hj; [|exact Hsame].
    destruct (Status_eqb (status bj) OPEN) eqn:Hs; simpl; [|exact Hsame].
    apply Status_eqb_eq in Hs. intro H. left.
    apply In_update in H. destruct H as [H | (b0 & Hb0 & ->)].
    + exists b'. split; [exact H | constructor].
    + assert (b0 = bj) as -> by congruence.
      exists bj. split; [eapply find_bounty_In; eauto | now constructor].
  - rewrite completeBounty_eq.
    destruct (find_bounty j (bounties w)) as [bj|] eqn:Hj; [|exact Hsame].
    destruct (negb (createdBy bj =? user)); [exact Hsame|].
    destruct (Status_eqb (status bj) CLAIMED) eqn:Hs; simpl; [|exact Hsame].
    apply Status_eqb_eq in Hs.
    destruct (Radius.releaseEscrow _ _ _ _ _ _) as [[tx|m] w1] eqn:R; simpl.
    + intro H. left.
      apply In_update in H. destruct H as [H | (b0 & Hb0 & ->)].
      * exists b'. split; [exact H | constructor].
      * assert (b0 = bj) as -> by congruence.
        exists bj. split; [eapply find_bounty_In; eauto | now constructor].
    + rewrite (proj1 (quiet_at _ _ _ _ (quiet_releaseEscrow _ _ _ _ _) R)).
      intro H. left. exists b'. split; [exact H | constructor].
  - rewrite cancelBounty_eq.
    destruct (find_bounty j (bounties w)) as [bj|] eqn:Hj; [|exact Hsame].
    destruct (negb (createdBy bj =? user)); [exact Hsame|].
    destruct (negb (Status_eqb (status bj) OPEN)
              && negb (Status_eqb (status bj) CLAIMED)) eqn:Hs; [exact Hsame|].
    assert (Hst : status bj = OPEN \/ status bj = CLAIMED)
      by (destruct (status bj); simpl in Hs; try discriminate; auto).
    destruct (Radius.refundEscrow _ _ _ _ _ _) as [[tx|m] w1] eqn:R; simpl.
    + intro H. left.
      apply In_update in H. destruct H as [H | (b0 & Hb0 & ->)].
      * exists b'. split; [exact H | constructor].
      * assert (b0 = bj) as -> by congruence.
        exists bj. split; [eapply find_bounty_In; eauto | now constructor].
    + rewrite (proj1 (quiet_at _ _ _ _ (quiet_refundEscrow _ _ _ _ _) R)).
      intro H. left. exists b'. split; [exact H | constructor].
Qed.

Lemma deleteWallet_events (choice : nat) (user i : Z) (force : WalletController.Query)
    (w : World) :
  NoDup (map id (bounties w)) ->
  events (snd (WalletController.deleteWallet choice user i force w)) = events w.
Proof.
  intro Hb.
  destruct (find_wallet i (wallets w)) as [x|] eqn:Hx.
  2:{ now destruct (deleteWallet_refused choice user i force w) as [-> _]; auto. }
  destruct (Z.eq_dec (userId x) user) as [Hu|Hu].
  2:{ now destruct (deleteWallet_refused choice user i force w) as [-> _]; eauto. }
  rewrite (deleteWallet_eq choice user i force w x Hx Hu Hb). cbv zeta.
  destruct (_ && negb _); [reflexivity|].
  destruct (_ && WalletController.forced force); simpl;
    destruct (isDefault x); simpl; auto;
    match goal with
    | |- context [WalletController.findFirst choice ?l] =>
        destruct (WalletController.findFirst choice l); reflexivity
    end.
Qed.

Lemma backed_detached (w : World) (i : Z) (b : Bounty) :
  backed w b -> backed w (detached i b).
Proof.
  apply backed_row; unfold detached;
    destruct (WalletController.references i b); simpl; auto.
Qed.

Lemma serve_backed (c : Call) (w : World) :
  unique_keys w ->
  (forall b, In b (bounties w) -> backed w b) ->
  forall b, In b (bounties (snd (serve c w))) -> backed (snd (serve c w)) b.
Proof.
  intros [Hb Hw] H b'.
  destruct c as [o | out user req | user i req | choice user i force]; simpl.
  - intro Hin. destruct (step_events o w) as (more & He).
    destruct (step_rows o w b' Hin) as [(b & Hb0 & Hstep) | Hnew];
      [|exact Hnew].
    apply (backed_later w _ more); [exact He|].
    apply (backed_row_step w b); auto.
  - destruct (createWallet_cases out user req w)
      as [-> | (u & x & _ & -> & _)]; [apply H|].
    intro Hin. apply (backed_later w _ []); [simpl; now rewrite app_nil_r|].
    now apply H.
  - rewrite updateWallet_eq.
    destruct (find_wallet i (wallets w)); [|apply H].
    destruct (negb _); [apply H|]. simpl.
    intro Hin. apply (backed_later w _ []); [simpl; now rewrite app_nil_r|].
    now apply H.
  - pose proof (deleteWallet_events choice user i force w Hb) as He.
    destruct (deleteWallet_tables choice user i force w Hb) as [[Hr | Hr] _];
      rewrite Hr; intro Hin;
      apply (backed_later w _ []); try (now rewrite He, app_nil_r).
    + now apply H.
    + apply in_map_iff in Hin. destruct Hin as (b & <- & Hin).
      apply backed_detached. now apply H.
Qed.

Lemma find_bounty_map (g : Bounty -> Bounty) (i : Z) (rows : list Bounty) :
  (forall b, id (g b) = id b) ->
  find_bounty i (map g rows) = option_map g (find_bounty i rows).
Proof.
  intro Hg. induction rows as [|b rows IH]; simpl; [reflexivity|].
  rewrite Hg. destruct (id b =? i); [reflexivity | exact IH].
Qed.

Lemma funding_kept_step (b b1 b2 : Bounty) :
  funding_kept b b1 -> row_step b1 b2 -> funding_kept b b2.
Proof.
  intros [Ha He] [ | u h Hs | tx Hs | Hs]; unfold funding_kept; simpl.
  - auto.
  - split; [exact Ha|]. destruct He as [He | Hc]; [now left | congruence].
  - split; [exact Ha | now right].
  - split; [exact Ha|].
    destruct He as [He | Hc]; [now left | destruct Hs; congruence].
Qed.

Lemma funding_kept_detached (k : Z) (b b1 : Bounty) :
  funding_kept b b1 -> funding_kept b (detached k b1).
Proof.
  unfold funding_kept, detached.
  now destruct (WalletController.references k b1).
Qed.

Lemma serve_funding_kept (c : Call) (w : World) (i : Z) (b b1 : Bounty) :
  unique_keys w ->
  find_bounty i (bounties w) = Some b1 -> funding_kept b b1 ->
  exists b2, find_bounty i (bounties (snd (serve c w))) = Some b2 /\
             funding_kept b b2.
Proof.
  intros [Hk _] Hb Hkept.
  destruct c as [o | out user req | user j req | choice user j force]; simpl.
  - destruct (step_row o w i b1 Hb) as (b2 & Hb2 & Hstep).
    exists b2. split; [exact Hb2 | now apply (funding_kept_step b b1)].
  - destruct (createWallet_cases out user req w)
      as [-> | (u & x & _ & -> & _)]; eauto.
  - rewrite updateWallet_eq.
    destruct (find_wallet j (wallets w)); [|eauto].
    destruct (negb _); eauto.
  - destruct (deleteWallet_tables choice user j force w Hk) as [[-> | ->] _];
      [eauto|].
    rewrite find_bounty_map, Hb by apply detached_id.
    eexists. split; [reflexivity | now apply funding_kept_detached].
Qed.

Lemma serve_all_funding_kept (calls : list Call) (w : World) (i : Z)
    (b b1 : Bounty) :
  unique_keys w ->
  find_bounty i (bounties w) = Some b1 -> funding_kept b b1 ->
  exists b2, find_bounty i (bounties (serve_all calls w)) = Some b2 /\
             funding_kept b b2.
Proof.
  revert w b1. induction calls as [|c calls IH]; intros w b1 Hk Hb Hkept;
    [eauto|].
  change (serve_all (c :: calls) w) with (serve_all calls (snd (serve c w))).
  destruct (serve_funding_kept c w i b b1 Hk Hb Hkept) as (b2 & Hb2 & Hk2).
  apply (IH _ b2); [now apply serve_unique_keys | exact Hb2 | exact Hk2].
Qed.

(** X8. The funding of every bounty stays on record, in calls served one
    after the other from a database with unique keys.  No call changes the
    amount of a bounty, and only a completion replaces its escrowId: after
    any sequence of calls the row of a bounty has the amount it had, and
    the escrowId it had unless it is COMPLETED.  And if every bounty is
    backed (the log holds a transfer of the base units of its amount, whose
    hash is the escrowId of the bounty unless the bounty is COMPLETED), so
    is every bounty after the calls. *)
Theorem funding_stays_on_record (calls : list Call) (w : World) :
  unique_keys w ->
  (forall i b, find_bounty i (bounties w) = Some b ->
     exists b', find_bounty i (bounties (serve_all calls w)) = Some b' /\
                funding_kept b b') /\
  ((forall b, In b (bounties w) -> backed w b) ->
   forall b, In b (bounties (serve_all calls w)) ->
             backed (serve_all calls w) b).
Proof.
  intro Hk. split.
  - intros i b Hb. apply (serve_all_funding_kept calls w i b b Hk Hb).
    split; [reflexivity | now left].
  - revert w Hk. induction calls as [|c calls IH]; intros w Hk H; [exact H|].
    change (serve_all (c :: calls) w) with (serve_all calls (snd (serve c w))).
    apply IH; [now apply serve_unique_keys | now apply serve_backed].
Qed.

Lemma funding_stays_on_record_witness :
  let w0 := serve_all [bounty_call (fund out_ok 10 (post two_and_a_half))]
              world0 in
  let calls := [bounty_call (claim 20 1 (Some 2));
                delete_wallet_call 0 20 2 (WalletController.word "true");
                bounty_call (cancel out_ok 10 1 None)] in
  let b0 := mkBounty 1 "octo" "repo" 7 two_and_a_half "USD" OPEN
              "0xtx:0xe5c0:2500000000000000000" 10 None (Some 1) None in
  let b := mkBounty 1 "octo" "repo" 7 two_and_a_half "USD" CANCELLED
             "0xtx:0xe5c0:2500000000000000000" 10 (Some 20) (Some 1) None in
  (exists b', find_bounty 1 (bounties (serve_all calls w0)) = Some b' /\
              funding_kept b0 b') /\
  In b (bounties (serve_all calls w0)) /\
  backed (serve_all calls w0) b.
Proof.
  intros w0 calls b0 b.
  assert (Hk : unique_keys w0).
  { split.
    - assert (E : map id (bounties w0) = [1]) by (vm_compute; reflexivity).
      rewrite E. repeat constructor; simpl; lia.
    - assert (E : map wallet_id (wallets w0) = [1; 2; 3])
        by (vm_compute; reflexivity).
      rewrite E. repeat constructor; simpl; lia. }
  assert (Hback0 : forall b1, In b1 (bounties w0) -> backed w0 b1).
  { assert (E : bounties w0 = [b0]) by (vm_compute; reflexivity).
    rewrite E. intros b1 [<- | []].
    exists "0xe5c0"%string, 2500000000000000000,
      "0xtx:0xe5c0:2500000000000000000"%string.
    split; [vm_compute; right; left; reflexivity|].
    split; [vm_compute; reflexivity | reflexivity]. }
  assert (Hb0 : find_bounty 1 (bounties w0) = Some b0)
    by (vm_compute; reflexivity).
  assert (Hin : In b (bounties (serve_all calls w0)))
    by (vm_compute; left; reflexivity).
  destruct (funding_stays_on_record calls w0 Hk) as [Hkept Hbacked].
  split; [exact (Hkept 1 b0 Hb0)|]. split; [exact Hin|].
  exact (Hbacked Hback0 b Hin).
Defined.

(** X9. A completion releases what was funded: when the bounty is backed
    and completeBounty answers 200, the transfer it sends to the address of
    the hunter wallet carries the very number of base units that the
    funding transfer recorded in escrowId carried to escrow. *)
Theorem release_sends_what_was_funded
    (out : Outside) (user i : Z) (w : World) (b : Bounty) :
  find_bounty i (bounties w) = Some b ->
  backed w b ->
  let end_ := BountyController.completeBounty out user i w in
  code (fst end_) = 200 ->
  exists escrowAddress n k x tx,
    In (Sent escrowAddress n (escrowId b)) (events w) /\
    hunterWalletId b = Some k /\
    find_wallet k (wallets w) = Some x /\
    events (snd end_) =
    events w ++ [ReleaseEscrowCall (escrowId b) (claimedBy b) (amount b)
                   (hunterWalletId b);
                 Sent (publicKey x) n tx].
Proof.
  intros Hb (to & n & tx0 & Hin & Hu & Hs) end_. subst end_.
  rewrite completeBounty_eq, Hb.
  destruct (negb (createdBy b =? user)); [discriminate|].
  destruct (Status_eqb (status b) CLAIMED) eqn:Hst; [|discriminate].
  apply Status_eqb_eq in Hst. simpl negb. cbv iota.
  destruct (releaseEscrow_cases out (escrowId b) (claimedBy b) (amount b)
              (hunterWalletId b) w)
    as [(m & Hr & He) | (k & x & n' & tx & Hk & Hx & Hn & _ & Hr & He)];
    destruct (Radius.releaseEscrow _ _ _ _ _ _) as [r w1];
    simpl in Hr, He; subst r; [discriminate|].
  intros _. simpl.
  assert (n' = n) as -> by (unfold units in Hu; congruence).
  exists to, n, k, x, tx. repeat split; try assumption.
  rewrite <- Hs; [exact Hin | congruence].
Qed.

Lemma release_sends_what_was_funded_witness :
  let w := run [fund out_ok 10 (post two_and_a_half); claim 20 1 (Some 2)]
             world0 in
  let b := mkBounty 1 "octo" "repo" 7 two_and_a_half "USD" CLAIMED
             "0xtx:0xe5c0:2500000000000000000" 10 (Some 20) (Some 1) (Some 2) in
  let end_ := BountyController.completeBounty out_ok 10 1 w in
  exists escrowAddress n k x tx,
    In (Sent escrowAddress n (escrowId b)) (events w) /\
    hunterWalletId b = Some k /\
    find_wallet k (wallets w) = Some x /\
    events (snd end_) =
    events w ++ [ReleaseEscrowCall (escrowId b) (claimedBy b) (amount b)
                   (hunterWalletId b);
                 Sent (publicKey x) n tx].
Proof.
  intros w b end_.
  assert (Hb : find_bounty 1 (bounties w) = Some b) by (vm_compute; reflexivity).
  assert (Hbacked : backed w b).
  { exists "0xe5c0"%string, 2500000000000000000,
      "0xtx:0xe5c0:2500000000000000000"%string.
    split; [vm_compute; right; now left|].
    split; [vm_compute; reflexivity | reflexivity]. }
  assert (Hc : code (fst end_) = 200) by (vm_compute; reflexivity).
  exact (release_sends_what_was_funded out_ok 10 1 w b Hb Hbacked Hc).
Defined.

Lemma valid_mantissa (s : bool) (m : positive) (e : Z) :
  valid_binary prec emax (S754_finite s m e) = true -> Zpos m < 2 ^ 53.
Proof.
  unfold valid_binary, bounded, canonical_mantissa, fexp, emin, prec, emax.
  intro H. apply andb_prop in H. destruct H as [H _]. apply Z.eqb_eq in H.
  rewrite digits2_size in H. fold Z.max in H.
  assert (Hs : Zpos (Pos.size m) <= 53) by lia.
  pose proof (Pos.size_gt m) as Hgt.
  apply Pos2Z.pos_lt_pos in Hgt. rewrite Pos2Z.inj_pow in Hgt.
  eapply Z.lt_le_trans; [exact Hgt|].
  apply Z.pow_le_mono_r; lia.
Qed.

(** Where [BigInt] takes a double as it is, flooring it first changes
    nothing. *)
Lemma BigInt_is_floor (x : double) (n : Z) :
  valid_binary prec emax x = true ->
  BigInt x = Ok n -> BigInt (Math_floor x) = Ok n.
Proof.
  destruct x as [s | s | | s m e]; try (simpl; auto; discriminate).
  intros Hv HB. pose proof (valid_mantissa s m e Hv) as Hm.
  destruct (BigInt_floor s m e Hm) as (n0 & Hf & HB0).
  rewrite HB0. f_equal.
  unfold floored in Hf. unfold BigInt in HB.
  destruct (0 <=? e) eqn:E; [congruence|].
  apply Z.leb_gt in E.
  destruct (Zpos m mod 2 ^ (- e) =? 0) eqn:D; [|discriminate].
  apply Z.eqb_eq in D. injection HB as <-. injection Hf as <-.
  assert (Hd : 0 < 2 ^ (- e)) by (apply Z.pow_pos_nonneg; lia).
  destruct s; simpl; [|reflexivity].
  change (Z.neg m) with (- Zpos m). rewrite Z.div_opp_l_z by lia.
  reflexivity.
Qed.

Lemma refund_units (amt : double) (n : Z) :
  valid_binary prec emax (mul amt ten18) = true ->
  BigInt (mul amt ten18) = Ok n -> units amt = Ok n.
Proof.
  intros Hv HB. unfold units.
  destruct amt as [s | s | | s m e]; unfold parseFloat;
    apply BigInt_is_floor; assumption.
Qed.

(** X10. A refund that goes through returns what was funded: when the
    bounty is backed, the product amount * 10**18 is a binary64 value, and
    cancelBounty answers 200, the transfer it sends carries the very number
    of base units that the funding transfer recorded in escrowId carried
    to escrow.  (The refund converts without flooring; where that matters
    the call does not answer 200.) *)
Theorem refund_sends_what_was_funded
    (out : Outside) (user i : Z) (refund : option Z) (w : World) (b : Bounty) :
  find_bounty i (bounties w) = Some b ->
  backed w b ->
  valid_binary prec emax (mul (amount b) ten18) = true ->
  let end_ := BountyController.cancelBounty out user i refund w in
  code (fst end_) = 200 ->
  exists escrowAddress n k x tx,
    In (Sent escrowAddress n (escrowId b)) (events w) /\
    walletIdToUse refund b = Some k /\
    find_wallet k (wallets w) = Some x /\
    events (snd end_) =
    events w ++ [RefundEscrowCall (escrowId b) user (amount b)
                   (walletIdToUse refund b);
                 Sent (publicKey x) n tx].
Proof.
  intros Hb (to & n & tx0 & Hin & Hu & Hs) Hv end_. subst end_.
  rewrite cancelBounty_eq, Hb.
  destruct (negb (createdBy b =? user)); [discriminate|].
  destruct (negb (Status_eqb (status b) OPEN)
            && negb (Status_eqb (status b) CLAIMED)) eqn:Hst; [discriminate|].
  assert (Hnot : status b <> COMPLETED)
    by (destruct (status b); simpl in Hst; discriminate).
  destruct (refundEscrow_cases out (escrowId b) user (amount b)
              (walletIdToUse refund b) w)
    as [(m & Hr & He) | (k & x & n' & tx & Hk & Hx & Hn & _ & Hr & He)];
    destruct (Radius.refundEscrow _ _ _ _ _ _) as [r w1];
    simpl in Hr, He; subst r; [discriminate|].
  intros _. simpl.
  assert (n' = n) as ->
    by (apply (refund_units _ _ Hv) in Hn; congruence).
  exists to, n, k, x, tx. repeat split; try assumption.
  now rewrite <- Hs.
Qed.

Lemma refund_sends_what_was_funded_witness :
  let w := run [fund out_ok 10 (post two_and_a_half)] world0 in
  let b := mkBounty 1 "octo" "repo" 7 two_and_a_half "USD" OPEN
             "0xtx:0xe5c0:2500000000000000000" 10 None (Some 1) None in
  let end_ := BountyController.cancelBounty out_ok 10 1 (Some 3) w in
  exists escrowAddress n k x tx,
    In (Sent escrowAddress n (escrowId b)) (events w) /\
    walletIdToUse (Some 3) b = Some k /\
    find_wallet k (wallets w) = Some x /\
    events (snd end_) =
    events w ++ [RefundEscrowCall (escrowId b) 10 (amount b)
                   (walletIdToUse (Some 3) b);
                 Sent (publicKey x) n tx].
Proof.
  intros w b end_.
  assert (Hb : find_bounty 1 (bounties w) = Some b) by (vm_compute; reflexivity).
  assert (Hbacked : backed w b).
  { exists "0xe5c0"%string, 2500000000000000000,
      "0xtx:0xe5c0:2500000000000000000"%string.
    split; [vm_compute; right; now left|].
    split; [vm_compute; reflexivity | reflexivity]. }
  assert (Hv : valid_binary prec emax (mul (amount b) ten18) = true)
    by (vm_compute; reflexivity).
  assert (Hc : code (fst end_) = 200) by (vm_compute; reflexivity).
  exact (refund_sends_what_was_funded out_ok 10 1 (Some 3) w b Hb Hbacked Hv Hc).
Defined.

(** ** Claims whose hunter wallet was deleted *)









(** ** Wallet associations *)

Lemma entry_bump (k j : Z) (m : list (Z * nat)) :
  WalletStore.entry k (WalletStore.bump j m) =
  if j =? k then Some (S (count_of k m)) else WalletStore.entry k m.
Proof.
  unfold count_of.
  induction m as [|[k' n] rest IH]; cbn -[Z.eqb]; [reflexivity|].
  destruct (Z.eqb_spec k' j) as [->|Hj]; cbn -[Z.eqb].
  - now destruct (Z.eqb_spec j k).
  - rewrite IH.
    destruct (Z.eqb_spec k' k) as [->|Hk]; [|reflexivity].
    destruct (Z.eqb_spec j k); [congruence | reflexivity].
Qed.

Lemma entry_bump_if (ids : list Z) (x : option Z) (k : Z) (m : list (Z * nat)) :
  k <> 0 -> existsb (Z.eqb k) ids = true ->
  WalletStore.entry k (WalletStore.bump_if ids x m) =
  if same x (Some k) then Some (S (count_of k m)) else WalletStore.entry k m.
Proof.
  intros Hk Hin. unfold WalletStore.bump_if, WalletStore.owned_id.
  destruct x as [j|]; [|reflexivity]. cbn -[Z.eqb].
  destruct (Z.eqb_spec j k) as [->|Hj].
  - apply Z.eqb_neq in Hk. rewrite Hk, Hin. cbn -[Z.eqb].
    now rewrite entry_bump, Z.eqb_refl.
  - destruct (negb _ && _); [|reflexivity].
    rewrite entry_bump. now destruct (Z.eqb_spec j k).
Qed.

Lemma entry_bump_if_other (ids : list Z) (x : option Z) (k : Z)
    (m : list (Z * nat)) :
  existsb (Z.eqb k) ids = false ->
  WalletStore.entry k (WalletStore.bump_if ids x m) = WalletStore.entry k m.
Proof.
  intro Hout. unfold WalletStore.bump_if, WalletStore.owned_id.
  destruct x as [j|]; [|reflexivity].
  destruct (existsb (Z.eqb j) ids) eqn:Hj;
    [|now rewrite andb_false_r].
  destruct (negb (j =? 0)); [|reflexivity]. cbn -[Z.eqb].
  rewrite entry_bump.
  destruct (Z.eqb_spec j k) as [->|]; [congruence | reflexivity].
Qed.

Lemma tally_counts (ids : list Z) (k : Z) (m : list (Z * nat)) (b : Bounty) :
  k <> 0 -> existsb (Z.eqb k) ids = true ->
  WalletStore.entry k m <> Some 0%nat ->
  WalletStore.entry k (WalletStore.tally ids m b) <> Some 0%nat /\
  count_of k (WalletStore.tally ids m b) =
  (count_of k m
   + (if same (ownerWalletId b) (Some k) then 1 else 0)
   + (if same (hunterWalletId b) (Some k) then 1 else 0))%nat.
Proof.
  intros Hk Hin Hm. unfold WalletStore.tally, count_of.
  rewrite (entry_bump_if ids (hunterWalletId b)) by assumption.
  unfold count_of.
  rewrite (entry_bump_if ids (ownerWalletId b)) by assumption.
  unfold count_of.
  destruct (same (ownerWalletId b) (Some k)),
    (same (hunterWalletId b) (Some k)),
    (WalletStore.entry k m) as [n|];
    split; try discriminate; try assumption; lia.
Qed.

Lemma among_named (ids : list Z) (x : option Z) (k : Z) :
  existsb (Z.eqb k) ids = true -> same x (Some k) = true ->
  WalletStore.among ids x = true.
Proof.
  intros Hin H. apply same_Some in H. subst x. exact Hin.
Qed.

Lemma associations_fold (ids : list Z) (k : Z) (bs : list Bounty)
    (m : list (Z * nat)) :
  k <> 0 -> existsb (Z.eqb k) ids = true ->
  WalletStore.entry k m <> Some 0%nat ->
  let answer :=
    fold_left (WalletStore.tally ids)
      (filter (fun b => WalletStore.among ids (ownerWalletId b)
                        || WalletStore.among ids (hunterWalletId b)) bs) m in
  WalletStore.entry k answer <> Some 0%nat /\
  count_of k answer =
  (count_of k m
   + List.length (filter (WalletController.references k) bs)
   + List.length (filter (both_roles k) bs))%nat.
Proof.
  intros Hk Hin. revert m.
  induction bs as [|b bs IH]; intros m Hm; cbn [filter fold_left].
  - split; [exact Hm | cbn; lia].
  - unfold WalletController.references at 1, both_roles at 1.
    destruct (WalletStore.among ids (ownerWalletId b)
              || WalletStore.among ids (hunterWalletId b)) eqn:P.
    + cbn [fold_left].
      destruct (tally_counts ids k m b Hk Hin Hm) as [Hm' Hc].
      destruct (IH _ Hm') as [H1 H2]. split; [exact H1|].
      cbv zeta in H2. rewrite H2, Hc.
      destruct (same (ownerWalletId b) (Some k)),
        (same (hunterWalletId b) (Some k)); cbn [orb andb List.length]; lia.
    + apply orb_false_iff in P. destruct P as [Po Ph].
      destruct (same (ownerWalletId b) (Some k)) eqn:So;
        [rewrite (among_named ids _ k Hin So) in Po; discriminate|].
      destruct (same (hunterWalletId b) (Some k)) eqn:Sh;
        [rewrite (among_named ids _ k Hin Sh) in Ph; discriminate|].
      cbn [orb andb]. now apply IH.
Qed.

Lemma own_wallet_listed (user k : Z) (rows : list Wallet) (x : Wallet) :
  find_wallet k rows = Some x -> userId x = user ->
  existsb (Z.eqb k)
    (map wallet_id (WalletController.wallets_of user rows)) = true.
Proof.
  intros Hx Hu. apply existsb_exists. exists k. split; [|apply Z.eqb_refl].
  destruct (find_wallet_found k rows x Hx) as [<- Hin].
  apply in_map. apply wallets_of_In. auto.
Qed.

(** X12. What getWalletAssociations answers for a wallet of the user (with
    an id other than 0): the number of bounties that name the wallet as
    owner or hunter wallet, plus once more each bounty that names it in
    both roles; the key is absent when no bounty names the wallet.  So the
    count equals the bountyCount of deleteWallet exactly when no bounty has
    the wallet in both roles. *)
Theorem associations_count (user k : Z) (w : World) (x : Wallet) :
  k <> 0 ->
  find_wallet k (wallets w) = Some x ->
  userId x = user ->
  WalletStore.entry k (WalletStore.getWalletAssociations user w) =
  match (List.length (filter (WalletController.references k) (bounties w))
         + List.length (filter (both_roles k) (bounties w)))%nat with
  | O => None
  | S n => Some (S n)
  end.
Proof.
  intros Hk Hx Hu. unfold WalletStore.getWalletAssociations. cbv zeta.
  destruct (associations_fold
              (map wallet_id (WalletController.wallets_of user (wallets w)))
              k (bounties w) [] Hk (own_wallet_listed user k _ x Hx Hu))
    as [Hnz Hc]; [discriminate|].
  cbv zeta in Hnz, Hc. unfold count_of in Hc. cbn [WalletStore.entry] in Hc.
  cbn [Nat.add] in Hc.
  destruct (WalletStore.entry k _) as [n|]; rewrite <- Hc;
    [destruct n; [congruence | reflexivity] | reflexivity].
Qed.

(** Bounty 1 names wallet 1 as owner wallet and bounty 2 names it in both
    roles: the associations count 3 where deleteWallet counts 2. *)
Lemma associations_count_witness :
  let w := run [fund out_ok 10 (post two_and_a_half);
                fund out_ok 10 (post two_and_a_half);
                claim 10 2 (Some 1);
                fund out_ok 20
                  (BountyController.mkCreateBody "octo" "repo" 8
                     two_and_a_half (Some 2))] world0 in
  WalletStore.entry 1 (WalletStore.getWalletAssociations 10 w) =
  match (List.length (filter (WalletController.references 1) (bounties w))
         + List.length (filter (both_roles 1) (bounties w)))%nat with
  | O => None
  | S n => Some (S n)
  end.
Proof.
  intro w.
  apply (associations_count 10 1 w lister_wallet);
    [lia | vm_compute; reflexivity | reflexivity].
Defined.

Lemma associations_skip (ids : list Z) (k : Z) (bs : list Bounty)
    (m : list (Z * nat)) :
  existsb (Z.eqb k) ids = false ->
  WalletStore.entry k (fold_left (WalletStore.tally ids) bs m) =
  WalletStore.entry k m.
Proof.
  intro Hout. revert m.
  induction bs as [|b bs IH]; intro m; cbn [fold_left]; [reflexivity|].
  rewrite IH. unfold WalletStore.tally.
  now rewrite !entry_bump_if_other.
Qed.

(** X13. getWalletAssociations answers for the wallets of the user only:
    an id that is not the id of one of the user's wallets is not a key of
    the answer, whatever bounties name it. *)
Theorem associations_only_of_own_wallets (user k : Z) (w : World) :
  ~ In k (map wallet_id (WalletController.wallets_of user (wallets w))) ->
  WalletStore.entry k (WalletStore.getWalletAssociations user w) = None.
Proof.
  intro Hout. unfold WalletStore.getWalletAssociations. cbv zeta.
  rewrite associations_skip; [reflexivity|].
  destruct (existsb _ _) eqn:E; [|reflexivity].
  apply existsb_exists in E. destruct E as (j & Hj & E).
  apply Z.eqb_eq in E. subst j. contradiction.
Qed.

Lemma associations_only_of_own_wallets_witness :
  let w := run [fund out_ok 10 (post two_and_a_half);
                fund out_ok 20
                  (BountyController.mkCreateBody "octo" "repo" 8
                     two_and_a_half (Some 2))] world0 in
  WalletStore.entry 2 (WalletStore.getWalletAssociations 10 w) = None.
Proof.
  intro w. apply associations_only_of_own_wallets.
  assert (E : map wallet_id (WalletController.wallets_of 10 (wallets w)) = [1])
    by (vm_compute; reflexivity).
  rewrite E. simpl. lia.
Defined.

(** ** Private keys as text *)

Lemma length_cat (a b : string) :
  String.length (a +++ b) = (String.length a + String.length b)%nat.
Proof. unfold cat. induction a as [|c a IH]; simpl; [reflexivity | now rewrite IH]. Qed.

Lemma all_chars_cat (allowed : Ascii.ascii -> bool) (a b : string) :
  all_chars allowed (a +++ b) = all_chars allowed a && all_chars allowed b.
Proof.
  unfold cat. induction a as [|c a IH]; simpl; [reflexivity|].
  now rewrite IH, andb_assoc.
Qed.

Lemma all_chars_keep (allowed : Ascii.ascii -> bool) (s : string) :
  all_chars allowed (WalletStore.keep allowed s) = true.
Proof.
  induction s as [|c s IH]; simpl; [reflexivity|].
  destruct (allowed c) eqn:E; simpl; [now rewrite E | exact IH].
Qed.

Lemma keep_all (allowed : Ascii.ascii -> bool) (s : string) :
  all_chars allowed s = true -> WalletStore.keep allowed s = s.
Proof.
  induction s as [|c s IH]; simpl; [reflexivity|].
  intro H. apply andb_prop in H. destruct H as [-> H]. now rewrite IH.
Qed.

Lemma length_first_chars (n : nat) (s : string) :
  (n <= String.length s)%nat -> String.length (WalletStore.first_chars n s) = n.
Proof.
  revert s. induction n as [|n IH]; intros [|c s]; simpl; try lia.
  intro H. rewrite IH; lia.
Qed.

Lemma all_chars_first_chars (allowed : Ascii.ascii -> bool) (n : nat)
    (s : string) :
  all_chars allowed s = true ->
  all_chars allowed (WalletStore.first_chars n s) = true.
Proof.
  revert s. induction n as [|n IH]; intros [|c s]; simpl; try reflexivity.
  intro H. apply andb_prop in H. destruct H as [-> H]. now apply IH.
Qed.

Lemma length_zeros (n : nat) : String.length (WalletStore.zeros n) = n.
Proof. induction n as [|n IH]; simpl; [reflexivity | now rewrite IH]. Qed.

Lemma all_chars_zeros (n : nat) :
  all_chars WalletStore.is_hex (WalletStore.zeros n) = true.
Proof. induction n as [|n IH]; [reflexivity | exact IH]. Qed.

Lemma prefix_0x (digits : string) : String.prefix "0x" ("0x" +++ digits) = true.
Proof. unfold cat. simpl. now destruct digits. Qed.

Lemma hex_or_x (s : string) :
  all_chars WalletStore.is_hex s = true ->
  all_chars WalletStore.is_hex_or_x s = true.
Proof.
  induction s as [|c s IH]; simpl; [reflexivity|].
  intro H. apply andb_prop in H. destruct H as [Hc H].
  unfold WalletStore.is_hex_or_x at 1. rewrite Hc. simpl. now apply IH.
Qed.

Lemma normalize_key_text (s : string) :
  key_text s -> WalletStore.normalize_decrypted s = s.
Proof.
  intros (digits & -> & Hlen & Hhex).
  unfold WalletStore.normalize_decrypted. rewrite prefix_0x. cbv zeta.
  change (WalletStore.drop_chars 2 ("0x" +++ digits)) with digits.
  rewrite keep_all, Hlen by exact Hhex.
  reflexivity.
Qed.

Lemma sanitize_key_text (s : string) :
  key_text s -> WalletStore.sanitize_privateKey s = s.
Proof.
  intros (digits & -> & Hlen & Hhex).
  unfold WalletStore.sanitize_privateKey. rewrite prefix_0x. cbv zeta.
  rewrite keep_all
    by (rewrite all_chars_cat; rewrite (hex_or_x digits Hhex); reflexivity).
  rewrite length_cat, Hlen. reflexivity.
Qed.

(** X14. Whatever text the cipher gives back, decryptPrivateKey returns a
    well-formed key, 0x followed by exactly 64 hexadecimal digits; and the
    sanitising that initializeWalletRadius then applies to it changes
    nothing. *)
Theorem decrypted_key_is_well_formed (decrypted : string) :
  key_text (WalletStore.normalize_decrypted decrypted) /\
  WalletStore.sanitize_privateKey (WalletStore.normalize_decrypted decrypted) =
  WalletStore.normalize_decrypted decrypted.
Proof.
  assert (H : key_text (WalletStore.normalize_decrypted decrypted)).
  { unfold WalletStore.normalize_decrypted. cbv zeta.
    set (d2 := WalletStore.keep WalletStore.is_hex _).
    assert (Hhex : all_chars WalletStore.is_hex d2 = true)
      by apply all_chars_keep.
    eexists. split; [reflexivity|].
    destruct (Nat.ltb_spec 64 (String.length d2)) as [Hlong|Hle].
    - split; [apply length_first_chars; lia |
              now apply all_chars_first_chars].
    - destruct (Nat.ltb_spec (String.length d2) 64) as [Hshort|Hge].
      + unfold WalletStore.padStart. split.
        * rewrite length_cat, length_zeros. lia.
        * rewrite all_chars_cat, all_chars_zeros. exact Hhex.
      + split; [lia | exact Hhex]. }
  split; [exact H | now apply sanitize_key_text].
Qed.

(** X15. A well-formed key (0x and 64 hexadecimal digits) passes through
    the clean-up of decryptPrivateKey and through the sanitising of
    initializeWalletRadius unchanged. *)
Theorem well_formed_key_is_left_alone (key : string) :
  key_text key ->
  WalletStore.normalize_decrypted key = key /\
  WalletStore.sanitize_privateKey key = key.
Proof.
  intro H. split; [now apply normalize_key_text | now apply sanitize_key_text].
Qed.

Lemma well_formed_key_is_left_alone_witness :
  let key :=
    "0x00112233445566778899aabbccddeeff00112233445566778899AABBCCDDEEFF"%string in
  WalletStore.normalize_decrypted key = key /\
  WalletStore.sanitize_privateKey key = key.
Proof.
  intro key. apply well_formed_key_is_left_alone.
  exists "00112233445566778899aabbccddeeff00112233445566778899AABBCCDDEEFF"%string.
  repeat split; vm_compute; reflexivity.
Defined.

(** ** Whose wallet funds an escrow *)

(** X16. createEscrow checks the owner of the funding wallet when no client
    is cached for it: if the wallet does not exist or belongs to another
    user, the call is rejected, nothing is sent, and no client is
    cached. *)
Theorem createEscrow_checks_the_owner
    (out : Outside) (user : Z) (amt : double) (k : Z) (w : World) :
  existsb (Z.eqb k) (walletClients w) = false ->
  (forall x, find_wallet k (wallets w) = Some x -> userId x <> user) ->
  let end_ := Radius.createEscrow out user amt k w in
  rejected (fst end_) = true /\
  events (snd end_) = events w ++ [CreateEscrowCall user amt k] /\
  walletClients (snd end_) = walletClients w.
Proof.
  intros Hmiss Hown end_. subst end_.
  unfold Radius.createEscrow, Radius.initializeWalletRadius,
    Radius.getWalletWithPrivateKey, prisma_wallet_findUnique,
    catch, bind, emit, lift, throw, ret.
  simpl. rewrite Hmiss.
  destruct (negb (RADIUS_API_URL out)); simpl; [auto|].
  destruct (find_wallet k (wallets w)) as [x|] eqn:Hx; simpl; [|auto].
  specialize (Hown x eq_refl). apply Z.eqb_neq in Hown. rewrite Hown.
  simpl. auto.
Qed.

Lemma createEscrow_checks_the_owner_witness :
  let end_ := Radius.createEscrow out_ok 20 two_and_a_half 1 world0 in
  rejected (fst end_) = true /\
  events (snd end_) = events world0 ++ [CreateEscrowCall 20 two_and_a_half 1] /\
  walletClients (snd end_) = walletClients world0.
Proof.
  apply createEscrow_checks_the_owner; [reflexivity|].
  simpl. intros x [= <-]. simpl. lia.
Defined.

(** X17. Once a client is cached for a wallet, createEscrow no longer
    looks at the wallet table: its result is the same for every calling
    user and whatever the wallet table holds, also when the wallet has been
    deleted or belongs to someone else. *)
Theorem cached_client_serves_any_user
    (out : Outside) (user user' : Z) (amt : double) (k : Z) (w : World)
    (rows : list Wallet) :
  existsb (Z.eqb k) (walletClients w) = true ->
  fst (Radius.createEscrow out user amt k w) =
  fst (Radius.createEscrow out user' amt k (set_wallets rows w)).
Proof.
  intro Hhit.
  unfold Radius.createEscrow, Radius.initializeWalletRadius, Radius.send,
    catch, bind, emit, lift, throw, ret.
  simpl. rewrite Hhit.
  repeat break_match; simpl; congruence.
Qed.

Lemma cached_client_serves_any_user_witness :
  let w := run [fund out_ok 10 (post two_and_a_half)] world0 in
  fst (Radius.createEscrow out_ok 10 two_and_a_half 1 w) =
  fst (Radius.createEscrow out_ok 20 two_and_a_half 1 (set_wallets [] w)).
Proof.
  intro w. apply cached_client_serves_any_user. vm_compute. reflexivity.
Defined.

(** ** The copies the pages keep *)

Lemma filter_Permutation {A} (p : A -> bool) (l l' : list A) :
  Permutation l l' -> Permutation (filter p l) (filter p l').
Proof.
  induction 1 as [|a l l' _ IH|a b l|l l' l'' _ IH1 _ IH2]; simpl.
  - constructor.
  - destruct (p a); [now constructor | exact IH].
  - destruct (p a), (p b); try reflexivity. constructor.
  - now transitivity (filter p l').
Qed.

Lemma filter_all {A} (p : A -> bool) (l : list A) :
  (forall a, In a l -> p a = true) -> filter p l = l.
Proof.
  induction l as [|a l IH]; intro H; simpl; [reflexivity|].
  rewrite (H a) by now left. rewrite IH; [reflexivity|].
  intros b Hb. apply H. now right.
Qed.

Lemma open_after_update (i : Z) (f : Bounty -> Bounty) (rows : list Bounty) :
  NoDup (map id rows) ->
  (forall b, Status_eqb (status (f b)) OPEN = false) ->
  In i (map id rows) ->
  filter (fun b => Status_eqb (status b) OPEN) (update_bounty i f rows) =
  Pages.after_claim i (filter (fun b => Status_eqb (status b) OPEN) rows).
Proof.
  intros Hnd Hf. unfold Pages.after_claim.
  induction rows as [|x rest IH]; intro Hin; [destruct Hin|].
  inversion Hnd as [|? ? Hx Hrest]; subst. cbn -[Z.eqb].
  destruct (Z.eqb_spec (id x) i) as [E|E]; cbn -[Z.eqb].
  - rewrite Hf.
    assert (Hothers : filter (fun b => negb (id b =? i))
                        (filter (fun b => Status_eqb (status b) OPEN) rest) =
                      filter (fun b => Status_eqb (status b) OPEN) rest).
    { apply filter_all. intros b Hb. apply filter_In in Hb.
      destruct Hb as [Hb _]. apply negb_true_iff, Z.eqb_neq.
      intro Hbi. apply Hx. rewrite E, <- Hbi. now apply in_map. }
    destruct (Status_eqb (status x) OPEN); cbn -[Z.eqb]; [|now rewrite Hothers].
    apply Z.eqb_eq in E. rewrite E. cbn -[Z.eqb]. now rewrite Hothers.
  - assert (Hin' : In i (map id rest))
      by (destruct Hin as [Hin | Hin]; [contradiction | exact Hin]).
    rewrite (IH Hrest Hin').
    destruct (Status_eqb (status x) OPEN); cbn -[Z.eqb]; [|reflexivity].
    apply Z.eqb_neq in E. rewrite E. reflexivity.
Qed.

Lemma find_bounty_listed (i : Z) (rows : list Bounty) (b : Bounty) :
  find_bounty i rows = Some b -> In i (map id rows).
Proof.
  intro H. rewrite <- (find_bounty_id i rows b H).
  apply in_map. eapply find_bounty_In; eauto.
Qed.

(** X19. The list the ClaimBounty page keeps agrees with the server after
    a claim: with unique bounty ids, when claimBounty answers 200, removing
    the claimed id from a copy of the open listing gives, up to order, the
    open listing the server would answer now. *)
Theorem page_after_claim_matches_server
    (user i : Z) (wid : option Z) (w : World) (prev : list Bounty) :
  NoDup (map id (bounties w)) ->
  Permutation prev (snd (BountyQueries.listOpenBounties w)) ->
  let end_ := BountyController.claimBounty user i wid w in
  code (fst end_) = 200 ->
  Permutation (Pages.after_claim i prev)
    (snd (BountyQueries.listOpenBounties (snd end_))).
Proof.
  intros Hnd Hprev end_. subst end_. rewrite claimBounty_eq.
  destruct (negb (truthy wid)); [discriminate|].
  destruct (find_bounty i (bounties w)) as [b|] eqn:Hb; [|discriminate].
  destruct (negb _); [discriminate|]. intros _.
  unfold BountyQueries.listOpenBounties, BountyQueries.getOpenBounties in *.
  cbn [fst snd bounties set_bounties] in *.
  rewrite open_after_update;
    [ now apply filter_Permutation | exact Hnd | reflexivity
    | eapply find_bounty_listed; eauto ].
Qed.

Lemma page_after_claim_matches_server_witness :
  let w := run [fund out_ok 10 (post two_and_a_half);
                fund out_ok 10 (post two_and_a_half)] world0 in
  let end_ := BountyController.claimBounty 20 1 (Some 2) w in
  Permutation
    (Pages.after_claim 1 (rev (snd (BountyQueries.listOpenBounties w))))
    (snd (BountyQueries.listOpenBounties (snd end_))).
Proof.
  intros w end_.
  apply page_after_claim_matches_server.
  - assert (E : map id (bounties w) = [1; 2]) by (vm_compute; reflexivity).
    rewrite E. repeat constructor; simpl; lia.
  - symmetry. apply Permutation_rev.
  - vm_compute. reflexivity.
Defined.

Lemma view_cleared (user i : Z) (y : Wallet) :
  userId y = user -> wallet_id y <> i ->
  Pages.view (cleared user y) =
  Pages.mkWalletView (wallet_id y) (walletName y) (publicKey y) (wallet_id y =? i).
Proof.
  intros Hu Hi. apply Z.eqb_neq in Hi. rewrite Hi.
  unfold cleared. rewrite Hu, Z.eqb_refl. simpl.
  destruct (isDefault y) eqn:D; unfold Pages.view; simpl; [reflexivity|].
  now rewrite D.
Qed.

Lemma views_cleared (user i : Z) (rows : list Wallet) :
  (forall y, In y rows -> wallet_id y <> i) ->
  map Pages.view (WalletController.wallets_of user (map (cleared user) rows)) =
  Pages.after_set_default i
    (map Pages.view (WalletController.wallets_of user rows)).
Proof.
  unfold WalletController.wallets_of, Pages.after_set_default.
  induction rows as [|y rows IH]; intro H; cbn -[Z.eqb]; [reflexivity|].
  rewrite cleared_userId.
  destruct (Z.eqb_spec (userId y) user) as [Hu|Hu]; cbn -[Z.eqb].
  - rewrite (view_cleared user i y Hu) by (apply H; now left).
    f_equal. apply IH. intros z Hz. apply H. now right.
  - apply IH. intros z Hz. apply H. now right.
Qed.

Lemma views_after_set_default (user i : Z) (rows : list Wallet) (x : Wallet) :
  NoDup (map wallet_id rows) ->
  find_wallet i rows = Some x ->
  userId x = user ->
  map Pages.view
    (WalletController.wallets_of user
       (update_wallet i
          (WalletStore.update_data (Pages.set_default_request (Pages.view x)))
          (map (cleared user) rows))) =
  Pages.after_set_default i
    (map Pages.view (WalletController.wallets_of user rows)).
Proof.
  intros Hnd Hx Hu. revert Hnd Hx.
  induction rows as [|y rows IH]; intros Hnd Hx; [discriminate|].
  inversion Hnd as [|? ? Hy Hrows]; subst.
  cbn -[Z.eqb] in Hx |- *. rewrite cleared_id.
  destruct (Z.eqb_spec (wallet_id y) i) as [E|E].
  - injection Hx as ->.
    assert (Hrest : forall z, In z rows -> wallet_id z <> i).
    { intros z Hz Hzi. apply Hy. rewrite E, <- Hzi. now apply in_map. }
    pose proof (views_cleared (userId x) i rows Hrest) as Hv.
    unfold WalletController.wallets_of, Pages.after_set_default in *.
    cbn -[Z.eqb]. rewrite cleared_userId, Z.eqb_refl. cbn -[Z.eqb].
    rewrite Hv. f_equal.
    unfold Pages.view, cleared. rewrite Z.eqb_refl.
    apply Z.eqb_eq in E. rewrite E.
    destruct (isDefault x); simpl;
      now destruct (negb (String.eqb (walletName x) "")).
  - specialize (IH Hrows Hx).
    unfold WalletController.wallets_of, Pages.after_set_default in *.
    cbn -[Z.eqb]. rewrite cleared_userId.
    destruct (Z.eqb_spec (userId y) (userId x)) as [Hu|Hu]; cbn -[Z.eqb].
    + rewrite (view_cleared (userId x) i y Hu E). f_equal. exact IH.
    + exact IH.
Qed.

(** X20. The list the wallets page keeps agrees with the server after
    "set as default": with unique wallet ids, the request the page sends for
    a wallet of the user is answered 200, and flagging in a copy of the
    user's wallet list exactly the wallet with that id gives, up to order,
    the user's wallets as the server now holds them. *)
Theorem page_after_set_default_matches_server
    (user i : Z) (w : World) (x : Wallet) (views : list Pages.WalletView) :
  NoDup (map wallet_id (wallets w)) ->
  find_wallet i (wallets w) = Some x ->
  userId x = user ->
  Permutation views
    (map Pages.view (WalletController.wallets_of user (wallets w))) ->
  let end_ := WalletStore.updateWallet user i
                (Pages.set_default_request (Pages.view x)) w in
  code (fst end_) = 200 /\
  Permutation (Pages.after_set_default i views)
    (map Pages.view (WalletController.wallets_of user (wallets (snd end_)))).
Proof.
  intros Hnd Hx Hu Hviews end_. subst end_.
  rewrite updateWallet_eq, Hx, Hu, Z.eqb_refl.
  change (WalletStore.asks_default _) with true.
  cbn [negb fst snd code wallets set_wallets].
  split; [reflexivity|].
  rewrite (views_after_set_default user i (wallets w) x Hnd Hx Hu).
  unfold Pages.after_set_default. now apply Permutation_map.
Qed.

Lemma page_after_set_default_matches_server_witness :
  let x := mkWallet 4 10 "spare" "0xddd4" "c4" "i4" false in
  let end_ := WalletStore.updateWallet 10 4
                (Pages.set_default_request (Pages.view x)) two_wallets in
  code (fst end_) = 200 /\
  Permutation
    (Pages.after_set_default 4
       (rev (map Pages.view
               (WalletController.wallets_of 10 (wallets two_wallets)))))
    (map Pages.view (WalletController.wallets_of 10 (wallets (snd end_)))).
Proof.
  intros x end_.
  apply (page_after_set_default_matches_server 10 4 two_wallets x).
  - exact (proj2 two_wallets_unique_keys).
  - reflexivity.
  - reflexivity.
  - symmetry. apply Permutation_rev.
Defined.

Lemma views_after_delete (user i : Z) (rows : list Wallet) :
  NoDup (map wallet_id rows) ->
  map Pages.view
    (WalletController.wallets_of user (WalletController.delete_wallet i rows)) =
  Pages.after_delete i
    (map Pages.view (WalletController.wallets_of user rows)).
Proof.
  unfold WalletController.wallets_of, Pages.after_delete.
  induction rows as [|y rows IH]; intro Hnd; [reflexivity|].
  inversion Hnd as [|? ? Hy Hrows]; subst. cbn -[Z.eqb].
  destruct (Z.eqb_spec (wallet_id y) i) as [E|E].
  - assert (Hrest : filter (fun v => negb (Pages.view_id v =? i))
                      (map Pages.view (filter (fun x => userId x =? user) rows)) =
                    map Pages.view (filter (fun x => userId x =? user) rows)).
    { apply filter_all. intros v Hv. apply in_map_iff in Hv.
      destruct Hv as (z & <- & Hz). apply filter_In in Hz.
      destruct Hz as [Hz _]. apply negb_true_iff, Z.eqb_neq. simpl.
      intro Hzi. apply Hy. rewrite E, <- Hzi. now apply in_map. }
    destruct (userId y =? user); cbn -[Z.eqb]; [|now rewrite Hrest].
    apply Z.eqb_eq in E. rewrite E. cbn -[Z.eqb]. now rewrite Hrest.
  - cbn -[Z.eqb]. destruct (userId y =? user); cbn -[Z.eqb]; [|now apply IH].
    apply Z.eqb_neq in E. rewrite E. cbn -[Z.eqb]. f_equal. now apply IH.
Qed.

Lemma at_most_one (rows : list Wallet) (a b : Wallet) :
  (List.length rows <= 1)%nat -> In a rows -> In b rows -> a = b.
Proof.
  intros Hlen Ha Hb.
  destruct rows as [|c [|d rows]]; simpl in *; try lia; try tauto.
  destruct Ha as [Ha | []], Hb as [Hb | []]. congruence.
Qed.

Lemma no_default_left (user i : Z) (rows : list Wallet) (x : Wallet) :
  (List.length (defaults_of user rows) <= 1)%nat ->
  find_wallet i rows = Some x -> userId x = user -> isDefault x = true ->
  forallb (fun v => negb (Pages.view_isDefault v))
    (Pages.after_delete i
       (map Pages.view (WalletController.wallets_of user rows))) = true.
Proof.
  intros Hone Hx Hu Hd. apply forallb_forall. intros v Hv.
  unfold Pages.after_delete in Hv. apply filter_In in Hv.
  destruct Hv as [Hv Hne]. apply in_map_iff in Hv.
  destruct Hv as (y & <- & Hy). apply wallets_of_In in Hy.
  destruct Hy as [Hy Hyu]. simpl in *.
  destruct (isDefault y) eqn:Dy; [|reflexivity]. exfalso.
  destruct (find_wallet_found i rows x Hx) as [Hxi Hxin].
  assert (y = x).
  { apply (at_most_one (defaults_of user rows)); [exact Hone| |];
      apply filter_In; split; try assumption.
    - now rewrite Hyu, Z.eqb_refl, Dy.
    - now rewrite Hu, Z.eqb_refl, Hd. }
  subst y. rewrite Hxi, Z.eqb_refl in Hne. discriminate.
Qed.

(** X21. The list the wallets page keeps after a deletion: with unique
    keys and at most one default per user, when the deleted wallet was not
    the default, dropping its id from a copy of the user's wallet list
    gives, up to order, the user's wallets as the server holds them; when
    it was the default and the user has another wallet, the page's list
    shows no default wallet although the server has made one of the
    remaining wallets the default. *)
Theorem page_after_delete_misses_the_promotion (choice : nat)
    (user i : Z) (force : WalletController.Query) (w : World) (x : Wallet)
    (views : list Pages.WalletView) :
  unique_keys w ->
  one_default_at_most w ->
  find_wallet i (wallets w) = Some x ->
  userId x = user ->
  filter (WalletController.references i) (bounties w) = [] \/
  WalletController.forced force = true ->
  Permutation views
    (map Pages.view (WalletController.wallets_of user (wallets w))) ->
  let end_ := WalletController.deleteWallet choice user i force w in
  let rest := WalletController.wallets_of user
                (WalletController.delete_wallet i (wallets w)) in
  code (fst end_) = 200 /\
  (isDefault x = false ->
   Permutation (Pages.after_delete i views)
     (map Pages.view (WalletController.wallets_of user (wallets (snd end_))))) /\
  (isDefault x = true ->
   rest <> [] ->
   forallb (fun v => negb (Pages.view_isDefault v))
     (Pages.after_delete i views) = true /\
   exists another,
     In another rest /\
     defaults_of user (wallets (snd end_)) =
     [WalletController.make_default another]).
Proof.
  intros [Hb Hw] Hone Hx Hu Hgo Hviews end_ rest. subst end_ rest.
  destruct (deleteWallet_done choice user i force w x Hb Hx Hu Hgo) as [Hc ->].
  split; [exact Hc|]. split.
  - intro Hd. unfold wallets_after_delete. rewrite Hd.
    rewrite views_after_delete by exact Hw.
    unfold Pages.after_delete. now apply filter_Permutation.
  - intros Hd Hrest. split.
    + pose proof (no_default_left user i (wallets w) x (Hone user) Hx Hu Hd)
        as Hnone.
      rewrite forallb_forall in Hnone |- *. intros v Hv. apply Hnone.
      unfold Pages.after_delete in *.
      eapply Permutation_in; [|exact Hv]. now apply filter_Permutation.
    + now apply (defaults_after_promotion choice user i x (wallets w) Hw
                   (Hone user) Hx Hu Hd).
Qed.

Lemma page_after_delete_misses_the_promotion_witness :
  let views := map Pages.view
                 (WalletController.wallets_of 10 (wallets three_wallets)) in
  let end_ := WalletController.deleteWallet 1 10 1 WalletController.absent
                three_wallets in
  code (fst end_) = 200 /\
  forallb (fun v => negb (Pages.view_isDefault v))
    (Pages.after_delete 1 views) = true /\
  exists another,
    In another
      (WalletController.wallets_of 10
         (WalletController.delete_wallet 1 (wallets three_wallets))) /\
    defaults_of 10 (wallets (snd end_)) =
    [WalletController.make_default another].
Proof.
  intros views end_.
  destruct (page_after_delete_misses_the_promotion 1 10 1 WalletController.absent
              three_wallets lister_wallet views three_wallets_unique_keys
              three_wallets_one_default eq_refl eq_refl (or_introl eq_refl)
              (Permutation_refl _)) as (Hc & _ & Hdefault).
  split; [exact Hc|]. apply Hdefault; [reflexivity|]. simpl. discriminate.
Defined.

(** ** Creating a bounty *)

(** X22. What a createBounty that does not answer 201 leaves behind: no
    bounty row and an untouched wallet table, always.  For an issue that is
    open: a funding transfer that is rejected is answered 400 under the
    error GitHub API error with the message of the rejection, and no
    transfer is logged; and when the transfer has gone through and the
    database then refuses the row, the answer is again 400 GitHub API error,
    with the message of the database, the transfer stays in the log and no
    bounty exists for it. *)
Theorem createBounty_failures
    (out : Outside) (user : Z) (req : BountyController.CreateBody) (w : World) :
  let end_ := BountyController.createBounty out user req w in
  (code (fst end_) <> 201 ->
   bounties (snd end_) = bounties w /\ wallets (snd end_) = wallets w) /\
  (forall wid,
     existsb (Z.eqb user) (users w) = true ->
     BountyController.walletId req = Some wid ->
     wid <> 0 ->
     github_issue_state out = Ok (Some "open"%string) ->
     let escrow := Radius.createEscrow out user
                     (BountyController.posted_amount req) wid w in
     (forall m,
        fst escrow = Throw m ->
        fst end_ = mkResponse 400 (error_body "GitHub API error" (Some m)) /\
        forall to n tx,
          In (Sent to n tx) (events (snd end_)) -> In (Sent to n tx) (events w)) /\
     (forall tx m,
        fst escrow = Ok tx ->
        bounty_create_rejects out = Some m ->
        fst end_ = mkResponse 400 (error_body "GitHub API error" (Some m)) /\
        bounties (snd end_) = bounties w /\
        exists escrowAddress n,
          events (snd end_) =
          events w ++ [CreateEscrowCall user (BountyController.posted_amount req)
                         wid;
                       Sent escrowAddress n tx])).
Proof.
  intro end_. subst end_. rewrite createBounty_eq. split.
  - assert (Hsame : bounties w = bounties w /\ wallets w = wallets w) by auto.
    repeat match goal with
    | |- context [if ?c then _ else _] => destruct c; [intros _; exact Hsame|]
    | |- context [match BountyController.walletId req with _ => _ end] =>
        destruct (BountyController.walletId req) as [wid|];
        [|intros _; exact Hsame]
    | |- context [match github_issue_state out with _ => _ end] =>
        destruct (github_issue_state out); [|intros _; exact Hsame]
    end.
    destruct (Radius.createEscrow _ _ _ _ _) as [[tx|m] w1] eqn:R;
      destruct (quiet_at _ _ _ _ (quiet_createEscrow _ _ _ _) R)
        as (H1 & H2 & _);
      [destruct (bounty_create_rejects out)|]; simpl; auto.
    congruence.
  - intros wid Hu Hw Hwid Hg escrow. subst escrow.
    rewrite Hu, Hw, Hg. apply Z.eqb_neq in Hwid. rewrite Hwid. simpl negb.
    cbv iota.
    change (negb ("open" =? "open")%string) with false. cbv iota.
    destruct (createEscrow_cases out user (BountyController.posted_amount req)
                wid w)
      as [(m0 & Hr & He) | (addr & n & tx0 & _ & _ & _ & Hr & He)];
      destruct (Radius.createEscrow _ _ _ _ _) as [r w1] eqn:R;
      destruct (quiet_at _ _ _ _ (quiet_createEscrow _ _ _ _) R)
        as (H1 & _);
      simpl in Hr, He; subst r; simpl; split;
      try (intros; discriminate).
    + intros m [= <-]. split; [reflexivity|].
      intros to n tx Hin. rewrite He in Hin. apply in_app_iff in Hin.
      destruct Hin as [Hin | [Hin | []]]; [exact Hin | discriminate].
    + intros tx m [= <-] ->. simpl. repeat split; [exact H1|].
      exists addr, n. exact He.
Qed.

Lemma createBounty_failures_witness :
  let sent := BountyController.createBounty out_insert_fails 10
                (post two_and_a_half) world0 in
  let unsent := BountyController.createBounty out_send_fails 10
                  (post two_and_a_half) world0 in
  (fst sent =
   mkResponse 400 (error_body "GitHub API error" (Some "Foreign key constraint failed"%string)) /\
   bounties (snd sent) = bounties world0 /\
   exists escrowAddress n,
     events (snd sent) =
     events world0 ++ [CreateEscrowCall 10 two_and_a_half 1;
                       Sent escrowAddress n "0xtx:0xe5c0:2500000000000000000"]) /\
  (fst unsent =
   mkResponse 400
     (error_body "GitHub API error"
        (Some "Failed to create escrow: insufficient funds"%string)) /\
   forall to n tx,
     In (Sent to n tx) (events (snd unsent)) -> In (Sent to n tx) (events world0)).
Proof.
  intros sent unsent. split.
  - destruct (createBounty_failures out_insert_fails 10 (post two_and_a_half)
                world0) as (_ & H).
    apply (proj2 (H 1 eq_refl eq_refl ltac:(lia) eq_refl));
      vm_compute; reflexivity.
  - destruct (createBounty_failures out_send_fails 10 (post two_and_a_half)
                world0) as (_ & H).
    apply (proj1 (H 1 eq_refl eq_refl ltac:(lia) eq_refl)).
    vm_compute. reflexivity.
Defined.

(** ** Listings *)

(** X23. In a database reached from one without bounties, the claimed list
    that listUserBounties answers for a user holds exactly the bounties
    with status CLAIMED whose claimer is the user (whatever the order the
    database returns them in): a bounty that is OPEN is never in it. *)
Theorem claimed_listing_is_the_claimed
    (byCreatedAt byUpdatedAt : list Bounty -> list Bounty)
    (ops : list Op) (w : World) (user : Z) (b : Bounty) :
  (forall l, Permutation (byUpdatedAt l) l) ->
  bounties w = [] ->
  let answer :=
    BountyQueries.listUserBounties byCreatedAt byUpdatedAt user (run ops w) in
  fst answer = 200 /\
  (In b (snd (snd answer)) <->
   In b (bounties (run ops w)) /\ status b = CLAIMED /\ claimedBy b = Some user).
Proof.
  intros Hperm Hw answer. subst answer.
  unfold BountyQueries.listUserBounties, BountyQueries.getUserBounties.
  cbn [fst snd]. split; [reflexivity|].
  assert (Hc : forall b0, In b0 (bounties (run ops w)) -> consistent b0).
  { apply run_consistent. rewrite Hw. intros b0 []. }
  split.
  - intro Hin. apply (Permutation_in _ (Hperm _)) in Hin.
    apply filter_In in Hin. destruct Hin as [Hin Hp].
    apply andb_prop in Hp. destruct Hp as [Hs Ha].
    apply same_Some in Hs. destruct (Hc b Hin) as [Ho _].
    unfold BountyQueries.active in Ha.
    repeat split; try assumption.
    destruct (status b); simpl in Ha; try discriminate; [|reflexivity].
    rewrite Ho in Hs by reflexivity. discriminate.
  - intros (Hin & Hs & Hu).
    apply (Permutation_in _ (Permutation_sym (Hperm _))).
    apply filter_In. split; [exact Hin|].
    unfold BountyQueries.active. rewrite Hs, Hu. simpl.
    now rewrite Z.eqb_refl.
Qed.

Lemma claimed_listing_is_the_claimed_witness :
  let ops := [fund out_ok 10 (post two_and_a_half); claim 20 1 (Some 2)] in
  let b := mkBounty 1 "octo" "repo" 7 two_and_a_half "USD" CLAIMED
             "0xtx:0xe5c0:2500000000000000000" 10 (Some 20) (Some 1) (Some 2) in
  let answer :=
    BountyQueries.listUserBounties (@rev Bounty) (@rev Bounty) 20
      (run ops world0) in
  fst answer = 200 /\
  (In b (snd (snd answer)) <->
   In b (bounties (run ops world0)) /\
   status b = CLAIMED /\ claimedBy b = Some 20).
Proof.
  intros ops b answer.
  apply claimed_listing_is_the_claimed.
  - intro l. symmetry. apply Permutation_rev.
  - reflexivity.
Defined.

(** ** Reading a wallet back *)

Lemma find_wallet_app (i : Z) (rows : list Wallet) (x : Wallet) :
  find_wallet i (rows ++ [x]) =
  match find_wallet i rows with
  | Some y => Some y
  | None => if wallet_id x =? i then Some x else None
  end.
Proof.
  induction rows as [|y rest IH]; simpl; [reflexivity|].
  destruct (wallet_id y =? i); [reflexivity | exact IH].
Qed.

Lemma next_wallet_id_fresh (rows : list Wallet) :
  find_wallet (next_id (map wallet_id rows)) rows = None.
Proof.
  destruct (find_wallet _ rows) as [y|] eqn:E; [|reflexivity].
  apply find_wallet_In, below_next_id in E. lia.
Qed.

Lemma choose_keys_gives_up (out : Outside) (req : WalletController.CreateBody)
    (r : Response) :
  WalletController.choose_keys out req = inl r -> code r <> 201.
Proof.
  unfold WalletController.choose_keys.
  destruct (_ || _);
    [destruct (generateKeyPair out) | destruct (keyFromPrivate out _)];
    try discriminate; intros [= <-]; discriminate.
Qed.

(** X24. A wallet that createWallet answered with 201 can be read back:
    getWallet with the answered id gives its creator 200 with the very body
    of the creation, and gives every other user 403 (user ids are not
    0). *)
Theorem created_wallet_reads_back
    (out : Outside) (u : Z) (req : WalletController.CreateBody) (w : World)
    (k : Z) (name address : string) (default : bool) :
  let end_ := WalletController.createWallet out (Some u) req w in
  u <> 0 ->
  fst end_ = mkResponse 201 (wallet_body k name address default) ->
  fst (WalletStore.getWallet (Some u) (Some k) (snd end_)) =
  mkResponse 200 (wallet_body k name address default) /\
  forall other, other <> 0 -> other <> u ->
    code (fst (WalletStore.getWallet (Some other) (Some k) (snd end_))) = 403.
Proof.
  intros end_ Hu0. subst end_. unfold WalletController.createWallet.
  apply Z.eqb_neq in Hu0. rewrite Hu0.
  destruct (negb (WalletController.given _)); [discriminate|].
  destruct (negb _ && negb _); [discriminate|].
  destruct (WalletController.choose_keys out req) as [r | [privateKey pk]]
    eqn:Hkeys.
  { apply choose_keys_gives_up in Hkeys. simpl. intros ->.
    now contradiction Hkeys. }
  destruct (encryptPrivateKey out privateKey) as [[encrypted vector]|];
    [|discriminate].
  cbv zeta. cbn [fst snd wallet_id walletName publicKey isDefault].
  intros [= <- <- <- <-].
  unfold WalletStore.getWallet. cbn [wallets set_wallets].
  rewrite find_wallet_app, next_wallet_id_fresh.
  cbn [wallet_id userId]. rewrite !Z.eqb_refl, Hu0.
  split; [reflexivity|].
  intros other Ho Hne. cbn [userId].
  apply Z.eqb_neq in Ho. rewrite Ho.
  destruct (Z.eqb_spec u other); [congruence | reflexivity].
Qed.

Lemma created_wallet_reads_back_witness :
  let req := WalletController.mkCreateBody (Some "b"%string) None None true None in
  let end_ := WalletController.createWallet out_ok (Some 10) req world0 in
  fst (WalletStore.getWallet (Some 10) (Some 4) (snd end_)) =
  mkResponse 200 (wallet_body 4 "b" "0xnewpublic" false) /\
  forall other, other <> 0 -> other <> 10 ->
    code (fst (WalletStore.getWallet (Some other) (Some 4) (snd end_))) = 403.
Proof.
  intros req end_.
  apply (created_wallet_reads_back out_ok 10 req world0 4 "b" "0xnewpublic" false);
    [lia | vm_compute; reflexivity].
Defined.

(** ** Repository webhooks *)

Lemma length_update_hook (i : Z) (f : Webhooks.Hook -> Webhooks.Hook)
    (rows : list Webhooks.Hook) :
  List.length (Webhooks.update_hook i f rows) = List.length rows.
Proof.
  induction rows as [|h rows IH]; simpl; [reflexivity|].
  destruct (Webhooks.hook_id h =? i); simpl; [reflexivity | now rewrite IH].
Qed.

Lemma length_remove_hook (i : Z) (rows : list Webhooks.Hook) (h : Webhooks.Hook) :
  Webhooks.find_hook i rows = Some h ->
  S (List.length (Webhooks.remove_hook i rows)) = List.length rows.
Proof.
  induction rows as [|x rows IH]; simpl; [discriminate|].
  destruct (Webhooks.hook_id x =? i); simpl; [reflexivity|].
  intro H. now rewrite IH.
Qed.

Lemma createRepositoryWebhook_rows (gh : Webhooks.GitHub)
    (user : Webhooks.Account) (repoOwner repoName : string) (s : Webhooks.Store) :
  let end_ := Webhooks.createRepositoryWebhook gh user repoOwner repoName s in
  Webhooks.accounts (snd end_) = Webhooks.accounts s /\
  match fst end_ with
  | Ok _ => (List.length (Webhooks.hooks (snd end_))
             <= S (List.length (Webhooks.hooks s)))%nat
  | Throw _ => Webhooks.hooks (snd end_) = Webhooks.hooks s
  end.
Proof.
  unfold Webhooks.createRepositoryWebhook, Webhooks.validateGitHubToken,
    Webhooks.prisma_create, Webhooks.and_then, Webhooks.ask, Webhooks.request,
    Webhooks.unit_, Webhooks.fail.
  destruct (negb (WalletController.given (Webhooks.token user))) eqn:G;
    simpl; [auto|].
  destruct (Webhooks.user_ok gh (Webhooks.asked s)); simpl; [|auto].
  destruct (Webhooks.find_repo repoOwner repoName (Webhooks.hooks s)) eqn:F;
    simpl; [split; [reflexivity | lia]|].
  destruct (Webhooks.hook_posted gh _); simpl; [|auto].
  rewrite F. simpl. split; [reflexivity|]. rewrite length_app. simpl. lia.
Qed.

Lemma updateRepositoryWebhook_eq (gh : Webhooks.GitHub)
    (webhook : Webhooks.Hook) (s : Webhooks.Store) :
  Webhooks.updateRepositoryWebhook gh webhook s =
  let s2 := Webhooks.mkStore (Webhooks.accounts s) (Webhooks.hooks s)
              (Webhooks.serial s) (S (S (Webhooks.asked s))) in
  let secret := Webhooks.randomBytes gh (Webhooks.asked s) in
  match Webhooks.hook_patched gh (S (Webhooks.asked s)) with
  | Throw m => (Throw m, s2)
  | Ok _ =>
      match Webhooks.find_hook (Webhooks.hook_id webhook) (Webhooks.hooks s) with
      | Some h =>
          (Ok (Webhooks.with_secret secret h),
           Webhooks.set_hooks
             (Webhooks.update_hook (Webhooks.hook_id webhook)
                (Webhooks.with_secret secret) (Webhooks.hooks s)) s2)
      | None => (Throw "Record to update not found.", s2)
      end
  end.
Proof.
  unfold Webhooks.updateRepositoryWebhook, Webhooks.prisma_update,
    Webhooks.and_then, Webhooks.ask, Webhooks.request.
  simpl. destruct (Webhooks.hook_patched gh _); reflexivity.
Qed.

Lemma checkAndUpdateWebhook_eq (gh : Webhooks.GitHub)
    (user : Webhooks.Account) (webhook : Webhooks.Hook) (s : Webhooks.Store) :
  Webhooks.checkAndUpdateWebhook gh user webhook s =
  let s1 := Webhooks.mkStore (Webhooks.accounts s) (Webhooks.hooks s)
              (Webhooks.serial s) (S (Webhooks.asked s)) in
  match Webhooks.hook_got gh (Webhooks.asked s) with
  | Webhooks.got currentUrl active =>
      if negb (String.eqb currentUrl (Webhooks.expectedUrl gh webhook))
         || negb active
      then Webhooks.updateRepositoryWebhook gh webhook s1
      else (Ok webhook, s1)
  | Webhooks.got_404 _ =>
      match Webhooks.find_hook (Webhooks.hook_id webhook) (Webhooks.hooks s) with
      | Some _ =>
          Webhooks.createRepositoryWebhook gh user
            (Webhooks.hook_repoOwner webhook) (Webhooks.hook_repoName webhook)
            (Webhooks.set_hooks
               (Webhooks.remove_hook (Webhooks.hook_id webhook)
                  (Webhooks.hooks s)) s1)
      | None => (Throw "Record to delete does not exist.", s1)
      end
  | Webhooks.got_error m => (Throw m, s1)
  end.
Proof.
  unfold Webhooks.checkAndUpdateWebhook.
  unfold Webhooks.and_then at 1. unfold Webhooks.ask at 1. cbv beta iota zeta.
  destruct (Webhooks.hook_got gh (Webhooks.asked s)) as [url active|m|m].
  - now destruct (_ || _).
  - unfold Webhooks.and_then at 1. unfold Webhooks.prisma_delete.
    simpl Webhooks.hooks.
    now destruct (Webhooks.find_hook _ _).
  - reflexivity.
Qed.

Lemma checkAndUpdateWebhook_rows (gh : Webhooks.GitHub)
    (user : Webhooks.Account) (webhook : Webhooks.Hook) (s : Webhooks.Store) :
  let end_ := Webhooks.checkAndUpdateWebhook gh user webhook s in
  Webhooks.accounts (snd end_) = Webhooks.accounts s /\
  (List.length (Webhooks.hooks (snd end_)) <= List.length (Webhooks.hooks s))%nat.
Proof.
  cbv zeta. rewrite checkAndUpdateWebhook_eq. cbv zeta.
  destruct (Webhooks.hook_got gh (Webhooks.asked s)) as [url active|m|m].
  - destruct (_ || _); [|simpl; auto].
    rewrite updateRepositoryWebhook_eq. cbv zeta. simpl.
    destruct (Webhooks.hook_patched gh _); simpl; [|auto].
    destruct (Webhooks.find_hook _ _); simpl; [|auto].
    split; [reflexivity|]. rewrite length_update_hook. lia.
  - destruct (Webhooks.find_hook _ _) as [h|] eqn:F; [|simpl; auto].
    pose proof (length_remove_hook _ _ _ F) as Hlen.
    match goal with
    | |- context [Webhooks.createRepositoryWebhook gh user ?o ?r ?s1] =>
        pose proof (createRepositoryWebhook_rows gh user o r s1) as [Ha Hr];
        cbv zeta in Ha, Hr;
        destruct (Webhooks.createRepositoryWebhook gh user o r s1)
          as [[x|m'] s']
    end; simpl in *.
    + split; [exact Ha | lia].
    + split; [exact Ha|]. rewrite Hr. lia.
  - simpl. auto.
Qed.

Lemma sync_one_counts (gh : Webhooks.GitHub) (user : Webhooks.Account)
    (existingWebhooks : list Webhooks.Hook) (results : Webhooks.Results)
    (repo : string * string) (s : Webhooks.Store) :
  let end_ := Webhooks.sync_one gh user existingWebhooks results repo s in
  total (fst end_) = S (total results) /\
  Webhooks.accounts (snd end_) = Webhooks.accounts s /\
  (List.length (Webhooks.hooks (snd end_)) + Webhooks.created results
   <= List.length (Webhooks.hooks s) + Webhooks.created (fst end_))%nat.
Proof.
  unfold Webhooks.sync_one, total.
  destruct (Webhooks.find_repo _ _ existingWebhooks) as [h|].
  - pose proof (checkAndUpdateWebhook_rows gh user h s) as [Ha Hl].
    cbv zeta in Ha, Hl.
    destruct (Webhooks.checkAndUpdateWebhook gh user h s) as [[x|m] s'];
      simpl in *; repeat split; try assumption; lia.
  - pose proof (createRepositoryWebhook_rows gh user (fst repo) (snd repo) s)
      as [Ha Hl].
    cbv zeta in Ha, Hl.
    destruct (Webhooks.createRepositoryWebhook gh user _ _ s) as [[x|m] s'];
      simpl in *; repeat split; try assumption; try lia.
    rewrite Hl. lia.
Qed.

Lemma sync_loop_counts (gh : Webhooks.GitHub) (user : Webhooks.Account)
    (existingWebhooks : list Webhooks.Hook)
    (repositories : list (string * string)) (results : Webhooks.Results)
    (s : Webhooks.Store) :
  let end_ := Webhooks.sync_loop gh user existingWebhooks repositories results s in
  total (fst end_) = (total results + List.length repositories)%nat /\
  Webhooks.accounts (snd end_) = Webhooks.accounts s /\
  (List.length (Webhooks.hooks (snd end_)) + Webhooks.created results
   <= List.length (Webhooks.hooks s) + Webhooks.created (fst end_))%nat.
Proof.
  revert results s.
  induction repositories as [|repo rest IH]; intros results s; cbn [Webhooks.sync_loop].
  - simpl. repeat split; lia.
  - pose proof (sync_one_counts gh user existingWebhooks results repo s)
      as (H1 & H2 & H3).
    cbv zeta in H1, H2, H3.
    destruct (Webhooks.sync_one gh user existingWebhooks results repo s)
      as [results' s'].
    specialize (IH results' s'). cbv zeta in IH. destruct IH as (G1 & G2 & G3).
    simpl in *. repeat split; [lia | congruence | lia].
Qed.

(** X25. syncUserWebhooks accounts for every repository: when it answers
    200, created + updated + failed is the number of repositories GitHub
    listed for the user, whatever GitHub answers to the requests made for
    them; the webhook table has grown by at most created rows, and the
    user table is not written. *)
Theorem sync_accounts_for_every_repository
    (gh : Webhooks.GitHub) (userId : Z) (s : Webhooks.Store)
    (results : Webhooks.Results) :
  let end_ := Webhooks.syncUserWebhooks gh userId s in
  fst end_ = (200, Some results) ->
  exists repositories,
    fst (Webhooks.getUserRepositories gh userId s) = Ok repositories /\
    total results = List.length repositories /\
    (List.length (Webhooks.hooks (snd end_))
     <= List.length (Webhooks.hooks s) + Webhooks.created results)%nat /\
    Webhooks.accounts (snd end_) = Webhooks.accounts s.
Proof.
  intro end_. subst end_. unfold Webhooks.syncUserWebhooks.
  destruct (Webhooks.find_account userId (Webhooks.accounts s)) as [user|] eqn:Hu;
    [|discriminate].
  destruct (negb (WalletController.given (Webhooks.token user))) eqn:Ht;
    [discriminate|].
  assert (Hs1 : Webhooks.accounts
                  (snd (Webhooks.getUserRepositories gh userId s)) =
                Webhooks.accounts s /\
                Webhooks.hooks
                  (snd (Webhooks.getUserRepositories gh userId s)) =
                Webhooks.hooks s).
  { unfold Webhooks.getUserRepositories, Webhooks.request.
    rewrite Hu, Ht. now destruct (Webhooks.user_repos gh _). }
  destruct (Webhooks.getUserRepositories gh userId s) as [[repositories|m] s1];
    [|discriminate].
  simpl in Hs1. destruct Hs1 as [Ha Hh].
  pose proof (sync_loop_counts gh user
                (filter (fun h => Webhooks.hook_userId h =? userId)
                   (Webhooks.hooks s1))
                repositories (Webhooks.mkResults 0 0 0) s1) as (H1 & H2 & H3).
  cbv zeta in H1, H2, H3.
  destruct (Webhooks.sync_loop _ _ _ _ _ _) as [r s2].
  simpl in *. intros [= <-].
  rewrite Hh in H3.
  exists repositories. repeat split; [exact H1 | lia | congruence].
Qed.

Lemma sync_accounts_for_every_repository_witness :
  let end_ := Webhooks.syncUserWebhooks github_ok 20 hook_store in
  exists repositories,
    fst (Webhooks.getUserRepositories github_ok 20 hook_store) = Ok repositories /\
    total (Webhooks.mkResults 2 0 0) = List.length repositories /\
    (List.length (Webhooks.hooks (snd end_))
     <= List.length (Webhooks.hooks hook_store)
        + Webhooks.created (Webhooks.mkResults 2 0 0))%nat /\
    Webhooks.accounts (snd end_) = Webhooks.accounts hook_store.
Proof.
  apply (sync_accounts_for_every_repository github_ok 20 hook_store
           (Webhooks.mkResults 2 0 0)).
  vm_compute. reflexivity.
Defined.

Lemma find_hook_unique (rows : list Webhooks.Hook) (h : Webhooks.Hook) :
  NoDup (map Webhooks.hook_id rows) -> In h rows ->
  Webhooks.find_hook (Webhooks.hook_id h) rows = Some h.
Proof.
  induction rows as [|y rows IH]; simpl; [tauto|].
  intros Hnd Hin. inversion Hnd as [|? ? Hy Hrows]; subst.
  destruct Hin as [<- | Hin]; [now rewrite Z.eqb_refl|].
  destruct (Z.eqb_spec (Webhooks.hook_id y) (Webhooks.hook_id h)) as [E|E];
    [|auto].
  exfalso. apply Hy. rewrite E. now apply in_map.
Qed.

Lemma find_repo_In (repoOwner repoName : string) (rows : list Webhooks.Hook)
    (h : Webhooks.Hook) :
  Webhooks.find_repo repoOwner repoName rows = Some h ->
  In h rows /\ Webhooks.names repoOwner repoName h = true.
Proof.
  induction rows as [|y rows IH]; simpl; [discriminate|].
  destruct (Webhooks.names repoOwner repoName y) eqn:E.
  - intros [= <-]. auto.
  - intro H. destruct (IH H). auto.
Qed.

(** X26. createWebhook does not ask whose webhook it found: for a
    repository that has a webhook, of whichever user, a call by any user
    with a token, when GitHub reports the hook inactive or under another
    URL and accepts the patch, is answered 200 and replaces the stored
    secret of that webhook by a fresh one. *)
Theorem createWebhook_does_not_check_the_owner
    (gh : Webhooks.GitHub) (userId : Z) (owner repo : string)
    (s : Webhooks.Store) (user : Webhooks.Account) (h : Webhooks.Hook)
    (url : string) (active : bool) :
  NoDup (map Webhooks.hook_id (Webhooks.hooks s)) ->
  Webhooks.find_account userId (Webhooks.accounts s) = Some user ->
  WalletController.given (Webhooks.token user) = true ->
  Webhooks.find_repo owner repo (Webhooks.hooks s) = Some h ->
  Webhooks.hook_got gh (Webhooks.asked s) = Webhooks.got url active ->
  negb (String.eqb url (Webhooks.expectedUrl gh h)) || negb active = true ->
  Webhooks.hook_patched gh (S (S (Webhooks.asked s))) = Ok tt ->
  let secret := Webhooks.randomBytes gh (S (Webhooks.asked s)) in
  let end_ := Webhooks.createWebhook gh userId owner repo s in
  fst end_ = (200, Some (Webhooks.with_secret secret h)) /\
  Webhooks.hooks (snd end_) =
  Webhooks.update_hook (Webhooks.hook_id h) (Webhooks.with_secret secret)
    (Webhooks.hooks s).
Proof.
  intros Hnd Hu Ht Hh Hg Hstale Hp secret end_. subst secret end_.
  unfold Webhooks.createWebhook. rewrite Hu, Ht, Hh. simpl negb. cbv iota.
  rewrite checkAndUpdateWebhook_eq. cbv zeta. rewrite Hg, Hstale.
  rewrite updateRepositoryWebhook_eq. cbv zeta. simpl Webhooks.asked.
  rewrite Hp. simpl Webhooks.hooks.
  rewrite (find_hook_unique _ h Hnd (proj1 (find_repo_In _ _ _ _ Hh))).
  split; reflexivity.
Qed.

(** User 20 calls createWebhook for the repository whose webhook belongs
    to user 10. *)
Lemma createWebhook_does_not_check_the_owner_witness :
  let h := Webhooks.mkHook 1 10 "octo" "repo" "55" "s0" in
  let end_ := Webhooks.createWebhook github_ok 20 "octo" "repo" hook_store in
  fst end_ = (200, Some (Webhooks.with_secret "secret1" h)) /\
  Webhooks.hooks (snd end_) =
  Webhooks.update_hook 1 (Webhooks.with_secret "secret1") (Webhooks.hooks hook_store).
Proof.
  intros h end_.
  apply (createWebhook_does_not_check_the_owner github_ok 20 "octo" "repo"
           hook_store (Webhooks.mkAccount 20 (Some "t20"%string)) h
           "https://old.example/webhooks" false);
    try reflexivity.
  simpl. repeat constructor. simpl. tauto.
Defined.

(** X27. deleteWebhook is for the owner alone, and does not wait for
    GitHub: a user who does not own the webhook is answered 403 and nothing
    changes; the owner, with a token, is answered 200 and the row is
    removed whether GitHub deleted the hook or not. *)
Theorem deleteWebhook_by_the_owner_alone
    (gh : Webhooks.GitHub) (userId i : Z) (s : Webhooks.Store)
    (h : Webhooks.Hook) :
  Webhooks.find_hook i (Webhooks.hooks s) = Some h ->
  (Webhooks.hook_userId h <> userId ->
   Webhooks.deleteWebhook gh userId i s = (403, s)) /\
  (Webhooks.hook_userId h = userId ->
   forall user,
     Webhooks.find_account userId (Webhooks.accounts s) = Some user ->
     WalletController.given (Webhooks.token user) = true ->
     fst (Webhooks.deleteWebhook gh userId i s) = 200 /\
     Webhooks.hooks (snd (Webhooks.deleteWebhook gh userId i s)) =
     Webhooks.remove_hook i (Webhooks.hooks s)).
Proof.
  intro Hh. unfold Webhooks.deleteWebhook. rewrite Hh. split.
  - intro Hne. apply Z.eqb_neq in Hne. now rewrite Hne.
  - intros He user Hu Ht. rewrite He, Z.eqb_refl, Hu, Ht. simpl negb. cbv iota.
    unfold Webhooks.request, Webhooks.prisma_delete. simpl. rewrite Hh.
    split; reflexivity.
Qed.

Lemma deleteWebhook_by_the_owner_alone_witness :
  Webhooks.deleteWebhook github_ok 20 1 hook_store = (403, hook_store) /\
  fst (Webhooks.deleteWebhook github_ok 10 1 hook_store) = 200 /\
  Webhooks.hooks (snd (Webhooks.deleteWebhook github_ok 10 1 hook_store)) =
  Webhooks.remove_hook 1 (Webhooks.hooks hook_store).
Proof.
  destruct (deleteWebhook_by_the_owner_alone github_ok 20 1 hook_store
              (Webhooks.mkHook 1 10 "octo" "repo" "55" "s0") eq_refl)
    as [Hother _].
  destruct (deleteWebhook_by_the_owner_alone github_ok 10 1 hook_store
              (Webhooks.mkHook 1 10 "octo" "repo" "55" "s0") eq_refl)
    as [_ Hown].
  split.
  - apply Hother. simpl. lia.
  - exact (Hown eq_refl (Webhooks.mkAccount 10 (Some "t10"%string))
             eq_refl eq_refl).
Defined.

(** X28. In a sync, a repository whose webhook belongs to another user is
    counted as created although nothing is created: no hook is posted to
    GitHub and the webhook table is left as it is. *)
Theorem sync_counts_a_foreign_webhook_as_created
    (gh : Webhooks.GitHub) (user : Webhooks.Account)
    (existingWebhooks : list Webhooks.Hook) (results : Webhooks.Results)
    (repo : string * string) (s : Webhooks.Store) (h : Webhooks.Hook) :
  WalletController.given (Webhooks.token user) = true ->
  Webhooks.user_ok gh (Webhooks.asked s) = true ->
  Webhooks.find_repo (fst repo) (snd repo) existingWebhooks = None ->
  Webhooks.find_repo (fst repo) (snd repo) (Webhooks.hooks s) = Some h ->
  let end_ := Webhooks.sync_one gh user existingWebhooks results repo s in
  fst end_ =
  Webhooks.mkResults (S (Webhooks.created results)) (Webhooks.updated results)
    (Webhooks.failed results) /\
  Webhooks.hooks (snd end_) = Webhooks.hooks s /\
  Webhooks.asked (snd end_) = S (Webhooks.asked s).
Proof.
  intros Ht Hv Hmine Hh end_. subst end_.
  unfold Webhooks.sync_one. rewrite Hmine.
  unfold Webhooks.createRepositoryWebhook, Webhooks.validateGitHubToken,
    Webhooks.and_then, Webhooks.ask, Webhooks.unit_.
  rewrite Ht. simpl. rewrite Hv. simpl. rewrite Hh. simpl. auto.
Qed.

Lemma sync_counts_a_foreign_webhook_as_created_witness :
  let user := Webhooks.mkAccount 20 (Some "t20"%string) in
  let end_ := Webhooks.sync_one github_ok user [] (Webhooks.mkResults 0 0 0)
                ("octo"%string, "repo"%string) hook_store in
  fst end_ = Webhooks.mkResults 1 0 0 /\
  Webhooks.hooks (snd end_) = Webhooks.hooks hook_store /\
  Webhooks.asked (snd end_) = S (Webhooks.asked hook_store).
Proof.
  intros user end_.
  exact (sync_counts_a_foreign_webhook_as_created github_ok user []
           (Webhooks.mkResults 0 0 0) ("octo"%string, "repo"%string) hook_store
           (Webhooks.mkHook 1 10 "octo" "repo" "55" "s0")
           eq_refl eq_refl eq_refl eq_refl).
Defined.

Lemma find_account_id (i : Z) (rows : list Webhooks.Account)
    (a : Webhooks.Account) :
  Webhooks.find_account i rows = Some a -> Webhooks.account_id a = i.
Proof.
  induction rows as [|x rows IH]; simpl; [discriminate|].
  destruct (Z.eqb_spec (Webhooks.account_id x) i); [|exact IH].
  now intros [= <-].
Qed.

(** X29. A webhook that createWebhook answered with 201 is a new row of
    the requesting user for the requested repository, appended to the
    webhook table, and getUserWebhooks lists it for that user. *)
Theorem created_webhook_is_listed
    (gh : Webhooks.GitHub) (userId : Z) (owner repo : string)
    (s : Webhooks.Store) (h : Webhooks.Hook) :
  let end_ := Webhooks.createWebhook gh userId owner repo s in
  fst end_ = (201, Some h) ->
  Webhooks.hooks (snd end_) = Webhooks.hooks s ++ [h] /\
  Webhooks.find_repo owner repo (Webhooks.hooks s) = None /\
  In (Webhooks.hook_id h, owner +++ "/" +++ repo)
    (Webhooks.getUserWebhooks userId (snd end_)).
Proof.
  intro end_. subst end_. unfold Webhooks.createWebhook.
  destruct (Webhooks.find_account userId (Webhooks.accounts s)) as [user|] eqn:Hu;
    [|discriminate].
  destruct (negb (WalletController.given (Webhooks.token user))) eqn:Ht;
    [discriminate|].
  destruct (Webhooks.find_repo owner repo (Webhooks.hooks s)) as [x|] eqn:Hx.
  { destruct (Webhooks.checkAndUpdateWebhook gh user x s) as [[y|m] s'];
      discriminate. }
  unfold Webhooks.createRepositoryWebhook, Webhooks.validateGitHubToken,
    Webhooks.prisma_create, Webhooks.and_then, Webhooks.ask, Webhooks.request,
    Webhooks.unit_, Webhooks.fail.
  rewrite Ht. simpl.
  destruct (Webhooks.user_ok gh (Webhooks.asked s)); simpl; [|discriminate].
  rewrite Hx. simpl.
  destruct (Webhooks.hook_posted gh _) as [wid|m]; simpl; [|discriminate].
  rewrite Hx. simpl. intros [= <-].
  repeat split. unfold Webhooks.getUserWebhooks. simpl.
  apply in_map_iff.
  match goal with
  | |- exists _, _ /\ In _ (filter _ (_ ++ [?x])) => exists x
  end.
  split; [|apply filter_In; split].
  - reflexivity.
  - apply in_or_app. right. now left.
  - simpl. rewrite (find_account_id _ _ _ Hu). apply Z.eqb_refl.
Qed.

Lemma created_webhook_is_listed_witness :
  let end_ := Webhooks.createWebhook github_ok 20 "octo" "tool" hook_store in
  let h := Webhooks.mkHook 2 20 "octo" "tool" "hook2" "secret1" in
  Webhooks.hooks (snd end_) = Webhooks.hooks hook_store ++ [h] /\
  Webhooks.find_repo "octo" "tool" (Webhooks.hooks hook_store) = None /\
  In (Webhooks.hook_id h, "octo" +++ "/" +++ "tool")
    (Webhooks.getUserWebhooks 20 (snd end_)).
Proof.
  intros end_ h.
  apply (created_webhook_is_listed github_ok 20 "octo" "tool" hook_store h).
  vm_compute. reflexivity.
Defined.

(** ** Posting the same bounty again *)

Lemma createEscrow_again (out : Outside) (u : Z) (amt : double) (k : Z)
    (w w' : World) (tx : string) :
  fst (Radius.createEscrow out u amt k w) = Ok tx ->
  existsb (Z.eqb k) (walletClients w') = true ->
  fst (Radius.createEscrow out u amt k w') = Ok tx.
Proof.
  intros H Hhit. revert H.
  unfold Radius.createEscrow, Radius.initializeWalletRadius,
    Radius.getWalletWithPrivateKey, Radius.send,
    prisma_wallet_findUnique, catch, bind, emit, lift, throw, ret.
  simpl. rewrite Hhit.
  repeat break_match; simpl;
    repeat match goal with
    | H : (_, _) = (_, _) |- _ => inversion H; subst; clear H
    end;
    try discriminate; try congruence.
Qed.

Lemma createEscrow_caches (out : Outside) (u : Z) (amt : double) (k : Z)
    (w : World) (tx : string) :
  fst (Radius.createEscrow out u amt k w) = Ok tx ->
  existsb (Z.eqb k) (walletClients (snd (Radius.createEscrow out u amt k w)))
  = true.
Proof.
  unfold Radius.createEscrow, Radius.initializeWalletRadius,
    Radius.getWalletWithPrivateKey, Radius.send,
    prisma_wallet_findUnique, catch, bind, emit, lift, throw, ret.
  simpl.
  repeat break_match; simpl;
    repeat match goal with
    | H : (_, _) = (_, _) |- _ => inversion H; subst; clear H
    end;
    try discriminate; intros _; simpl;
    rewrite ?Z.eqb_refl; try reflexivity; assumption.
Qed.

(** X18. createBounty does not look for a bounty already posted on the
    issue: a request that was answered 201, sent again while the outside
    answers as before, is answered 201 again, a second transfer is made to
    escrow, and the table then holds two bounties for the same issue under
    different ids. *)
Theorem same_bounty_can_be_posted_twice
    (out : Outside) (user : Z) (req : BountyController.CreateBody) (w : World) :
  let first := BountyController.createBounty out user req w in
  let second := BountyController.createBounty out user req (snd first) in
  code (fst first) = 201 ->
  code (fst second) = 201 /\
  exists b1 b2,
    bounties (snd second) = bounties w ++ [b1; b2] /\
    repoOwner b1 = repoOwner b2 /\
    repoName b1 = repoName b2 /\
    issueNumber b1 = issueNumber b2 /\
    id b1 <> id b2.
Proof.
  intros first second. subst first second.
  rewrite (createBounty_eq out user req w).
  destruct (negb (existsb (Z.eqb user) (users w))) eqn:Hu; [discriminate|].
  destruct (BountyController.walletId req) as [wid|] eqn:Hw; [|discriminate].
  destruct (wid =? 0) eqn:Hz; [discriminate|].
  destruct (github_issue_state out) as [state|m] eqn:Hg; [|discriminate].
  match goal with
  | |- context [if ?c then _ else _] => destruct c eqn:Hopen; [discriminate|]
  end.
  pose proof (createEscrow_caches out user (BountyController.posted_amount req)
                wid w) as Hcache.
  pose proof (createEscrow_again out user (BountyController.posted_amount req)
                wid w) as Hagain.
  destruct (Radius.createEscrow out user _ wid w) as [[escrow|m] w1] eqn:R;
    [|discriminate].
  destruct (bounty_create_rejects out) eqn:Hins; [discriminate|].
  destruct (quiet_at _ _ _ _ (quiet_createEscrow _ _ _ _) R) as (Hb & _ & Hus).
  simpl in Hcache. specialize (Hcache escrow eq_refl).
  cbv zeta. intros _. cbn [snd].
  set (b1 := BountyModel.with_id _ _).
  set (w2 := set_bounties (bounties w ++ [b1]) w1).
  rewrite (createBounty_eq out user req w2).
  assert (Hu2 : users w2 = users w) by exact Hus.
  rewrite Hu2, Hu, Hw, Hz, Hg, Hopen.
  specialize (Hagain w2 escrow eq_refl Hcache).
  destruct (Radius.createEscrow out user _ wid w2) as [r w3].
  simpl in Hagain. subst r. rewrite Hins. cbv zeta. split; [reflexivity|].
  cbn [fst snd bounties set_bounties].
  eexists b1, _. split; [unfold w2; simpl; now rewrite <- app_assoc|].
  repeat split. simpl.
  unfold w2. simpl. rewrite map_app. simpl.
  pose proof (below_next_id (map id (bounties w) ++ [next_id (map id (bounties w))])
                (next_id (map id (bounties w)))) as Hlt.
  intro E. rewrite <- E in Hlt.
  assert (next_id (map id (bounties w)) < next_id (map id (bounties w))); [|lia].
  apply Hlt. apply in_or_app. right. now left.
Qed.

Lemma same_bounty_can_be_posted_twice_witness :
  let first := BountyController.createBounty out_ok 10 (post two_and_a_half)
                 world0 in
  let second := BountyController.createBounty out_ok 10 (post two_and_a_half)
                  (snd first) in
  code (fst second) = 201 /\
  exists b1 b2,
    bounties (snd second) = bounties world0 ++ [b1; b2] /\
    repoOwner b1 = repoOwner b2 /\
    repoName b1 = repoName b2 /\
    issueNumber b1 = issueNumber b2 /\
    id b1 <> id b2.
Proof.
  apply same_bounty_can_be_posted_twice. vm_compute. reflexivity.
Defined.
